(** * base-parallel: a shallow embedding of [src/base-parallel.c]

    The program pins one worker thread per logical processor, hands the
    workers round numbers through a private slot and two auto-reset events
    per worker, and finally tells them to exit.

    Conventions of the embedding:
    - C integers are [Z]; a [DWORD]/[uint32_t] wraps at [2^32], a
      [DWORD_PTR]/[uint64_t] at [2^64], a [uint8_t] at [2^8];
    - a [calloc]ed array is [option (list Z)]: [None] is the [NULL] pointer,
      a [HANDLE] is a [Z] and [0] is the [NULL] handle;
    - everything the platform or another thread decides (results of system
      calls, the value of [cancel_requested] when it is read, the value of a
      slot when a worker reads it) comes from an explicit environment record;
    - every function returns the list of events it performed, in order. *)

From Stdlib Require Import String ZArith List Bool Lia Sorted.
Import ListNotations.
Local Open Scope Z_scope.

(** ** Compile-time constants *)

Definition WAIT_TIME : Z := 15000.
Definition SPARE_THREADS : Z := 0.
Definition MAX_ITERATIONS : Z := 100.

(** Values of <windows.h>. *)
Definition WAIT_OBJECT_0 : Z := 0.
Definition WAIT_TIMEOUT : Z := 258.
Definition WAIT_FAILED : Z := 4294967295.
Definition INFINITE : Z := 4294967295.
Definition NULL : Z := 0.

Definition wrap8 (x : Z) : Z := x mod 2 ^ 8.
Definition wrap32 (x : Z) : Z := x mod 2 ^ 32.
Definition wrap64 (x : Z) : Z := x mod 2 ^ 64.

(** ** Events *)

Inductive stream := Stdout | Stderr.

Inductive array_id := ThreadAffinity | TaskThread | DataReady | ThreadReady | ThreadData.

Inductive thread_id := Control | Worker (i : Z).

(** One constructor per [printf]/[fprintf] call site; [diag_format] is the
    format string of the call and [diag_args] its arguments. *)
Inductive diag :=
| AllocAffinityError
| ReadyFailed (i : Z)
| DataWaitFailed (i : Z)
| ThreadExiting (i : Z)
| ReceivedData (i d : Z)
| AllocError
| CreatingThreads (n : Z)
| EventCreateFailed
| ThreadStartFailed (i : Z)
| DispatchWaitFailed
| DispatchSignalFailed (i : Z)
| ThreadsNotFinalized
| Banner
| SetAffinityFailed
| ControlCreateFailed
| ControlExitedUnexpectedly.

Definition diag_format (d : diag) : string :=
  match d with
  | AllocAffinityError => "Could not alloc thread_affinity.\n"
  | ReadyFailed _ => "Failed to signal readiness for thread #%02d\n"
  | DataWaitFailed _ => "Failed to get data ready event for thread #%02d\n"
  | ThreadExiting _ => "Thread #%02d exiting\n"
  | ReceivedData _ _ => "Thread #%02d received data %d\n"
  | AllocError => "Alloc error.\n"
  | CreatingThreads _ => "Creating %d threads...\n"
  | EventCreateFailed => "Unable to create checksum thread event\n"
  | ThreadStartFailed _ => "Unable to start thread #%02d\n"
  | DispatchWaitFailed => "Failed to wait on individual task thread\n"
  | DispatchSignalFailed _ => "Could not signal thread #%02d\n"
  | ThreadsNotFinalized => "Threads did not finalize\n"
  | Banner => "%s %s (c) 2020 Pete Batard <pete@akeo.ie>\n\n"
  | SetAffinityFailed => "Could not set thread_affinity.\n"
  | ControlCreateFailed => "Could not create control thread.\n"
  | ControlExitedUnexpectedly => "Control thread exited unexpectedly.\n"
  end.

Definition diag_args (d : diag) : list Z :=
  match d with
  | ReadyFailed i | DataWaitFailed i | ThreadExiting i
  | ThreadStartFailed i | DispatchSignalFailed i => [i]
  | ReceivedData i v => [i; v]
  | CreatingThreads n => [n]
  | _ => []
  end.

Inductive event :=
| EvPrintf (s : stream) (d : diag)
| EvCalloc (a : array_id) (count : Z) (ok : bool)
| EvFree (a : array_id)
| EvCreateEvent (a : array_id) (i : Z) (h : Z)
| EvCreateThread (t : thread_id) (h : Z)
| EvSetThreadPriority (t : thread_id)
| EvSetThreadAffinityMask (i : Z) (mask : Z)
| EvSetConsoleCtrlHandler
| EvPollCancel (cancelled : bool)
| EvWaitForMultipleObjects (a : array_id) (n : Z) (wait_all : bool) (timeout : Z) (res : Z)
| EvWaitForSingleObject (a : array_id) (i : Z) (timeout : Z) (res : Z)
| EvWaitThread (t : thread_id) (timeout : Z) (res : Z)
| EvStoreData (i : Z) (v : Z)
| EvLoadData (i : Z) (v : Z)
| EvSetEvent (a : array_id) (i : Z) (ok : bool)
| EvSleep (ms : Z)
| EvMemsetZero (a : array_id)
| EvTerminateThread (i : Z) (h : Z)
| EvCloseHandle (a : array_id) (i : Z) (h : Z).

Definition trace := list event.

(** ** Global variables *)

Record globals := mkGlobals {
  num_threads : Z;
  thread_affinity : option (list Z);
  data_ready : option (list Z);
  thread_ready : option (list Z);
  thread_data : option (list Z)
}.

Definition initial_globals : globals :=
  mkGlobals 0 None None None None.

(** [a[i] = v] on an array that holds index [i] (every store of the program
    is guarded by [i < num_threads]). *)
Fixpoint store_nat (l : list Z) (i : nat) (v : Z) : list Z :=
  match l, i with
  | [], _ => []
  | _ :: r, O => v :: r
  | x :: r, S j => x :: store_nat r j v
  end.

Definition store (l : list Z) (i : Z) (v : Z) : list Z := store_nat l (Z.to_nat i) v.

Definition load (l : list Z) (i : Z) : Z := nth (Z.to_nat i) l 0.

(** ** popcnt64 *)

(** One line of [popcnt64]: [(u & m) + ((u >> s) & m)] on a [uint64_t]. *)
Definition add_fields (u s m : Z) : Z :=
  wrap64 (Z.land u m + Z.land (Z.shiftr u s) m).

Definition popcnt64 (u : Z) : Z :=
  let u := add_fields u 1 0x5555555555555555 in
  let u := add_fields u 2 0x3333333333333333 in
  let u := add_fields u 4 0x0f0f0f0f0f0f0f0f in
  let u := add_fields u 8 0x00ff00ff00ff00ff in
  let u := add_fields u 16 0x0000ffff0000ffff in
  let u := add_fields u 32 0x00000000ffffffff in
  wrap8 u.

(** ** SetThreadAffinity *)

(** What the platform answers during [SetThreadAffinity]: the process
    affinity word ([None] when [GetProcessAffinityMask] fails) and whether
    [calloc] returns memory. *)
Record affinity_env := mkAffinityEnv {
  process_affinity : option Z;
  calloc_affinity : bool
}.

(** [affinity & (-1LL * affinity)] on a 64-bit [DWORD_PTR]. *)
Definition lowest_bit (affinity : Z) : Z :=
  Z.land affinity (wrap64 (-1 * affinity)).

(** The body of the [for (i = 0; i < num_threads; i++)] loop, run for the
    [todo] remaining indices starting at [i]. *)
Fixpoint spread_affinity (todo : nat) (i : Z) (affinity : Z) (masks : list Z) : list Z :=
  match todo with
  | O => masks
  | S todo' =>
      let masks' := store masks i (Z.lor (load masks i) (lowest_bit affinity)) in
      let affinity' := Z.lxor affinity (lowest_bit affinity) in
      spread_affinity todo' (i + 1) affinity' masks'
  end.

(** An integer constant [v] as an operand of a comparison with a [DWORD]
    (unsigned, 32 bits wide). A constant of type [int] is converted to
    [DWORD], so a negative [int] compares as [v + 2^32]; a value that does
    not fit an [int] has a wider type and is compared as it is. *)
Definition dword_operand (v : Z) : Z :=
  if (- 2 ^ 31 <=? v) && (v <? 0) then wrap32 v else v.

(** [spare] is the value of the macro [SPARE_THREADS], an integer constant
    ([0] as shipped). In [num_threads <= SPARE_THREADS] it is compared with
    the [DWORD] [num_threads]; [num_threads -= SPARE_THREADS] is computed
    modulo [2^32]. *)
Definition SetThreadAffinity (spare : Z) (env : affinity_env) (g : globals)
  : trace * bool * globals :=
  let g0 := mkGlobals 0 (thread_affinity g) (data_ready g) (thread_ready g) (thread_data g) in
  match process_affinity env with
  | None => ([], false, g0)
  | Some affinity =>
      let n := popcnt64 affinity in
      let g1 := mkGlobals n (thread_affinity g) (data_ready g) (thread_ready g) (thread_data g) in
      if n <=? dword_operand spare then ([], false, g1)
      else
        let n := wrap32 (n - spare) in
        if negb (calloc_affinity env) then
          ([EvCalloc ThreadAffinity n false; EvPrintf Stderr AllocAffinityError], false,
           mkGlobals n None (data_ready g) (thread_ready g) (thread_data g))
        else
          let masks := spread_affinity (Z.to_nat n) 0 affinity (repeat 0 (Z.to_nat n)) in
          ([EvCalloc ThreadAffinity n true], true,
           mkGlobals n (Some masks) (data_ready g) (thread_ready g) (thread_data g))
  end.

(** The bit positions of a 64-bit word, and those of its set bits, lowest
    first. *)
Definition bit_positions : list Z := map Z.of_nat (seq 0 64).

Definition set_bits (a : Z) : list Z :=
  flat_map (fun k => if Z.testbit a k then [k] else []) bit_positions.

(** The number of logical processors the word makes usable. *)
Definition usable_cores (a : Z) : Z := Z.of_nat (length (set_bits a)).

(** ** ParallelTaskThread *)

(** What worker [i] meets in one turn of its [do ... while (1)] loop:
    whether [SetEvent(thread_ready[i])] succeeds, what the wait on
    [data_ready[i]] returns, the two values [thread_data[i]] holds when it is
    read (for the exit test and for the [printf]), and the value of
    [cancel_requested] at each test of the dummy loop. *)
Record worker_turn := mkWorkerTurn {
  ready_ok : bool;
  data_wait : Z;
  slot_test : Z;
  slot_print : Z;
  cancel_in_work : Z -> bool
}.

(** [for (j = 0; (j < 25) && (!cancel_requested); j++) Sleep(100);] with
    [todo = 25 - j] iterations left. *)
Fixpoint dummy_loop (todo : nat) (j : Z) (cancel : Z -> bool) : trace :=
  match todo with
  | O => []
  | S todo' =>
      if cancel j then [EvPollCancel true]
      else EvPollCancel false :: EvSleep 100 :: dummy_loop todo' (j + 1) cancel
  end.

(** The result is [None] when the list of turns ends while the thread is
    still looping. *)
Fixpoint ParallelTaskThread (i : Z) (turns : list worker_turn) : trace * option Z :=
  match turns with
  | [] => ([], None)
  | t :: rest =>
      if negb (ready_ok t) then
        ([EvSetEvent ThreadReady i false; EvPrintf Stdout (ReadyFailed i)], Some 1)
      else if negb (data_wait t =? WAIT_OBJECT_0) then
        ([EvSetEvent ThreadReady i true;
          EvWaitForSingleObject DataReady i WAIT_TIME (data_wait t);
          EvPrintf Stdout (DataWaitFailed i)], Some 1)
      else if slot_test t =? 0 then
        ([EvSetEvent ThreadReady i true;
          EvWaitForSingleObject DataReady i WAIT_TIME (data_wait t);
          EvLoadData i (slot_test t);
          EvPrintf Stdout (ThreadExiting i)], Some 0)
      else
        let '(tr, r) := ParallelTaskThread i rest in
        ([EvSetEvent ThreadReady i true;
          EvWaitForSingleObject DataReady i WAIT_TIME (data_wait t);
          EvLoadData i (slot_test t);
          EvLoadData i (slot_print t);
          EvPrintf Stdout (ReceivedData i (slot_print t))]
         ++ dummy_loop 25 0 (cancel_in_work t) ++ tr, r)
  end.

(** ** ControlThread *)

(** What the platform answers to the control thread. The functions are
    indexed by the worker index (setup, broadcast) or by the round number
    [iteration] (dispatch loop). The [DWORD] the readiness wait returns is
    used as an index: it is the answer reduced modulo [2^32]. *)
Record control_env := mkControlEnv {
  calloc_task_thread : bool;
  calloc_data_ready : bool;
  calloc_thread_ready : bool;
  calloc_thread_data : bool;
  create_data_ready : Z -> Z;
  create_thread_ready : Z -> Z;
  create_thread : Z -> Z;
  cancel_at : Z -> bool;
  wait_ready : Z -> Z;
  signal_ok : Z -> bool;
  broadcast_ok : Z -> bool;
  join_result : Z
}.

(** The four per-worker arrays once all of them are allocated. *)
Record arrays := mkArrays {
  a_task_thread : list Z;
  a_data_ready : list Z;
  a_thread_ready : list Z;
  a_thread_data : list Z
}.

Inductive outcome :=
| ExitThread (r : Z)
| Fault.

Definition calloc (ok : bool) (n : Z) : option (list Z) :=
  if ok then Some (repeat 0 (Z.to_nat n)) else None.

(** The thread-creation loop, [todo] workers left, starting at worker [i].
    The boolean is [false] when the loop leaves through [goto out]. *)
Fixpoint create_workers (env : control_env) (affinity : list Z)
    (todo : nat) (i : Z) (a : arrays) : trace * arrays * bool :=
  match todo with
  | O => ([], a, true)
  | S todo' =>
      let hd := create_data_ready env i in
      let hr := create_thread_ready env i in
      let a1 := mkArrays (a_task_thread a) (store (a_data_ready a) i hd)
                         (store (a_thread_ready a) i hr) (a_thread_data a) in
      let t1 := [EvCreateEvent DataReady i hd; EvCreateEvent ThreadReady i hr] in
      if (hd =? NULL) || (hr =? NULL) then
        (t1 ++ [EvPrintf Stdout EventCreateFailed], a1, false)
      else
        let ht := create_thread env i in
        let a2 := mkArrays (store (a_task_thread a1) i ht) (a_data_ready a1)
                           (a_thread_ready a1) (a_thread_data a1) in
        let t2 := t1 ++ [EvCreateThread (Worker i) ht] in
        if ht =? NULL then
          (t2 ++ [EvPrintf Stdout (ThreadStartFailed i)], a2, false)
        else
          let t3 := t2 ++ [EvSetThreadPriority (Worker i)]
                       ++ (if negb (load affinity i =? 0)
                           then [EvSetThreadAffinityMask i (load affinity i)] else []) in
          let '(tr, a3, ok) := create_workers env affinity todo' (i + 1) a2 in
          (t3 ++ tr, a3, ok)
  end.

(** The dispatch loop with [todo = MAX_ITERATIONS + 1 - iteration] rounds
    left: [todo = 0] is [iteration > MAX_ITERATIONS]. [cancel_requested] is
    read only when [iteration <= MAX_ITERATIONS] holds. The boolean is
    [false] when the loop leaves through [goto out]. *)
Fixpoint dispatch_loop (env : control_env) (n : Z)
    (todo : nat) (iteration : Z) (a : arrays) : trace * arrays * bool :=
  match todo with
  | O => ([], a, true)
  | S todo' =>
      if cancel_at env iteration then ([EvPollCancel true], a, true)
      else
        let i := wrap32 (wait_ready env iteration) in
        let t1 := [EvPollCancel false;
                   EvWaitForMultipleObjects ThreadReady n false WAIT_TIME i] in
        if i >=? wrap32 (WAIT_OBJECT_0 + n) then
          (t1 ++ [EvPrintf Stdout DispatchWaitFailed], a, false)
        else
          let a1 := mkArrays (a_task_thread a) (a_data_ready a) (a_thread_ready a)
                             (store (a_thread_data a) i iteration) in
          let t2 := t1 ++ [EvStoreData i iteration;
                           EvSetEvent DataReady i (signal_ok env iteration)] in
          if negb (signal_ok env iteration) then
            (t2 ++ [EvPrintf Stdout (DispatchSignalFailed i)], a1, false)
          else
            let '(tr, a2, ok) := dispatch_loop env n todo' (iteration + 1) a1 in
            (t2 ++ tr, a2, ok)
  end.

(** [for (i = 0; i < num_threads; i++) SetEvent(data_ready[i]);] *)
Fixpoint broadcast (env : control_env) (todo : nat) (i : Z) : trace :=
  match todo with
  | O => []
  | S todo' => EvSetEvent DataReady i (broadcast_ok env i) :: broadcast env todo' (i + 1)
  end.

(** The loop below the label [out]. An array that is [NULL] cannot be
    indexed: the loop stops there with [false]. *)
Fixpoint cleanup (todo : nat) (i : Z)
    (task dready tready : option (list Z)) : trace * bool :=
  match todo with
  | O => ([], true)
  | S todo' =>
      match task with
      | None => ([], false)
      | Some th =>
          let t1 := if negb (load th i =? NULL) then [EvTerminateThread i (load th i)] else [] in
          match dready with
          | None => (t1, false)
          | Some dr =>
              let t2 := if negb (load dr i =? NULL)
                        then [EvCloseHandle DataReady i (load dr i)] else [] in
              match tready with
              | None => (t1 ++ t2, false)
              | Some rr =>
                  let t3 := if negb (load rr i =? NULL)
                            then [EvCloseHandle ThreadReady i (load rr i)] else [] in
                  let '(tr, ok) := cleanup todo' (i + 1) task dready tready in
                  (t1 ++ t2 ++ t3 ++ tr, ok)
              end
          end
      end
  end.

(** From the label [out] to [ExitThread(r)]. *)
Definition out (n : Z) (task dready tready : option (list Z)) (r : Z) : trace * outcome :=
  let '(tr, ok) := cleanup (Z.to_nat n) 0 task dready tready in
  if ok then
    (tr ++ [EvFree DataReady; EvFree ThreadReady; EvFree TaskThread; EvFree ThreadData],
     ExitThread r)
  else (tr, Fault).

Definition out_arrays (n : Z) (a : arrays) (r : Z) : trace * outcome :=
  out n (Some (a_task_thread a)) (Some (a_data_ready a)) (Some (a_thread_ready a)) r.

(** Lines 203-209: the grace period, the sentinel in every slot, the
    data-ready signal of every worker. *)
Definition shutdown (env : control_env) (n : Z) (a : arrays) : trace * arrays :=
  ([EvSleep 250; EvMemsetZero ThreadData] ++ broadcast env (Z.to_nat n) 0,
   mkArrays (a_task_thread a) (a_data_ready a) (a_thread_ready a)
            (repeat 0 (length (a_thread_data a)))).

Definition prepend (t : trace) (r : trace * outcome) : trace * outcome :=
  (t ++ fst r, snd r).

Definition ControlThread (env : control_env) (g : globals) : trace * outcome :=
  let n := num_threads g in
  match thread_affinity g with
  | None => ([], ExitThread 1)
  | Some affinity =>
      if n =? 0 then ([], ExitThread 1)
      else
        let task := calloc (calloc_task_thread env) n in
        let dready := calloc (calloc_data_ready env) n in
        let tready := calloc (calloc_thread_ready env) n in
        let tdata := calloc (calloc_thread_data env) n in
        let t0 := [EvCalloc TaskThread n (calloc_task_thread env);
                   EvCalloc DataReady n (calloc_data_ready env);
                   EvCalloc ThreadReady n (calloc_thread_ready env);
                   EvCalloc ThreadData n (calloc_thread_data env)] in
        match task, dready, tready, tdata with
        | Some th, Some dr, Some rr, Some sl =>
            let t1 := t0 ++ [EvPrintf Stdout (CreatingThreads n)] in
            let '(tc, a1, ok1) :=
              create_workers env affinity (Z.to_nat n) 0 (mkArrays th dr rr sl) in
            if negb ok1 then prepend (t1 ++ tc) (out_arrays n a1 1)
            else
              let '(td, a2, ok2) :=
                dispatch_loop env n (Z.to_nat MAX_ITERATIONS) 1 a1 in
              if negb ok2 then prepend (t1 ++ tc ++ td) (out_arrays n a2 1)
              else
                let '(ts, a3) := shutdown env n a2 in
                let tj := [EvWaitForMultipleObjects TaskThread n true WAIT_TIME (join_result env)] in
                if join_result env =? WAIT_OBJECT_0 then
                  let a4 := mkArrays (repeat 0 (length (a_task_thread a3))) (a_data_ready a3)
                                     (a_thread_ready a3) (a_thread_data a3) in
                  prepend (t1 ++ tc ++ td ++ ts ++ tj ++ [EvMemsetZero TaskThread])
                          (out_arrays n a4 0)
                else
                  prepend (t1 ++ tc ++ td ++ ts ++ tj ++ [EvPrintf Stdout ThreadsNotFinalized])
                          (out_arrays n a3 1)
        | _, _, _, _ =>
            prepend (t0 ++ [EvPrintf Stderr AllocError]) (out n task dready tready 1)
        end
  end.

(** ** main_utf8 *)

(** What the platform answers to the main thread: the answers to
    [SetThreadAffinity], the handle of the control thread, the answers to the
    control thread, and the result of the wait on the control thread. *)
Record process_env := mkProcessEnv {
  p_affinity : affinity_env;
  p_create_control : Z;
  p_control : control_env;
  p_wait_control : Z
}.

(** What the process did: the events of the main thread, the run of the
    control thread when it was started, and the value [main_utf8] returns
    ([None] when the control thread faulted and took the process down). *)
Record process_run := mkProcessRun {
  main_trace : trace;
  control_run : option (trace * outcome);
  exit_code : option Z
}.

(** The five [fprintf] calls of the banner are the single event
    [EvPrintf Stderr Banner]. *)
Definition main_utf8 (env : process_env) : process_run :=
  let '(ta, ok, g) := SetThreadAffinity SPARE_THREADS (p_affinity env) initial_globals in
  let t0 := EvPrintf Stderr Banner :: ta in
  if negb ok then
    mkProcessRun (t0 ++ [EvPrintf Stderr SetAffinityFailed; EvFree ThreadAffinity]) None (Some 1)
  else
    let t1 := t0 ++ [EvCreateThread Control (p_create_control env)] in
    if p_create_control env =? NULL then
      mkProcessRun (t1 ++ [EvPrintf Stderr ControlCreateFailed; EvFree ThreadAffinity])
                   None (Some 1)
    else
      let c := ControlThread (p_control env) g in
      let t2 := t1 ++ [EvSetThreadPriority Control; EvSetConsoleCtrlHandler;
                       EvWaitThread Control INFINITE (p_wait_control env)] in
      match snd c with
      | Fault => mkProcessRun t2 (Some c) None
      | ExitThread _ =>
          if negb (p_wait_control env =? WAIT_OBJECT_0) then
            mkProcessRun (t2 ++ [EvPrintf Stderr ControlExitedUnexpectedly; EvFree ThreadAffinity])
                         (Some c) (Some 1)
          else
            mkProcessRun (t2 ++ [EvFree ThreadAffinity]) (Some c) (Some 0)
      end.

(** * Specification vocabulary *)

(** ** Packed fields, for [popcnt64] *)

(** Fields of [w] bits each, lowest first, packed into one number. *)
Fixpoint pack (w : Z) (l : list Z) : Z :=
  match l with
  | [] => 0
  | x :: r => x + 2 ^ w * pack w r
  end.

(** Every second field, starting with the first. *)
Fixpoint evens (l : list Z) : list Z :=
  match l with
  | [] => []
  | x :: r => x :: match r with [] => [] | _ :: r' => evens r' end
  end.

Fixpoint pairs (l : list Z) : list Z :=
  match l with
  | [] => []
  | x :: r => match r with [] => [x] | y :: r' => (x + y) :: pairs r' end
  end.

Definition fields_below (b : Z) (l : list Z) : Prop := Forall (fun x => 0 <= x <= b) l.

Definition field_mask (w : Z) (n : nat) : Z := pack (2 * w) (repeat (2 ^ w - 1) n).

Definition field_lt (w x : Z) : Prop := 0 <= x < 2 ^ w.

Definition bits_of (a : Z) (from : nat) (n : nat) : list Z :=
  map (fun i => Z.b2z (Z.testbit a (Z.of_nat i))) (seq from n).

Definition zsum (l : list Z) : Z := fold_right Z.add 0 l.

(** ** Affinity masks *)

(** [m] is one set bit of the word [a]. *)
Definition single_bit_of (a m : Z) : Prop :=
  exists k, 0 <= k < 64 /\ Z.testbit a k = true /\ m = 2 ^ k.

Definition pairwise_disjoint (masks : list Z) : Prop :=
  forall i j, (i < j < length masks)%nat -> Z.land (nth i masks 0) (nth j masks 0) = 0.

(** ** Traces *)

(** The events of each part of [ControlThread]: allocation and thread
    creation, the dispatch loop, the shutdown protocol (lines 203-217) and
    the code below the label [out]. *)
Definition setup_event (e : event) : bool :=
  match e with
  | EvCalloc _ _ _ | EvCreateEvent _ _ _ | EvCreateThread _ _
  | EvSetThreadPriority _ | EvSetThreadAffinityMask _ _ => true
  | EvPrintf _ AllocError | EvPrintf _ (CreatingThreads _)
  | EvPrintf _ EventCreateFailed | EvPrintf _ (ThreadStartFailed _) => true
  | _ => false
  end.

Definition dispatch_event (e : event) : bool :=
  match e with
  | EvPollCancel _ | EvStoreData _ _ | EvSetEvent DataReady _ _ => true
  | EvWaitForMultipleObjects ThreadReady _ false timeout _ => timeout =? WAIT_TIME
  | EvPrintf Stdout DispatchWaitFailed | EvPrintf Stdout (DispatchSignalFailed _) => true
  | _ => false
  end.

Definition shutdown_event (e : event) : bool :=
  match e with
  | EvSleep ms => ms =? 250
  | EvMemsetZero _ | EvSetEvent DataReady _ _ => true
  | EvWaitForMultipleObjects TaskThread _ true timeout _ => timeout =? WAIT_TIME
  | EvPrintf Stdout ThreadsNotFinalized => true
  | _ => false
  end.

Definition cleanup_event (e : event) : bool :=
  match e with
  | EvTerminateThread _ _ | EvCloseHandle _ _ _ | EvFree _ => true
  | _ => false
  end.

(** The events of the dummy loop of a worker. *)
Definition work_event (e : event) : bool :=
  match e with
  | EvPollCancel _ => true
  | EvSleep ms => ms =? 100
  | _ => false
  end.

(** The diagnostics of the two error exits of the dispatch loop. *)
Definition dispatch_error (e : event) : bool :=
  match e with
  | EvPrintf Stdout DispatchWaitFailed | EvPrintf Stdout (DispatchSignalFailed _) => true
  | _ => false
  end.

(** The slot writes [thread_data[i] = v] of a trace, as pairs [(i, v)]. *)
Definition stores (t : trace) : list (Z * Z) :=
  flat_map (fun e => match e with EvStoreData i v => [(i, v)] | _ => [] end) t.

(** A dispatch round starts with the wait on the [thread_ready] events. *)
Definition starts_round (e : event) : bool :=
  match e with
  | EvWaitForMultipleObjects ThreadReady _ _ _ _ => true
  | _ => false
  end.

Definition rounds (t : trace) : nat := length (filter starts_round t).

(** [first], [first + 1], ... ([len] numbers). *)
Fixpoint zseq (first : Z) (len : nat) : list Z :=
  match len with
  | O => []
  | S len' => first :: zseq (first + 1) len'
  end.

(** A call that suspends the thread [owner] is one of the waits the design
    names, with the timeout [WAIT_TIME], or a sleep of at most 250 ms. *)
Definition bounded_block (owner : thread_id) (e : event) : Prop :=
  match e with
  | EvWaitForSingleObject a i timeout _ =>
      owner = Worker i /\ a = DataReady /\ timeout = WAIT_TIME
  | EvWaitForMultipleObjects a _ wait_all timeout _ =>
      owner = Control /\ timeout = WAIT_TIME /\
      ((a = ThreadReady /\ wait_all = false) \/ (a = TaskThread /\ wait_all = true))
  | EvWaitThread _ _ _ => False
  | EvSleep ms => 0 <= ms <= 250
  | _ => True
  end.

(** What the code below [out] does to [n] workers whose thread and events
    were all created. *)
Definition forced_teardown (env : control_env) (n : nat) : trace :=
  flat_map (fun i => [EvTerminateThread i (create_thread env i);
                      EvCloseHandle DataReady i (create_data_ready env i);
                      EvCloseHandle ThreadReady i (create_thread_ready env i)])
           (zseq 0 n)
  ++ [EvFree DataReady; EvFree ThreadReady; EvFree TaskThread; EvFree ThreadData].

(** Worker [j] has its thread and both events, as the platform returned
    them. *)
Definition worker_created (env : control_env) (a : arrays) (j : Z) : Prop :=
  load (a_task_thread a) j = create_thread env j /\ create_thread env j <> NULL
  /\ load (a_data_ready a) j = create_data_ready env j /\ create_data_ready env j <> NULL
  /\ load (a_thread_ready a) j = create_thread_ready env j /\ create_thread_ready env j <> NULL.

Definition handles_length (a : arrays) (n : nat) : Prop :=
  length (a_task_thread a) = n /\ length (a_data_ready a) = n
  /\ length (a_thread_ready a) = n.

(** The four ways a run of [ControlThread] can go: the guard at its head
    fails; the setup fails and the code below [out] follows; the dispatch
    loop leaves through [goto out]; the dispatch loop ends and the shutdown
    protocol runs. *)
Inductive control_run_shape (env : control_env) (g : globals) : trace * outcome -> Prop :=
| NotConfigured :
    control_run_shape env g ([], ExitThread 1)
| SetupFailed A K o :
    Forall (fun x => setup_event x = true) A ->
    Forall (fun x => cleanup_event x = true) K ->
    control_run_shape env g (A ++ K, o)
| DispatchAborted A B a a' :
    Forall (fun x => setup_event x = true) A ->
    dispatch_loop env (num_threads g) (Z.to_nat MAX_ITERATIONS) 1 a = (B, a', false) ->
    control_run_shape env g
      (A ++ B ++ forced_teardown env (Z.to_nat (num_threads g)), ExitThread 1)
| ShutDown A B a a' C K o :
    Forall (fun x => setup_event x = true) A ->
    dispatch_loop env (num_threads g) (Z.to_nat MAX_ITERATIONS) 1 a = (B, a', true) ->
    Forall (fun x => shutdown_event x = true) C ->
    Forall (fun x => cleanup_event x = true) K ->
    control_run_shape env g
      (A ++ B ++ (EvSleep 250 :: EvMemsetZero ThreadData :: C) ++ K, o).

(** * The rest of the program *)

(** ** ConsoleHandler *)

(** A value of <windows.h>. *)
Definition CTRL_C_EVENT : Z := 0.

(** The handler on the control type [dwCtrlType], with the global
    [cancel_requested] before the call: the lines printed, the global after
    the call and the [BOOL] returned. *)
Definition ConsoleHandler (dwCtrlType : Z) (cancel_requested : bool)
  : list string * bool * bool :=
  if dwCtrlType =? CTRL_C_EVENT then (["Ctrl-C received\n"%string], true, true)
  else ([], cancel_requested, false).

(** The handler called for each control type of a list in turn: the lines
    printed, the [BOOL]s returned and the global after the last call. *)
Fixpoint console_events (types : list Z) (cancel_requested : bool)
  : list string * list bool * bool :=
  match types with
  | [] => ([], [], cancel_requested)
  | ty :: rest =>
      let '(lines, flag, handled) := ConsoleHandler ty cancel_requested in
      let '(lines', results, flag') := console_events rest flag in
      (lines ++ lines', handled :: results, flag')
  end.

(** ** wmain *)

(** A value of <windows.h>. *)
Definition CP_UTF8 : Z := 65001.

(** What [wmain] meets: whether [calloc] returns the argument vector, the
    pointer [wchar_to_utf8] returns for argument [i] (0 is [NULL]), and the
    answers to [main_utf8]. *)
Record entry_env := mkEntryEnv {
  calloc_argv : bool;
  utf8_of : Z -> Z;
  e_process : process_env
}.

Inductive entry_event :=
| EnSetConsoleOutputCP (cp : Z)
| EnCalloc (count : Z) (ok : bool)
| EnConvert (i : Z) (p : Z)
| EnMain (run : process_run)
| EnFreeArg (i : Z) (p : Z)
| EnFreeArgv.

(** [for (int i = 0; i < argc; i++) argv[i] = wchar_to_utf8(argv16[i]);] *)
Fixpoint convert_args (env : entry_env) (todo : nat) (i : Z) : list entry_event :=
  match todo with
  | O => []
  | S todo' => EnConvert i (utf8_of env i) :: convert_args env todo' (i + 1)
  end.

(** [for (int i = 0; i < argc; i++) free(argv[i]);] *)
Fixpoint free_args (env : entry_env) (todo : nat) (i : Z) : list entry_event :=
  match todo with
  | O => []
  | S todo' => EnFreeArg i (utf8_of env i) :: free_args env todo' (i + 1)
  end.

(** The result is [None] when the control thread faulted inside
    [main_utf8]. *)
Definition wmain (argc : Z) (env : entry_env) : list entry_event * option Z :=
  if negb (calloc_argv env) then
    ([EnSetConsoleOutputCP CP_UTF8; EnCalloc argc false], Some (-1))
  else
    let run := main_utf8 (e_process env) in
    let t := [EnSetConsoleOutputCP CP_UTF8; EnCalloc argc true]
             ++ convert_args env (Z.to_nat argc) 0 ++ [EnMain run] in
    match exit_code run with
    | None => (t, None)
    | Some r => (t ++ free_args env (Z.to_nat argc) 0 ++ [EnFreeArgv], Some r)
    end.

(** ** More vocabulary *)

(** The events a worker with index [i] may perform: signals on
    [thread_ready[i]], waits on [data_ready[i]], reads of [thread_data[i]],
    its own diagnostics, and the polls and sleeps of the dummy loop. *)
Definition worker_event (i : Z) (e : event) : bool :=
  match e with
  | EvSetEvent ThreadReady j _ => j =? i
  | EvWaitForSingleObject DataReady j timeout _ => (j =? i) && (timeout =? WAIT_TIME)
  | EvLoadData j _ => j =? i
  | EvPrintf Stdout (ReadyFailed j) | EvPrintf Stdout (DataWaitFailed j)
  | EvPrintf Stdout (ThreadExiting j) | EvPrintf Stdout (ReceivedData j _) => j =? i
  | EvPollCancel _ => true
  | EvSleep ms => ms =? 100
  | _ => false
  end.

(** The four [calloc] calls of [ControlThread]. *)
Definition alloc_events (env : control_env) (n : Z) : trace :=
  [EvCalloc TaskThread n (calloc_task_thread env);
   EvCalloc DataReady n (calloc_data_ready env);
   EvCalloc ThreadReady n (calloc_thread_ready env);
   EvCalloc ThreadData n (calloc_thread_data env)].

Definition all_allocated (env : control_env) : bool :=
  calloc_task_thread env && calloc_data_ready env
  && calloc_thread_ready env && calloc_thread_data env.

(** The four arrays as [calloc] returns them. *)
Definition zero_arrays (n : Z) : arrays :=
  mkArrays (repeat 0 (Z.to_nat n)) (repeat 0 (Z.to_nat n))
           (repeat 0 (Z.to_nat n)) (repeat 0 (Z.to_nat n)).

(** Lines 203-212: grace period, sentinel, broadcast, join. *)
Definition shutdown_events (env : control_env) (n : Z) : trace :=
  [EvSleep 250; EvMemsetZero ThreadData] ++ broadcast env (Z.to_nat n) 0
  ++ [EvWaitForMultipleObjects TaskThread n true WAIT_TIME (join_result env)].

(** The arrays after the sentinel [memset], and after the [memset] of
    [task_thread] that follows a successful join. *)
Definition cleared_slots (a : arrays) : arrays :=
  mkArrays (a_task_thread a) (a_data_ready a) (a_thread_ready a)
           (repeat 0 (length (a_thread_data a))).

Definition joined_arrays (a : arrays) : arrays :=
  mkArrays (repeat 0 (length (a_task_thread a))) (a_data_ready a) (a_thread_ready a)
           (repeat 0 (length (a_thread_data a))).

(** The runs of [ControlThread], path by path. *)
Inductive control_run_detail (env : control_env) (g : globals) : trace * outcome -> Prop :=
| RunNotConfigured :
    thread_affinity g = None \/ num_threads g = 0 ->
    control_run_detail env g ([], ExitThread 1)
| RunAllocFailed affinity :
    thread_affinity g = Some affinity -> num_threads g <> 0 ->
    all_allocated env = false ->
    control_run_detail env g
      (prepend (alloc_events env (num_threads g) ++ [EvPrintf Stderr AllocError])
         (out (num_threads g)
              (calloc (calloc_task_thread env) (num_threads g))
              (calloc (calloc_data_ready env) (num_threads g))
              (calloc (calloc_thread_ready env) (num_threads g)) 1))
| RunCreateFailed affinity tc a1 :
    thread_affinity g = Some affinity -> num_threads g <> 0 ->
    all_allocated env = true ->
    create_workers env affinity (Z.to_nat (num_threads g)) 0 (zero_arrays (num_threads g))
    = (tc, a1, false) ->
    control_run_detail env g
      (alloc_events env (num_threads g) ++ [EvPrintf Stdout (CreatingThreads (num_threads g))]
       ++ tc ++ fst (out_arrays (num_threads g) a1 1), ExitThread 1)
| RunDispatchFailed affinity tc a1 td a2 :
    thread_affinity g = Some affinity -> num_threads g <> 0 ->
    all_allocated env = true ->
    create_workers env affinity (Z.to_nat (num_threads g)) 0 (zero_arrays (num_threads g))
    = (tc, a1, true) ->
    dispatch_loop env (num_threads g) (Z.to_nat MAX_ITERATIONS) 1 a1 = (td, a2, false) ->
    control_run_detail env g
      (alloc_events env (num_threads g) ++ [EvPrintf Stdout (CreatingThreads (num_threads g))]
       ++ tc ++ td ++ fst (out_arrays (num_threads g) a2 1), ExitThread 1)
| RunJoined affinity tc a1 td a2 :
    thread_affinity g = Some affinity -> num_threads g <> 0 ->
    all_allocated env = true ->
    create_workers env affinity (Z.to_nat (num_threads g)) 0 (zero_arrays (num_threads g))
    = (tc, a1, true) ->
    dispatch_loop env (num_threads g) (Z.to_nat MAX_ITERATIONS) 1 a1 = (td, a2, true) ->
    join_result env = WAIT_OBJECT_0 ->
    control_run_detail env g
      (alloc_events env (num_threads g) ++ [EvPrintf Stdout (CreatingThreads (num_threads g))]
       ++ tc ++ td ++ shutdown_events env (num_threads g) ++ [EvMemsetZero TaskThread]
       ++ fst (out_arrays (num_threads g) (joined_arrays a2) 0), ExitThread 0)
| RunNotJoined affinity tc a1 td a2 :
    thread_affinity g = Some affinity -> num_threads g <> 0 ->
    all_allocated env = true ->
    create_workers env affinity (Z.to_nat (num_threads g)) 0 (zero_arrays (num_threads g))
    = (tc, a1, true) ->
    dispatch_loop env (num_threads g) (Z.to_nat MAX_ITERATIONS) 1 a1 = (td, a2, true) ->
    join_result env <> WAIT_OBJECT_0 ->
    control_run_detail env g
      (alloc_events env (num_threads g) ++ [EvPrintf Stdout (CreatingThreads (num_threads g))]
       ++ tc ++ td ++ shutdown_events env (num_threads g)
       ++ [EvPrintf Stdout ThreadsNotFinalized]
       ++ fst (out_arrays (num_threads g) (cleared_slots a2) 1), ExitThread 1).

(** The diagnostics of a failed setup. *)
Definition setup_error (e : event) : bool :=
  match e with
  | EvPrintf _ AllocError | EvPrintf _ EventCreateFailed
  | EvPrintf _ (ThreadStartFailed _) => true
  | _ => false
  end.

(** A creation event of worker [j], [lo <= j < hi], whose handle is the
    entry [j] of its array in [a]. *)
Definition handle_recorded (a : arrays) (lo hi : Z) (e : event) : Prop :=
  match e with
  | EvCreateEvent DataReady j h => lo <= j < hi /\ load (a_data_ready a) j = h
  | EvCreateEvent ThreadReady j h => lo <= j < hi /\ load (a_thread_ready a) j = h
  | EvCreateEvent _ _ _ => False
  | EvCreateThread (Worker j) h => lo <= j < hi /\ load (a_task_thread a) j = h
  | EvCreateThread Control _ => False
  | _ => True
  end.

(** The entries below [i] of the three handle arrays are the same in [a]
    and [a']. *)
Definition same_below (i : Z) (a a' : arrays) : Prop :=
  forall j, 0 <= j < i ->
    load (a_task_thread a') j = load (a_task_thread a) j
    /\ load (a_data_ready a') j = load (a_data_ready a) j
    /\ load (a_thread_ready a') j = load (a_thread_ready a) j.

(** The events of a run that stops before any worker is created. *)
Definition alloc_only_event (e : event) : bool :=
  match e with
  | EvCalloc _ _ _ | EvFree _ | EvPrintf Stderr AllocError => true
  | _ => false
  end.

(** The events between thread creation and the code below [out]. *)
Definition middle_event (e : event) : bool := dispatch_event e || shutdown_event e.

(** The calls of the loop below [out]. *)
Definition release_event (e : event) : bool :=
  match e with
  | EvTerminateThread _ _ | EvCloseHandle DataReady _ _ | EvCloseHandle ThreadReady _ _ => true
  | _ => false
  end.

(** The four [free] calls that end [ControlThread]. *)
Definition free_events : trace :=
  [EvFree DataReady; EvFree ThreadReady; EvFree TaskThread; EvFree ThreadData].

(** The diagnostics [ControlThread] prints before a [goto out]. *)
Definition failure_diag (e : event) : bool :=
  match e with
  | EvPrintf _ AllocError | EvPrintf _ EventCreateFailed
  | EvPrintf _ (ThreadStartFailed _) | EvPrintf _ DispatchWaitFailed
  | EvPrintf _ (DispatchSignalFailed _) | EvPrintf _ ThreadsNotFinalized => true
  | _ => false
  end.

(** An event of [ControlThread] stays inside arrays of [n] entries: every
    index it uses lies in [0 .. n - 1], and every count it passes is [n]. *)
Definition index_in_bounds (n : Z) (e : event) : Prop :=
  match e with
  | EvCalloc _ count _ => count = n
  | EvWaitForMultipleObjects _ count _ _ _ => count = n
  | EvCreateEvent _ i _ | EvSetThreadAffinityMask i _ | EvStoreData i _
  | EvLoadData i _ | EvSetEvent _ i _ | EvTerminateThread i _
  | EvCloseHandle _ i _ | EvWaitForSingleObject _ i _ _ => 0 <= i < n
  | EvCreateThread (Worker i) _ | EvSetThreadPriority (Worker i) => 0 <= i < n
  | EvPrintf _ (ThreadStartFailed i) | EvPrintf _ (DispatchSignalFailed i) => 0 <= i < n
  | _ => True
  end.

(** The events of a dispatch round in which nothing fails, and the
    platform answers that make round [it] such a round. *)
Definition round_events (env : control_env) (n : Z) (it : Z) : trace :=
  [EvPollCancel false;
   EvWaitForMultipleObjects ThreadReady n false WAIT_TIME (wrap32 (wait_ready env it));
   EvStoreData (wrap32 (wait_ready env it)) it;
   EvSetEvent DataReady (wrap32 (wait_ready env it)) true].

Definition round_ok (env : control_env) (n : Z) (it : Z) : Prop :=
  cancel_at env it = false
  /\ wrap32 (wait_ready env it) < wrap32 (WAIT_OBJECT_0 + n)
  /\ signal_ok env it = true.

(** Every worker gets its two events and its thread. *)
Definition creation_succeeds (env : control_env) (n : Z) : Prop :=
  forall i, 0 <= i < n ->
    create_data_ready env i <> NULL /\ create_thread_ready env i <> NULL
    /\ create_thread env i <> NULL.

(** The diagnostics a worker prints before [return 1]. *)
Definition worker_failure (e : event) : bool :=
  match e with
  | EvPrintf _ (ReadyFailed _) | EvPrintf _ (DataWaitFailed _) => true
  | _ => false
  end.

(** The last four events of a worker that returns 0. *)
Definition sentinel_exit (i : Z) : trace :=
  [EvSetEvent ThreadReady i true;
   EvWaitForSingleObject DataReady i WAIT_TIME WAIT_OBJECT_0;
   EvLoadData i 0;
   EvPrintf Stdout (ThreadExiting i)].

(** The test of the [switch] of [ConsoleHandler]. *)
Definition is_ctrl_c (dwCtrlType : Z) : bool := dwCtrlType =? CTRL_C_EVENT.

(** Every event but the start of a thread. *)
Definition not_thread_start (e : event) : bool :=
  match e with
  | EvCreateThread _ _ => false
  | _ => true
  end.

(** Every event of a worker but its wait and its reads. *)
Definition not_wait_or_load (e : event) : bool :=
  match e with
  | EvWaitForSingleObject _ _ _ _ | EvLoadData _ _ => false
  | _ => true
  end.

(** * Properties *)

Example popcnt64_ex : popcnt64 0xF0F1 = 9 /\ usable_cores 0xF0F1 = 9.
Proof. split; reflexivity. Qed.

Example SetThreadAffinity_ex :
  SetThreadAffinity 1 (mkAffinityEnv (Some 0x1A) true) initial_globals
  = ([EvCalloc ThreadAffinity 2 true], true, mkGlobals 2 (Some [2; 8]) None None None).
Proof. reflexivity. Qed.

(** With [SPARE_THREADS] defined as [-1] the comparison is unsigned and the
    call fails, whatever the number of usable cores. *)
Example SetThreadAffinity_negative_spare_ex :
  SetThreadAffinity (-1) (mkAffinityEnv (Some 3) true) initial_globals
  = ([], false, mkGlobals 2 None None None None).
Proof. reflexivity. Qed.

(** A worker that gets the value 5, is cancelled in its second sleep test,
    and then gets the sentinel. *)
Example ParallelTaskThread_ex :
  ParallelTaskThread 4
    [mkWorkerTurn true 0 5 5 (fun j => 1 <=? j); mkWorkerTurn true 0 0 0 (fun _ => false)]
  = ([EvSetEvent ThreadReady 4 true; EvWaitForSingleObject DataReady 4 15000 0;
      EvLoadData 4 5; EvLoadData 4 5; EvPrintf Stdout (ReceivedData 4 5);
      EvPollCancel false; EvSleep 100; EvPollCancel true;
      EvSetEvent ThreadReady 4 true; EvWaitForSingleObject DataReady 4 15000 0;
      EvLoadData 4 0; EvPrintf Stdout (ThreadExiting 4)], Some 0).
Proof. reflexivity. Qed.

(** One worker, one round, then cancellation and a clean shutdown. *)
Example ControlThread_ex :
  ControlThread
    (mkControlEnv true true true true (fun _ => 11) (fun _ => 12) (fun _ => 13)
       (fun it => 2 <=? it) (fun _ => 0) (fun _ => true) (fun _ => true) WAIT_OBJECT_0)
    (mkGlobals 1 (Some [1]) None None None)
  = ([EvCalloc TaskThread 1 true; EvCalloc DataReady 1 true; EvCalloc ThreadReady 1 true;
      EvCalloc ThreadData 1 true; EvPrintf Stdout (CreatingThreads 1);
      EvCreateEvent DataReady 0 11; EvCreateEvent ThreadReady 0 12;
      EvCreateThread (Worker 0) 13; EvSetThreadPriority (Worker 0);
      EvSetThreadAffinityMask 0 1;
      EvPollCancel false; EvWaitForMultipleObjects ThreadReady 1 false 15000 0;
      EvStoreData 0 1; EvSetEvent DataReady 0 true;
      EvPollCancel true;
      EvSleep 250; EvMemsetZero ThreadData; EvSetEvent DataReady 0 true;
      EvWaitForMultipleObjects TaskThread 1 true 15000 0; EvMemsetZero TaskThread;
      EvCloseHandle DataReady 0 11; EvCloseHandle ThreadReady 0 12;
      EvFree DataReady; EvFree ThreadReady; EvFree TaskThread; EvFree ThreadData],
     ExitThread 0).
Proof. reflexivity. Qed.

(** ** [popcnt64] counts the set bits *)

Lemma land_fields w a m r r' :
  0 < w -> 0 <= a < 2 ^ w -> 0 <= m < 2 ^ w ->
  Z.land (a + 2 ^ w * r) (m + 2 ^ w * r') = Z.land a m + 2 ^ w * Z.land r r'.
Proof.
  intros w_pos Ha Hm.
  assert (Hlo : forall x y, 0 <= x < 2 ^ w -> (x + 2 ^ w * y) mod 2 ^ w = x).
  { intros x y Hx. rewrite (Z.mul_comm (2 ^ w) y), Z.mod_add by lia. apply Z.mod_small; lia. }
  assert (Hhi : forall x y, 0 <= x < 2 ^ w -> (x + 2 ^ w * y) / 2 ^ w = y).
  { intros x y Hx. rewrite (Z.mul_comm (2 ^ w) y), Z.div_add by lia.
    rewrite (Z.div_small x) by lia. lia. }
  assert (Hland : 0 <= Z.land a m < 2 ^ w).
  { assert (E : Z.land a m = Z.land a m mod 2 ^ w).
    { rewrite <- Z.land_ones, <- Z.land_assoc, (Z.land_ones m) by lia.
      now rewrite (Z.mod_small m) by lia. }
    rewrite E. apply Z.mod_pos_bound. lia. }
  apply Z.bits_inj'. intros k Hk.
  rewrite Z.land_spec.
  destruct (Z.lt_ge_cases k w) as [Hkw|Hkw].
  - rewrite <- (Z.mod_pow2_bits_low (a + _) w k), <- (Z.mod_pow2_bits_low (m + _) w k),
      <- (Z.mod_pow2_bits_low (Z.land a m + _) w k) by lia.
    rewrite !Hlo by lia. now rewrite Z.land_spec.
  - replace k with (k - w + w) by lia.
    rewrite <- !Z.div_pow2_bits by lia.
    rewrite !Hhi by lia. now rewrite Z.land_spec.
Qed.


Section Pack.
Variable w : Z.
Hypothesis w_pos : 0 < w.

Lemma pack_nonneg l : Forall (fun x => 0 <= x) l -> 0 <= pack w l.
Proof.
  induction 1 as [|x r Hx Hr IH]; simpl; [lia|].
  assert (0 < 2 ^ w) by (apply Z.pow_pos_nonneg; lia). nia.
Qed.

Lemma pack_lt l :
  Forall (field_lt w) l -> 0 <= pack w l < 2 ^ (w * Z.of_nat (length l)).
Proof.
  induction 1 as [|x r Hx Hr IH].
  - simpl. rewrite Z.mul_0_r. simpl. lia.
  - unfold field_lt in Hx. cbn [pack length]. rewrite Nat2Z.inj_succ, Z.mul_succ_r, Z.pow_add_r by lia.
    assert (0 < 2 ^ w) by (apply Z.pow_pos_nonneg; lia). nia.
Qed.

Lemma pow_double : 2 ^ (2 * w) = 2 ^ w * 2 ^ w.
Proof. replace (2 * w) with (w + w) by lia. apply Z.pow_add_r; lia. Qed.

Lemma land_evens n : forall l,
  Forall (field_lt w) l -> (length l <= 2 * n)%nat ->
  Z.land (pack w l) (field_mask w n) = pack (2 * w) (evens l).
Proof.
  assert (Hp : 0 < 2 ^ w) by (apply Z.pow_pos_nonneg; lia).
  assert (Hlow : forall x y, field_lt w x -> Z.land (x + 2 ^ w * y) (2 ^ w - 1) = x).
  { intros x y Hx. rewrite Z.sub_1_r, <- Z.ones_equiv, Z.land_ones by lia.
    rewrite (Z.mul_comm (2 ^ w) y), Z.mod_add by lia. apply Z.mod_small, Hx. }
  unfold field_mask.
  induction n as [|n IH]; intros l Hl Hlen.
  - destruct l; [reflexivity | simpl in Hlen; lia].
  - destruct l as [|x [|y r]].
    + reflexivity.
    + inversion_clear Hl as [|? ? Hx _].
      cbn [pack evens repeat].
      replace (x + 2 ^ w * 0) with ((x + 2 ^ w * 0) + 2 ^ (2 * w) * 0) by lia.
      rewrite land_fields; try (rewrite ?pow_double; unfold field_lt in Hx; nia); try lia.
      rewrite Hlow, Z.land_0_l by assumption. lia.
    + inversion_clear Hl as [|? ? Hx Hl']. inversion_clear Hl' as [|? ? Hy Hr].
      cbn [pack evens repeat].
      replace (x + 2 ^ w * (y + 2 ^ w * pack w r))
        with ((x + 2 ^ w * y) + 2 ^ (2 * w) * pack w r) by (rewrite pow_double; ring).
      rewrite land_fields; try (rewrite ?pow_double; unfold field_lt in Hx, Hy; nia); try lia.
      rewrite Hlow, IH by (assumption || (simpl in Hlen; lia)). reflexivity.
Qed.

Lemma shiftr_pack l : Forall (field_lt w) l -> Z.shiftr (pack w l) w = pack w (tl l).
Proof.
  intros Hl. rewrite Z.shiftr_div_pow2 by lia.
  destruct Hl as [|x r Hx Hr]; [reflexivity|]. unfold field_lt in Hx. cbn [pack tl].
  rewrite (Z.mul_comm (2 ^ w)), Z.div_add by lia.
  rewrite Z.div_small by exact Hx. lia.
Qed.

Lemma pack_evens_tl W l :
  pack W (evens l) + pack W (evens (tl l)) = pack W (pairs l).
Proof.
  revert l. fix IH 1. intros [|x [|y r]]; try (simpl; lia).
  specialize (IH r). cbn [evens tl pairs pack] in *.
  destruct r as [|z r']; cbn [tl evens pack] in *; lia.
Qed.

(** One line of [popcnt64]: adjacent fields are added pairwise. *)
Lemma swar_step n l :
  Forall (field_lt w) l -> (length l <= 2 * n)%nat ->
  Z.land (pack w l) (field_mask w n) + Z.land (Z.shiftr (pack w l) w) (field_mask w n)
  = pack (2 * w) (pairs l).
Proof.
  intros Hl Hlen. rewrite shiftr_pack, !land_evens; auto.
  - apply pack_evens_tl.
  - destruct Hl; [constructor | assumption].
  - destruct l; simpl in *; lia.
Qed.
End Pack.

Lemma flat_map_filter (f : Z -> bool) l :
  flat_map (fun k => if f k then [k] else []) l = filter f l.
Proof.
  induction l as [|x l IH]; simpl; [reflexivity|]. rewrite IH. now destruct (f x).
Qed.

Lemma set_bits_eq a : set_bits a = filter (Z.testbit a) bit_positions.
Proof. apply flat_map_filter. Qed.

Lemma pairs_ind (P : list Z -> Prop) :
  P [] -> (forall x, P [x]) -> (forall x y r, P r -> P (x :: y :: r)) -> forall l, P l.
Proof.
  intros H0 H1 H2. fix IH 1. intros [|x [|y r]]; [exact H0 | exact (H1 x) | exact (H2 x y r (IH r))].
Qed.

Lemma pairs_length l n : (length l <= 2 * n)%nat -> (length (pairs l) <= n)%nat.
Proof.
  revert n. induction l as [| x | x y r IH] using pairs_ind; intros n H; simpl in *; try lia.
  destruct n as [|n]; [lia|]. specialize (IH n). lia.
Qed.

Lemma pairs_below b l : fields_below b l -> fields_below (2 * b) (pairs l).
Proof.
  unfold fields_below.
  induction l as [| x | x y r IH] using pairs_ind; intros H; cbn [pairs].
  - constructor.
  - inversion_clear H as [|? ? Hx _]. cbv beta in Hx. constructor; [lia | constructor].
  - inversion_clear H as [|? ? Hx H']. inversion_clear H' as [|? ? Hy Hr].
    cbv beta in Hx, Hy. constructor; [lia | auto].
Qed.

Lemma pairs_zsum l : zsum (pairs l) = zsum l.
Proof.
  induction l as [| x | x y r IH] using pairs_ind; simpl in *; lia.
Qed.

Lemma fields_below_lt b w l :
  b < 2 ^ w -> fields_below b l -> Forall (field_lt w) l.
Proof.
  intros Hb H. eapply Forall_impl; [|exact H]. unfold field_lt. simpl. intros; lia.
Qed.

Lemma bits_of_below a from n : fields_below 1 (bits_of a from n).
Proof.
  unfold fields_below, bits_of. apply Forall_forall. intros x Hx.
  apply in_map_iff in Hx as (i & <- & _). destruct (Z.testbit a (Z.of_nat i)); simpl; lia.
Qed.

Lemma pack_bits_of a : 0 <= a -> forall n from,
  pack 1 (bits_of a from n) = (a / 2 ^ Z.of_nat from) mod 2 ^ Z.of_nat n.
Proof.
  intros Ha. unfold bits_of.
  induction n as [|n IH]; intros from.
  - simpl. now rewrite Z.mod_1_r.
  - cbn [seq map pack]. rewrite IH.
    assert (Hf : 0 < 2 ^ Z.of_nat from) by (apply Z.pow_pos_nonneg; lia).
    assert (E1 : a / 2 ^ Z.of_nat (S from) = a / 2 ^ Z.of_nat from / 2).
    { rewrite Nat2Z.inj_succ, Z.pow_succ_r, Z.div_div by lia. f_equal. lia. }
    assert (E2 : 2 ^ Z.of_nat (S n) = 2 * 2 ^ Z.of_nat n).
    { rewrite Nat2Z.inj_succ, Z.pow_succ_r by lia. reflexivity. }
    rewrite E1, E2, Z.rem_mul_r, Z.testbit_spec' by lia.
    change (2 ^ 1) with 2. reflexivity.
Qed.

Lemma zsum_bits_of a from n :
  zsum (bits_of a from n)
  = Z.of_nat (length (filter (Z.testbit a) (map Z.of_nat (seq from n)))).
Proof.
  unfold bits_of. generalize (seq from n) as l.
  induction l as [|i l IH]; [reflexivity|].
  cbn [map zsum fold_right filter]. fold (zsum (map (fun i => Z.b2z (Z.testbit a (Z.of_nat i))) l)).
  rewrite IH. destruct (Z.testbit a (Z.of_nat i)); cbn [Z.b2z length]; lia.
Qed.

Lemma add_fields_pack w b n l :
  0 < w -> b < 2 ^ w -> 2 * b < 2 ^ (2 * w) -> 2 * w * Z.of_nat n <= 64 ->
  fields_below b l -> (length l <= 2 * n)%nat ->
  add_fields (pack w l) w (field_mask w n) = pack (2 * w) (pairs l).
Proof.
  intros Hw Hb Hb2 Hn Hl Hlen. unfold add_fields.
  rewrite swar_step by eauto using fields_below_lt.
  apply Z.mod_small.
  pose proof (pack_lt (2 * w) ltac:(lia) (pairs l)
                (fields_below_lt _ _ _ Hb2 (pairs_below _ _ Hl))) as Hlt.
  pose proof (pairs_length _ _ Hlen) as Hlen'.
  split; [lia|]. eapply Z.lt_le_trans; [apply Hlt|].
  apply Z.pow_le_mono_r; nia.
Qed.

Lemma popcnt64_pack l :
  fields_below 1 l -> (length l <= 64)%nat -> popcnt64 (pack 1 l) = zsum l.
Proof.
  intros B0 L0. change 64%nat with (2 * 32)%nat in L0.
  pose proof (pairs_below _ _ B0) as B1. pose proof (pairs_length _ 32 L0) as L1.
  pose proof (pairs_below _ _ B1) as B2. pose proof (pairs_length _ 16 L1) as L2.
  pose proof (pairs_below _ _ B2) as B3. pose proof (pairs_length _ 8 L2) as L3.
  pose proof (pairs_below _ _ B3) as B4. pose proof (pairs_length _ 4 L3) as L4.
  pose proof (pairs_below _ _ B4) as B5. pose proof (pairs_length _ 2 L4) as L5.
  pose proof (pairs_below _ _ B5) as B6. pose proof (pairs_length _ 1 L5) as L6.
  unfold popcnt64. cbv zeta.
  change 0x5555555555555555 with (field_mask 1 32).
  rewrite (add_fields_pack 1 1 32) by (assumption || lia).
  change 0x3333333333333333 with (field_mask 2 16). change (2 * 1) with 2.
  rewrite (add_fields_pack 2 (2 * 1) 16) by (assumption || lia).
  change 0x0f0f0f0f0f0f0f0f with (field_mask 4 8). change (2 * 2) with 4.
  rewrite (add_fields_pack 4 (2 * (2 * 1)) 8) by (assumption || lia).
  change 0x00ff00ff00ff00ff with (field_mask 8 4). change (2 * 4) with 8.
  rewrite (add_fields_pack 8 (2 * (2 * (2 * 1))) 4) by (assumption || lia).
  change 0x0000ffff0000ffff with (field_mask 16 2). change (2 * 8) with 16.
  rewrite (add_fields_pack 16 (2 * (2 * (2 * (2 * 1)))) 2) by (assumption || lia).
  change 0x00000000ffffffff with (field_mask 32 1). change (2 * 16) with 32.
  rewrite (add_fields_pack 32 (2 * (2 * (2 * (2 * (2 * 1))))) 1) by (assumption || lia).
  assert (E : zsum l = zsum (pairs (pairs (pairs (pairs (pairs (pairs l)))))))
    by now rewrite !pairs_zsum.
  rewrite E.
  destruct (pairs (pairs (pairs (pairs (pairs (pairs l)))))) as [|x [|y r]];
    [reflexivity | | simpl in L6; lia].
  inversion_clear B6 as [|? ? Hx _]. cbv beta in Hx.
  cbn [pack zsum fold_right]. unfold wrap8. rewrite Z.mod_small; lia.
Qed.

(** [popcnt64] returns the number of set bits of a 64-bit word. *)
Lemma popcnt64_usable_cores a : 0 <= a < 2 ^ 64 -> popcnt64 a = usable_cores a.
Proof.
  intros Ha.
  assert (E0 : a = pack 1 (bits_of a 0 64)).
  { rewrite pack_bits_of by lia. simpl Z.of_nat.
    rewrite Z.pow_0_r, Z.div_1_r, Z.mod_small; lia. }
  rewrite E0 at 1. rewrite popcnt64_pack.
  - unfold usable_cores. rewrite set_bits_eq. apply zsum_bits_of.
  - apply bits_of_below.
  - unfold bits_of. rewrite length_map, length_seq. lia.
Qed.

(** ** The lowest set bit *)


Lemma positions_sorted from n : StronglySorted Z.lt (map Z.of_nat (seq from n)).
Proof.
  revert from. induction n as [|n IH]; intros from; cbn [seq map]; constructor; auto.
  apply Forall_forall. intros x Hx.
  apply in_map_iff in Hx as (y & <- & Hy). apply in_seq in Hy. lia.
Qed.

Lemma in_bit_positions k : In k bit_positions <-> 0 <= k < 64.
Proof.
  unfold bit_positions. rewrite in_map_iff. split.
  - intros (y & <- & Hy). apply in_seq in Hy. lia.
  - intros Hk. exists (Z.to_nat k). split; [lia | apply in_seq; lia].
Qed.

Lemma in_set_bits a k : In k (set_bits a) <-> 0 <= k < 64 /\ Z.testbit a k = true.
Proof.
  rewrite set_bits_eq, filter_In, in_bit_positions. tauto.
Qed.

Lemma filter_sorted (f : Z -> bool) l :
  StronglySorted Z.lt l -> StronglySorted Z.lt (filter f l).
Proof.
  induction 1 as [|x l Hs IH Hx]; simpl; [constructor|].
  destruct (f x); auto. constructor; auto.
  apply Forall_forall. intros y Hy. apply filter_In in Hy as [Hy _].
  rewrite Forall_forall in Hx. auto.
Qed.

Lemma bit_positions_sorted : StronglySorted Z.lt bit_positions.
Proof. apply positions_sorted. Qed.

Lemma set_bits_sorted a : StronglySorted Z.lt (set_bits a).
Proof. rewrite set_bits_eq. apply filter_sorted, bit_positions_sorted. Qed.

Lemma sorted_NoDup l : StronglySorted Z.lt l -> NoDup l.
Proof.
  induction 1 as [|x l Hs IH Hx]; constructor; auto.
  intros Hin. rewrite Forall_forall in Hx. specialize (Hx _ Hin). lia.
Qed.

(** The head of a filtered sorted list is the first element that passes. *)
Lemma filter_head (f : Z -> bool) l k rest :
  StronglySorted Z.lt l -> filter f l = k :: rest ->
  In k l /\ f k = true /\ forall j, In j l -> j < k -> f j = false.
Proof.
  induction 1 as [|x l Hs IH Hx]; simpl; [discriminate|].
  destruct (f x) eqn:Fx; intros E.
  - injection E as -> _. repeat split; auto.
    intros j [->|Hj] Hlt; [lia|]. rewrite Forall_forall in Hx. specialize (Hx _ Hj). lia.
  - destruct (IH E) as (Hin & Fk & Hlow). repeat split; auto.
    intros j [<-|Hj] Hlt; auto.
Qed.

Lemma filter_drop_head (f g : Z -> bool) l k rest :
  StronglySorted Z.lt l -> filter f l = k :: rest ->
  (forall j, g j = xorb (f j) (k =? j)) ->
  filter g l = rest.
Proof.
  intros Hs E Hg. revert E.
  induction Hs as [|x l Hs IH Hx]; simpl; [discriminate|].
  rewrite Forall_forall in Hx.
  destruct (f x) eqn:Fx; intros E.
  - injection E as -> <-. rewrite Hg, Fx, Z.eqb_refl. simpl.
    apply filter_ext_in. intros j Hj. rewrite Hg.
    specialize (Hx _ Hj). replace (k =? j) with false by lia.
    now rewrite xorb_false_r.
  - assert (Hk : In k l).
    { assert (In k (filter f l)) as Hk by (rewrite E; now left).
      now apply filter_In in Hk. }
    specialize (Hx _ Hk). rewrite Hg, Fx. replace (k =? x) with false by lia.
    simpl. auto.
Qed.

Lemma set_bits_head a k rest :
  set_bits a = k :: rest ->
  0 <= k < 64 /\ Z.testbit a k = true /\ forall j, 0 <= j < k -> Z.testbit a j = false.
Proof.
  intros E. rewrite set_bits_eq in E.
  destruct (filter_head _ _ _ _ bit_positions_sorted E) as (Hin & Hk & Hlow).
  apply in_bit_positions in Hin.
  repeat split; try lia; auto.
  intros j Hj. apply Hlow; [apply in_bit_positions|]; lia.
Qed.

(** [affinity & (-1LL * affinity)] is the lowest set bit. *)
Lemma lowest_bit_pow2 a k :
  0 < a < 2 ^ 64 -> 0 <= k < 64 -> Z.testbit a k = true ->
  (forall j, 0 <= j < k -> Z.testbit a j = false) ->
  lowest_bit a = 2 ^ k.
Proof.
  intros Ha Hk Hbit Hlow.
  assert (Hp : 0 < 2 ^ k) by (apply Z.pow_pos_nonneg; lia).
  assert (Hmod : a mod 2 ^ k = 0).
  { apply Z.bits_inj'. intros j Hj. rewrite Z.bits_0.
    destruct (Z.lt_ge_cases j k).
    - rewrite Z.mod_pow2_bits_low by lia. apply Hlow. lia.
    - apply Z.mod_pow2_bits_high. lia. }
  assert (Hodd : Z.odd (a / 2 ^ k) = true).
  { rewrite <- Z.bit0_odd, Z.div_pow2_bits by lia. exact Hbit. }
  apply Z.odd_spec in Hodd as [q Hq].
  assert (Ea : a = 2 ^ k * (2 * q + 1)).
  { rewrite <- Hq. apply Z.div_exact; lia. }
  assert (Hdiv : (a - 1) / 2 ^ k = 2 * q).
  { replace (a - 1) with ((2 ^ k - 1) + (2 * q) * 2 ^ k) by lia.
    rewrite Z.div_add, Z.div_small by lia. lia. }
  assert (Hpred : forall i, 0 <= i -> Z.testbit (a - 1) (i + k) = Z.testbit (2 * q) i).
  { intros i Hi. rewrite <- Z.div_pow2_bits, Hdiv by lia. reflexivity. }
  assert (Hself : forall i, 0 <= i -> Z.testbit a (i + k) = Z.testbit (2 * q + 1) i).
  { intros i Hi. rewrite <- Z.div_pow2_bits, Hq by lia. reflexivity. }
  assert (Hland : Z.land a (- a) = 2 ^ k).
  { apply Z.bits_inj'. intros j Hj.
    rewrite Z.land_spec, Z.pow2_bits_eqb by lia.
    replace (- a) with (Z.lnot (a - 1)) by (unfold Z.lnot; lia).
    rewrite Z.lnot_spec by lia.
    destruct (Z.lt_total j k) as [Hjk | [-> | Hjk]].
    - rewrite Hlow by lia. replace (k =? j) with false by lia. reflexivity.
    - rewrite Hbit, Z.eqb_refl. specialize (Hpred 0 ltac:(lia)).
      rewrite Z.add_0_l in Hpred. now rewrite Hpred, Z.testbit_even_0.
    - replace (k =? j) with false by lia.
      replace j with (Z.succ (j - k - 1) + k) by lia.
      rewrite Hpred, Hself by lia.
      rewrite Z.testbit_even_succ, Z.testbit_odd_succ by lia.
      apply andb_negb_r. }
  unfold lowest_bit, wrap64. replace (-1 * a) with (- a) by lia.
  rewrite <- Z.land_ones, Z.land_assoc, Hland, Z.land_ones by lia.
  apply Z.mod_small. split; [lia|]. apply Z.pow_lt_mono_r; lia.
Qed.

Lemma word64_bits x :
  0 <= x -> (forall j, 64 <= j -> Z.testbit x j = false) -> 0 <= x < 2 ^ 64.
Proof.
  intros Hx Hhigh.
  assert (E : x mod 2 ^ 64 = x).
  { apply Z.bits_inj'. intros j Hj. destruct (Z.lt_ge_cases j 64).
    - apply Z.mod_pow2_bits_low. lia.
    - rewrite Z.mod_pow2_bits_high, Hhigh by lia. reflexivity. }
  rewrite <- E. apply Z.mod_pos_bound. lia.
Qed.

Lemma word64_high x j : 0 <= x < 2 ^ 64 -> 64 <= j -> Z.testbit x j = false.
Proof.
  intros Hx Hj. rewrite <- (Z.mod_small x (2 ^ 64)) by lia.
  apply Z.mod_pow2_bits_high. lia.
Qed.

(** Clearing the lowest set bit leaves the other set bits. *)
Lemma clear_lowest_bit a k rest :
  0 <= a < 2 ^ 64 -> set_bits a = k :: rest ->
  lowest_bit a = 2 ^ k /\
  0 <= Z.lxor a (lowest_bit a) < 2 ^ 64 /\
  set_bits (Z.lxor a (lowest_bit a)) = rest.
Proof.
  intros Ha E. destruct (set_bits_head _ _ _ E) as (Hk & Hbit & Hlow).
  assert (a <> 0) by (intros ->; now rewrite Z.bits_0 in Hbit).
  assert (Hlb : lowest_bit a = 2 ^ k) by (apply lowest_bit_pow2; auto; lia).
  rewrite Hlb. split; [reflexivity|]. split.
  - apply word64_bits.
    + apply Z.lxor_nonneg. split; intros; [apply Z.pow_nonneg|]; lia.
    + intros j Hj. rewrite Z.lxor_spec, Z.pow2_bits_eqb, (word64_high a) by lia.
      replace (k =? j) with false by lia. reflexivity.
  - rewrite set_bits_eq in *.
    eapply filter_drop_head; [apply bit_positions_sorted | exact E |].
    intros j. rewrite Z.lxor_spec. destruct (Z.neg_nonneg_cases j) as [Hj|Hj].
    + rewrite !Z.testbit_neg_r by lia. replace (k =? j) with false by lia. reflexivity.
    + now rewrite Z.pow2_bits_eqb by lia.
Qed.

(** ** The affinity loop *)

Lemma load_middle (done : list Z) x r :
  load (done ++ x :: r) (Z.of_nat (length done)) = x.
Proof. unfold load. rewrite Nat2Z.id. apply nth_middle. Qed.

Lemma store_middle (done : list Z) x r v :
  store (done ++ x :: r) (Z.of_nat (length done)) v = done ++ v :: r.
Proof.
  unfold store. rewrite Nat2Z.id.
  induction done as [|d done IH]; simpl; [reflexivity | now rewrite IH].
Qed.

Lemma spread_affinity_masks todo : forall affinity done,
  0 <= affinity < 2 ^ 64 -> (todo <= length (set_bits affinity))%nat ->
  spread_affinity todo (Z.of_nat (length done)) affinity (done ++ repeat 0 todo)
  = done ++ map (Z.pow 2) (firstn todo (set_bits affinity)).
Proof.
  induction todo as [|todo IH]; intros affinity done Ha Hlen.
  - reflexivity.
  - destruct (set_bits affinity) as [|k rest] eqn:E; [simpl in Hlen; lia|].
    destruct (clear_lowest_bit _ _ _ Ha E) as (Hlb & Hrange & Hrest).
    cbn [spread_affinity repeat firstn map].
    rewrite load_middle, store_middle, Z.lor_0_l.
    replace (Z.of_nat (length done) + 1) with (Z.of_nat (length (done ++ [lowest_bit affinity])))
      by (rewrite length_app; simpl; lia).
    replace (done ++ lowest_bit affinity :: repeat 0 todo)
      with ((done ++ [lowest_bit affinity]) ++ repeat 0 todo)
      by (now rewrite <- app_assoc).
    rewrite IH by (rewrite ?Hrest; simpl in Hlen; lia || assumption).
    rewrite Hrest, Hlb, <- app_assoc. reflexivity.
Qed.

Lemma usable_cores_range a : 0 <= usable_cores a <= 64.
Proof.
  unfold usable_cores. rewrite set_bits_eq.
  pose proof (filter_length_le (Z.testbit a) bit_positions) as H.
  change (length bit_positions) with 64%nat in H. lia.
Qed.

Lemma nth_set_bits a i :
  (i < length (set_bits a))%nat ->
  0 <= nth i (set_bits a) 0 < 64 /\ Z.testbit a (nth i (set_bits a) 0) = true.
Proof. intros H. exact (proj1 (in_set_bits a _) (nth_In _ _ H)). Qed.

Lemma sorted_nth_lt l : StronglySorted Z.lt l ->
  forall i j, (i < j < length l)%nat -> nth i l 0 < nth j l 0.
Proof.
  induction 1 as [|x l Hs IH Hx]; intros i j Hij; [simpl in Hij; lia|].
  destruct j as [|j]; [lia|]. destruct i as [|i]; simpl in *.
  - rewrite Forall_forall in Hx. apply Hx, nth_In. lia.
  - apply IH. lia.
Qed.

Lemma pow2_disjoint p q : 0 <= p -> 0 <= q -> p <> q -> Z.land (2 ^ p) (2 ^ q) = 0.
Proof.
  intros Hp Hq Hne. apply Z.bits_inj'. intros j Hj.
  rewrite Z.land_spec, !Z.pow2_bits_eqb, Z.bits_0 by lia.
  destruct (Z.eqb_spec p j), (Z.eqb_spec q j); simpl; auto. lia.
Qed.

Lemma firstn_incl (n : nat) (l : list Z) x : In x (firstn n l) -> In x l.
Proof.
  intros H. rewrite <- (firstn_skipn n l). apply in_or_app. now left.
Qed.

(** ** The planner *)

Lemma dword_operand_nonneg v : 0 <= v -> dword_operand v = v.
Proof.
  intros Hv. unfold dword_operand.
  replace (v <? 0) with false by lia. now rewrite andb_false_r.
Qed.

Lemma dword_operand_negative_int v :
  - 2 ^ 31 <= v < 0 -> dword_operand v = v + 2 ^ 32.
Proof.
  intros Hv. unfold dword_operand, wrap32.
  replace (- 2 ^ 31 <=? v) with true by lia. replace (v <? 0) with true by lia.
  cbn [andb]. replace v with (v + 2 ^ 32 + (-1) * 2 ^ 32) at 1 by lia.
  rewrite Z.mod_add by lia. apply Z.mod_small. lia.
Qed.

(** C1. When the process affinity word has more set bits than there are
    spare threads and memory is available, [SetThreadAffinity] succeeds,
    sets the worker count to the difference and stores one mask per worker:
    mask [i] is the single bit at the [i]-th lowest set position of the
    affinity word, so the masks are bits of that word and pairwise
    disjoint. *)
Theorem SetThreadAffinity_one_core_per_worker
    (spare a : Z) (env : affinity_env) (g : globals) :
  0 <= spare -> process_affinity env = Some a -> 0 <= a < 2 ^ 64 ->
  calloc_affinity env = true -> spare < usable_cores a ->
  exists masks,
    SetThreadAffinity spare env g
    = ([EvCalloc ThreadAffinity (usable_cores a - spare) true], true,
       mkGlobals (usable_cores a - spare) (Some masks)
                 (data_ready g) (thread_ready g) (thread_data g))
    /\ Z.of_nat (length masks) = usable_cores a - spare
    /\ (forall i, (i < length masks)%nat -> nth i masks 0 = 2 ^ nth i (set_bits a) 0)
    /\ StronglySorted Z.lt (set_bits a)
    /\ (forall m, In m masks -> single_bit_of a m)
    /\ pairwise_disjoint masks.
Proof.
  intros Hs Hproc Ha Hcalloc Hc.
  pose proof (usable_cores_range a) as Hr.
  set (n := Z.to_nat (usable_cores a - spare)).
  assert (Hn : (n <= length (set_bits a))%nat) by (unfold usable_cores in *; lia).
  exists (map (Z.pow 2) (firstn n (set_bits a))).
  assert (Hlen : length (map (Z.pow 2) (firstn n (set_bits a))) = n).
  { rewrite length_map, length_firstn. lia. }
  assert (Hnth : forall i, (i < n)%nat ->
            nth i (map (Z.pow 2) (firstn n (set_bits a))) 0 = 2 ^ nth i (set_bits a) 0).
  { intros i Hi.
    rewrite (nth_indep _ 0 (2 ^ 0)) by lia.
    rewrite (map_nth (Z.pow 2)), nth_firstn.
    apply Nat.ltb_lt in Hi. now rewrite Hi. }
  rewrite Hlen. repeat split.
  - unfold SetThreadAffinity. rewrite Hproc, Hcalloc, popcnt64_usable_cores by assumption.
    rewrite dword_operand_nonneg by exact Hs.
    replace (usable_cores a <=? spare) with false by lia.
    unfold wrap32. rewrite Z.mod_small by lia. cbn [negb]. fold n.
    pose proof (spread_affinity_masks n a [] Ha Hn) as E.
    cbn [length app Z.of_nat] in E. rewrite E. reflexivity.
  - unfold n. lia.
  - exact Hnth.
  - apply set_bits_sorted.
  - intros m Hm. apply in_map_iff in Hm as (k & <- & Hk).
    apply firstn_incl, in_set_bits in Hk. exists k. tauto.
  - intros i j Hij. rewrite Hlen in Hij. rewrite !Hnth by lia.
    pose proof (sorted_nth_lt _ (set_bits_sorted a) i j ltac:(lia)).
    pose proof (nth_set_bits a i ltac:(lia)). pose proof (nth_set_bits a j ltac:(lia)).
    apply pow2_disjoint; lia.
Qed.

Lemma SetThreadAffinity_one_core_per_worker_witness :
  exists masks,
    SetThreadAffinity 1 (mkAffinityEnv (Some 0x1A) true) initial_globals
    = ([EvCalloc ThreadAffinity (usable_cores 0x1A - 1) true], true,
       mkGlobals (usable_cores 0x1A - 1) (Some masks) None None None)
    /\ Z.of_nat (length masks) = usable_cores 0x1A - 1
    /\ (forall i, (i < length masks)%nat -> nth i masks 0 = 2 ^ nth i (set_bits 0x1A) 0)
    /\ StronglySorted Z.lt (set_bits 0x1A)
    /\ (forall m, In m masks -> single_bit_of 0x1A m)
    /\ pairwise_disjoint masks.
Proof.
  apply (SetThreadAffinity_one_core_per_worker 1 0x1A (mkAffinityEnv (Some 0x1A) true)
           initial_globals).
  - lia.
  - reflexivity.
  - lia.
  - reflexivity.
  - vm_compute. reflexivity.
Defined.

(** C4, the claim fails: with one spare thread and one usable core the call
    fails, but the worker count is left at 1. *)
Lemma SetThreadAffinity_partial_state_counterexample :
  usable_cores 1 <= 1 /\
  ~ (let '(_, ok, g') := SetThreadAffinity 1 (mkAffinityEnv (Some 1) true) initial_globals in
     ok = false /\ num_threads g' = 0 /\ thread_affinity g' = None).
Proof.
  split; [vm_compute; discriminate|].
  vm_compute. intros (_ & H & _). discriminate H.
Qed.

(** C4, amended. When the affinity word has no more set bits than there
    are spare threads, [SetThreadAffinity] fails without any event: nothing
    is allocated or printed, the arrays are untouched, and the worker count
    holds the number of usable cores. [ControlThread] does not start on that
    state when no mask array was there before. *)
Theorem SetThreadAffinity_insufficient_cores
    (spare a : Z) (env : affinity_env) (g : globals) :
  process_affinity env = Some a -> 0 <= a < 2 ^ 64 -> usable_cores a <= spare ->
  SetThreadAffinity spare env g
  = ([], false,
     mkGlobals (usable_cores a) (thread_affinity g)
               (data_ready g) (thread_ready g) (thread_data g))
  /\ (thread_affinity g = None ->
      forall cenv, ControlThread cenv (snd (SetThreadAffinity spare env g)) = ([], ExitThread 1)).
Proof.
  intros Hproc Ha Hc.
  assert (E : SetThreadAffinity spare env g
              = ([], false,
                 mkGlobals (usable_cores a) (thread_affinity g)
                           (data_ready g) (thread_ready g) (thread_data g))).
  { unfold SetThreadAffinity. rewrite Hproc, popcnt64_usable_cores by assumption.
    pose proof (usable_cores_range a) as Hr.
    rewrite dword_operand_nonneg by lia.
    apply Z.leb_le in Hc. now rewrite Hc. }
  split; [exact E|].
  intros Hnone cenv. rewrite E. unfold ControlThread. cbn [snd thread_affinity].
  now rewrite Hnone.
Qed.

Lemma SetThreadAffinity_insufficient_cores_witness :
  SetThreadAffinity 2 (mkAffinityEnv (Some 3) true) initial_globals
  = ([], false, mkGlobals (usable_cores 3) None None None None)
  /\ (thread_affinity initial_globals = None ->
      forall cenv,
        ControlThread cenv (snd (SetThreadAffinity 2 (mkAffinityEnv (Some 3) true)
                                                   initial_globals))
        = ([], ExitThread 1)).
Proof.
  apply (SetThreadAffinity_insufficient_cores 2 3 (mkAffinityEnv (Some 3) true)
           initial_globals).
  - reflexivity.
  - lia.
  - vm_compute. discriminate.
Defined.

(** ** Occurrences in a trace *)

Section Occurrences.
Variable P : event -> bool.

(** An event outside the class [P] does not occur in a trace of class
    [P]. *)
Lemma class_excludes (t pre post : trace) (e : event) :
  Forall (fun x => P x = true) t -> P e = false -> t <> pre ++ e :: post.
Proof.
  intros Ht He ->. apply Forall_elt in Ht. congruence.
Qed.

(** Such an event occurs in [t1 ++ t2] only inside [t2]. *)
Lemma occurs_after (t1 t2 pre post : trace) (e : event) :
  Forall (fun x => P x = true) t1 -> P e = false ->
  t1 ++ t2 = pre ++ e :: post ->
  exists pre', pre = t1 ++ pre' /\ t2 = pre' ++ e :: post.
Proof.
  intros Ht He. revert pre.
  induction Ht as [|x t1 Hx Ht IH]; intros pre E; simpl in E.
  - now exists pre.
  - destruct pre as [|y pre]; simpl in E; injection E as -> E.
    + congruence.
    + destruct (IH _ E) as (pre' & -> & ->). now exists pre'.
Qed.

(** And in [t1 ++ t2] with [t2] of class [P], only inside [t1]. *)
Lemma occurs_before (t1 t2 pre post : trace) (e : event) :
  Forall (fun x => P x = true) t2 -> P e = false ->
  t1 ++ t2 = pre ++ e :: post ->
  exists post', post = post' ++ t2 /\ t1 = pre ++ e :: post'.
Proof.
  intros Ht He E. apply app_eq_app in E as (l & [[-> E] | [-> E]]).
  - destruct l as [|x l]; simpl in E.
    + subst t2. apply Forall_inv in Ht. congruence.
    + injection E as <- ->. now exists l.
  - exfalso. revert E. apply class_excludes; assumption.
Qed.
End Occurrences.

Lemma Forall_class_impl (P Q : event -> bool) (t : trace) :
  (forall e, P e = true -> Q e = true) ->
  Forall (fun x => P x = true) t -> Forall (fun x => Q x = true) t.
Proof. intros H. apply Forall_impl, H. Qed.

(** ** The worker *)

Lemma dummy_loop_class todo : forall j cancel,
  Forall (fun x => work_event x = true) (dummy_loop todo j cancel).
Proof.
  induction todo as [|todo IH]; intros j cancel; simpl; [constructor|].
  destruct (cancel j); repeat constructor. apply IH.
Qed.

(** C5. Whenever worker [i] reads the value 0 from its slot right after its
    wait on [data_ready[i]], its next and last event is the line
    "Thread #i exiting", and the thread function returns 0: no later read or
    write of the slot, and no later signal. *)
Theorem ParallelTaskThread_sentinel
    (i : Z) (turns : list worker_turn) (pre post : trace) (res : Z) (r : option Z) :
  ParallelTaskThread i turns
  = (pre ++ EvWaitForSingleObject DataReady i WAIT_TIME res :: EvLoadData i 0 :: post, r) ->
  post = [EvPrintf Stdout (ThreadExiting i)] /\ r = Some 0.
Proof.
  revert pre r.
  induction turns as [|t turns IH]; intros pre r E; cbn [ParallelTaskThread] in E.
  - destruct pre; discriminate E.
  - destruct (ready_ok t); cbn [negb] in E.
    2:{ do 3 (destruct pre as [|? pre]; try discriminate E). }
    destruct (data_wait t =? WAIT_OBJECT_0); cbn [negb] in E.
    2:{ do 4 (destruct pre as [|? pre]; try discriminate E). }
    destruct (slot_test t =? 0) eqn:Hslot.
    + destruct pre as [|? pre]; [discriminate E|].
      destruct pre as [|? pre]; [inversion E; auto|].
      do 3 (destruct pre as [|? pre]; try discriminate E).
    + destruct (ParallelTaskThread i turns) as [tr r'].
      pose proof (dummy_loop_class 25 0 (cancel_in_work t)) as Hd.
      remember (dummy_loop 25 0 (cancel_in_work t)) as d eqn:Ed. clear Ed.
      injection E as E <-.
      destruct pre as [|? pre]; [discriminate E|].
      destruct pre as [|? pre].
      { injection E as _ _ E _. rewrite E in Hslot. discriminate Hslot. }
      do 3 (destruct pre as [|? pre]; [discriminate E|]).
      injection E as _ _ _ _ _ E.
      apply (occurs_after work_event) in E as (pre' & _ & E);
        [| exact Hd | reflexivity].
      apply (IH pre' r'). now rewrite E.
Qed.

Lemma ParallelTaskThread_sentinel_witness :
  [EvPrintf Stdout (ThreadExiting 3)] = [EvPrintf Stdout (ThreadExiting 3)]
  /\ Some 0 = Some 0.
Proof.
  apply (ParallelTaskThread_sentinel 3
           [mkWorkerTurn true 0 7 7 (fun _ => true); mkWorkerTurn true 0 0 0 (fun _ => false)]
           [EvSetEvent ThreadReady 3 true; EvWaitForSingleObject DataReady 3 WAIT_TIME 0;
            EvLoadData 3 7; EvLoadData 3 7; EvPrintf Stdout (ReceivedData 3 7);
            EvPollCancel true; EvSetEvent ThreadReady 3 true]
           [EvPrintf Stdout (ThreadExiting 3)] 0 (Some 0)).
  reflexivity.
Defined.

Lemma ParallelTaskThread_bounded (i : Z) (turns : list worker_turn) :
  Forall (bounded_block (Worker i)) (fst (ParallelTaskThread i turns)).
Proof.
  induction turns as [|t turns IH]; cbn [ParallelTaskThread]; [constructor|].
  destruct (ready_ok t); cbn [negb]; [|repeat constructor].
  destruct (data_wait t =? WAIT_OBJECT_0); cbn [negb]; [|repeat constructor].
  destruct (slot_test t =? 0); [repeat constructor|].
  destruct (ParallelTaskThread i turns) as [tr r']. cbn [fst] in *.
  repeat (apply Forall_cons; [cbn; auto|]).
  apply Forall_app. split; [|exact IH].
  eapply Forall_impl; [|apply dummy_loop_class].
  intros [] H; try discriminate H; cbn in *; auto. lia.
Qed.

(** ** The parts of the control thread *)

Lemma create_workers_class env affinity todo : forall i a,
  Forall (fun x => setup_event x = true) (fst (fst (create_workers env affinity todo i a))).
Proof.
  induction todo as [|todo IH]; intros i a; cbn [create_workers]; [constructor|].
  destruct ((create_data_ready env i =? NULL) || (create_thread_ready env i =? NULL));
    [repeat constructor|].
  destruct (create_thread env i =? NULL); [repeat constructor|].
  match goal with |- context [create_workers env affinity todo ?j ?b] =>
    specialize (IH j b); destruct (create_workers env affinity todo j b) as [[tr a3] ok] end.
  cbn [fst] in *. rewrite <- !app_assoc. cbn [app].
  repeat (apply Forall_cons; [reflexivity|]).
  apply Forall_app. split; [|exact IH].
  destruct (negb (load affinity i =? 0)); repeat constructor.
Qed.

Lemma broadcast_class env todo : forall i,
  Forall (fun x => shutdown_event x = true) (broadcast env todo i).
Proof.
  induction todo as [|todo IH]; intros i; cbn [broadcast]; constructor; auto.
Qed.

Lemma cleanup_class todo : forall i task dready tready,
  Forall (fun x => cleanup_event x = true) (fst (cleanup todo i task dready tready)).
Proof.
  induction todo as [|todo IH]; intros i task dready tready; cbn [cleanup]; [constructor|].
  destruct task as [th|]; [|constructor].
  destruct dready as [dr|]; [|destruct (negb (load th i =? NULL)); repeat constructor].
  destruct tready as [rr|].
  - specialize (IH (i + 1) (Some th) (Some dr) (Some rr)).
    destruct (cleanup todo (i + 1) (Some th) (Some dr) (Some rr)) as [tr ok].
    cbn [fst] in *. repeat (apply Forall_app; split); auto;
      match goal with |- context [if ?b then _ else _] => destruct b end; repeat constructor.
  - cbn [fst]. apply Forall_app; split;
      match goal with |- context [if ?b then _ else _] => destruct b end; repeat constructor.
Qed.

(** With the three handle arrays allocated the loop below [out] runs to its
    end. *)
Lemma cleanup_allocated todo : forall i th dr rr,
  snd (cleanup todo i (Some th) (Some dr) (Some rr)) = true.
Proof.
  induction todo as [|todo IH]; intros i th dr rr; cbn [cleanup]; [reflexivity|].
  specialize (IH (i + 1) th dr rr).
  destruct (cleanup todo (i + 1) (Some th) (Some dr) (Some rr)) as [tr ok]. exact IH.
Qed.

Lemma out_arrays_class n a r :
  Forall (fun x => cleanup_event x = true) (fst (out_arrays n a r))
  /\ snd (out_arrays n a r) = ExitThread r.
Proof.
  unfold out_arrays, out.
  pose proof (cleanup_class (Z.to_nat n) 0 (Some (a_task_thread a)) (Some (a_data_ready a))
                (Some (a_thread_ready a))) as Hc.
  pose proof (cleanup_allocated (Z.to_nat n) 0 (a_task_thread a) (a_data_ready a)
                (a_thread_ready a)) as Hok.
  destruct (cleanup _ _ _ _ _) as [tr ok]. cbn [fst snd] in *. subst ok. cbn [fst snd].
  split; [|reflexivity]. apply Forall_app. split; [exact Hc | repeat constructor].
Qed.

Lemma out_class n task dready tready r :
  Forall (fun x => cleanup_event x = true) (fst (out n task dready tready r)).
Proof.
  unfold out. pose proof (cleanup_class (Z.to_nat n) 0 task dready tready) as Hc.
  destruct (cleanup _ _ _ _ _) as [tr [|]]; cbn [fst] in *; [|exact Hc].
  apply Forall_app. split; [exact Hc | repeat constructor].
Qed.

(** ** The dispatch loop *)

Section Dispatch.
Variable env : control_env.
Variable n : Z.

Lemma dispatch_loop_class todo : forall it a,
  Forall (fun x => dispatch_event x = true) (fst (fst (dispatch_loop env n todo it a))).
Proof.
  induction todo as [|todo IH]; intros it a; cbn [dispatch_loop]; [constructor|].
  destruct (cancel_at env it); [repeat constructor|].
  destruct (_ >=? _); [repeat constructor|].
  destruct (signal_ok env it); cbn [negb]; [|repeat constructor].
  match goal with |- context [dispatch_loop env n todo ?j ?b] =>
    specialize (IH j b); destruct (dispatch_loop env n todo j b) as [[tr a2] ok] end.
  cbn [fst app] in *. repeat (apply Forall_cons; [reflexivity|]). exact IH.
Qed.

(** The values written are the round numbers [it], [it + 1], ... *)
Lemma dispatch_loop_stores todo : forall it a,
  exists k, (k <= todo)%nat
    /\ map snd (stores (fst (fst (dispatch_loop env n todo it a)))) = zseq it k.
Proof.
  induction todo as [|todo IH]; intros it a; cbn [dispatch_loop].
  - exists O. split; [lia | reflexivity].
  - destruct (cancel_at env it); [exists O; split; [lia | reflexivity]|].
    destruct (_ >=? _); [exists O; split; [lia | reflexivity]|].
    destruct (signal_ok env it); cbn [negb];
      [|exists 1%nat; split; [lia | reflexivity]].
    match goal with |- context [dispatch_loop env n todo ?j ?b] =>
      specialize (IH j b); destruct (dispatch_loop env n todo j b) as [[tr a2] ok] end.
    destruct IH as (k & Hk & E). exists (S k). split; [lia|].
    cbn [fst app stores flat_map map snd zseq] in *. now rewrite <- E.
Qed.

Lemma dispatch_loop_rounds todo : forall it a,
  (rounds (fst (fst (dispatch_loop env n todo it a))) <= todo)%nat.
Proof.
  unfold rounds.
  induction todo as [|todo IH]; intros it a; cbn [dispatch_loop]; [simpl; lia|].
  destruct (cancel_at env it); [simpl; lia|].
  destruct (_ >=? _); [simpl; lia|].
  destruct (signal_ok env it); cbn [negb]; [|simpl; lia].
  match goal with |- context [dispatch_loop env n todo ?j ?b] =>
    specialize (IH j b); destruct (dispatch_loop env n todo j b) as [[tr a2] ok] end.
  cbn [fst app filter starts_round length] in *. lia.
Qed.

(** Reading [cancel_requested] as set ends the loop. *)
Lemma dispatch_loop_cancel todo : forall it a pre post,
  fst (fst (dispatch_loop env n todo it a)) = pre ++ EvPollCancel true :: post ->
  post = [].
Proof.
  induction todo as [|todo IH]; intros it a pre post; cbn [dispatch_loop].
  - destruct pre; discriminate.
  - destruct (cancel_at env it).
    { cbn [fst]. intros E. destruct pre as [|? pre]; [now inversion E|].
      destruct pre; discriminate E. }
    destruct (_ >=? _).
    { cbn [fst app]. intros E. do 4 (destruct pre as [|? pre]; try discriminate E). }
    destruct (signal_ok env it); cbn [negb].
    2:{ cbn [fst app]. intros E. do 6 (destruct pre as [|? pre]; try discriminate E). }
    match goal with |- context [dispatch_loop env n todo ?j ?b] =>
      specialize (IH j b); destruct (dispatch_loop env n todo j b) as [[tr a2] ok] end.
    cbn [fst app] in *. intros E.
    do 4 (destruct pre as [|? pre]; [discriminate E|]).
    injection E as _ _ _ _ E. eauto.
Qed.

(** A data-ready signal of the loop comes right after the wait that named
    the worker and the write to that worker's slot. *)
Lemma dispatch_loop_signal todo : forall it a pre post i ok,
  fst (fst (dispatch_loop env n todo it a)) = pre ++ EvSetEvent DataReady i ok :: post ->
  exists pre' v,
    pre = pre' ++ [EvWaitForMultipleObjects ThreadReady n false WAIT_TIME i;
                   EvStoreData i v].
Proof.
  induction todo as [|todo IH]; intros it a pre post i ok; cbn [dispatch_loop].
  - destruct pre; discriminate.
  - destruct (cancel_at env it).
    { cbn [fst]. intros E. do 2 (destruct pre as [|? pre]; try discriminate E). }
    destruct (_ >=? _).
    { cbn [fst app]. intros E. do 4 (destruct pre as [|? pre]; try discriminate E). }
    destruct (signal_ok env it); cbn [negb].
    2:{ cbn [fst app]. intros E.
        do 3 (destruct pre as [|? pre]; [discriminate E|]).
        destruct pre as [|? pre].
        - injection E as <- <- <- <- _ _. exists [EvPollCancel false], it. reflexivity.
        - do 2 (destruct pre as [|? pre]; try discriminate E). }
    match goal with |- context [dispatch_loop env n todo ?j ?b] =>
      specialize (IH j b); destruct (dispatch_loop env n todo j b) as [[tr a2] ok'] end.
    cbn [fst app] in *. intros E.
    do 3 (destruct pre as [|? pre]; [discriminate E|]).
    destruct pre as [|? pre].
    + injection E as <- <- <- <- _ _. exists [EvPollCancel false], it. reflexivity.
    + injection E as <- <- <- <- E. destruct (IH _ _ _ _ E) as (pre' & v & ->).
      exists (EvPollCancel false
                :: EvWaitForMultipleObjects ThreadReady n false WAIT_TIME
                     (wrap32 (wait_ready env it))
                :: EvStoreData (wrap32 (wait_ready env it)) it
                :: EvSetEvent DataReady (wrap32 (wait_ready env it)) true :: pre'), v.
      reflexivity.
Qed.

(** The loop leaves through [goto out] exactly when it prints one of its
    two diagnostics. *)
Lemma dispatch_loop_error todo : forall it a,
  let '(t, _, ok) := dispatch_loop env n todo it a in
  existsb dispatch_error t = negb ok.
Proof.
  induction todo as [|todo IH]; intros it a; cbn [dispatch_loop]; [reflexivity|].
  destruct (cancel_at env it); [reflexivity|].
  destruct (_ >=? _); [reflexivity|].
  destruct (signal_ok env it); cbn [negb]; [|reflexivity].
  match goal with |- context [dispatch_loop env n todo ?j ?b] =>
    specialize (IH j b); destruct (dispatch_loop env n todo j b) as [[tr a2] ok] end.
  exact IH.
Qed.

(** The loop writes slots only. *)
Lemma dispatch_loop_handles todo : forall it a,
  let '(_, a', _) := dispatch_loop env n todo it a in
  a_task_thread a' = a_task_thread a /\ a_data_ready a' = a_data_ready a
  /\ a_thread_ready a' = a_thread_ready a.
Proof.
  induction todo as [|todo IH]; intros it a; cbn [dispatch_loop]; [auto|].
  destruct (cancel_at env it); [auto|].
  destruct (_ >=? _); [auto|].
  destruct (signal_ok env it); cbn [negb]; [|auto].
  match goal with |- context [dispatch_loop env n todo ?j ?b] =>
    specialize (IH j b); destruct (dispatch_loop env n todo j b) as [[tr a2] ok] end.
  exact IH.
Qed.
End Dispatch.

(** ** Arrays *)

Lemma store_nat_length l : forall i v, length (store_nat l i v) = length l.
Proof.
  induction l as [|x l IH]; intros [|i] v; simpl; auto.
Qed.

Lemma store_length l i v : length (store l i v) = length l.
Proof. apply store_nat_length. Qed.

Lemma store_nat_same l : forall i v, (i < length l)%nat -> nth i (store_nat l i v) 0 = v.
Proof.
  induction l as [|x l IH]; intros [|i] v H; simpl in *; try lia; auto.
  apply IH. lia.
Qed.

Lemma store_nat_other l : forall i j v, i <> j -> nth j (store_nat l i v) 0 = nth j l 0.
Proof.
  induction l as [|x l IH]; intros [|i] [|j] v H; simpl; auto; try lia.
Qed.

Lemma load_store_same l i v :
  0 <= i -> (Z.to_nat i < length l)%nat -> load (store l i v) i = v.
Proof. intros Hi Hl. unfold load, store. now apply store_nat_same. Qed.

Lemma load_store_other l i j v :
  0 <= i -> 0 <= j -> i <> j -> load (store l i v) j = load l j.
Proof. intros Hi Hj Hne. unfold load, store. apply store_nat_other. lia. Qed.

(** ** Teardown after a complete setup *)

Lemma create_workers_created env affinity todo : forall i a tr a',
  0 <= i -> handles_length a (Z.to_nat i + todo) ->
  create_workers env affinity todo i a = (tr, a', true) ->
  (forall j, 0 <= j < i -> worker_created env a j) ->
  forall j, 0 <= j < i + Z.of_nat todo -> worker_created env a' j.
Proof.
  induction todo as [|todo IH]; intros i a tr a' Hi Hlen E Hdone j Hj;
    cbn [create_workers] in E.
  - injection E as _ <-. apply Hdone. lia.
  - destruct (create_data_ready env i =? NULL) eqn:Hd; [discriminate E|].
    destruct (create_thread_ready env i =? NULL) eqn:Hr; [discriminate E|].
    cbn [orb] in E.
    destruct (create_thread env i =? NULL) eqn:Ht; [discriminate E|].
    match type of E with context [create_workers env affinity todo ?k ?b] =>
      specialize (IH k b); destruct (create_workers env affinity todo k b) as [[tr3 a3] ok] end.
    injection E as _ <- ->.
    destruct Hlen as (L1 & L2 & L3).
    apply (IH tr3 a3); try reflexivity; try lia.
    + unfold handles_length. cbn [a_task_thread a_data_ready a_thread_ready].
      rewrite !store_length. lia.
    + intros j' Hj'. unfold worker_created. cbn [a_task_thread a_data_ready a_thread_ready].
      destruct (Z.eq_dec j' i) as [->|Hne].
      * rewrite !load_store_same by lia. unfold NULL in *. lia.
      * rewrite !load_store_other by lia. apply Hdone. lia.
Qed.

Lemma cleanup_created env todo : forall i th dr rr a,
  0 <= i -> a_task_thread a = th -> a_data_ready a = dr -> a_thread_ready a = rr ->
  (forall j, i <= j < i + Z.of_nat todo -> worker_created env a j) ->
  cleanup todo i (Some th) (Some dr) (Some rr)
  = (flat_map (fun i => [EvTerminateThread i (create_thread env i);
                         EvCloseHandle DataReady i (create_data_ready env i);
                         EvCloseHandle ThreadReady i (create_thread_ready env i)])
              (zseq i todo), true).
Proof.
  induction todo as [|todo IH]; intros i th dr rr a Hi E1 E2 E3 Hall; cbn [cleanup];
    [reflexivity|].
  rewrite (IH (i + 1) th dr rr a) by (auto; try lia; intros; apply Hall; lia).
  destruct (Hall i ltac:(lia)) as (H1 & N1 & H2 & N2 & H3 & N3).
  rewrite E1 in H1. rewrite E2 in H2. rewrite E3 in H3. rewrite H1, H2, H3.
  apply Z.eqb_neq in N1, N2, N3. rewrite N1, N2, N3. reflexivity.
Qed.

Lemma out_arrays_created env n a r :
  (forall j, 0 <= j < Z.of_nat n -> worker_created env a j) ->
  out_arrays (Z.of_nat n) a r = (forced_teardown env n, ExitThread r).
Proof.
  intros Hall. unfold out_arrays, out, forced_teardown.
  rewrite Nat2Z.id, (cleanup_created env n 0 _ _ _ a) by (auto; lia). reflexivity.
Qed.

(** ** The shape of a run of the control thread *)

Lemma control_run_shape_eq env g r r' :
  r = r' -> control_run_shape env g r' -> control_run_shape env g r.
Proof. now intros ->. Qed.

Lemma ControlThread_shape env g : control_run_shape env g (ControlThread env g).
Proof.
  unfold ControlThread.
  destruct (thread_affinity g) as [affinity|]; [|constructor].
  destruct (num_threads g =? 0); [constructor|].
  set (n := num_threads g).
  destruct (calloc_task_thread env), (calloc_data_ready env),
    (calloc_thread_ready env), (calloc_thread_data env); cbn [calloc];
    try (unfold prepend; apply SetupFailed; [repeat constructor | apply out_class]).
  set (a0 := mkArrays _ _ _ _).
  pose proof (create_workers_class env affinity (Z.to_nat n) 0 a0) as Hc.
  pose proof (create_workers_created env affinity (Z.to_nat n) 0 a0) as Hw.
  destruct (create_workers env affinity (Z.to_nat n) 0 a0) as [[tc a1] ok1].
  cbn [fst] in Hc.
  assert (HA : Forall (fun x => setup_event x = true)
                 (([EvCalloc TaskThread n true; EvCalloc DataReady n true;
                    EvCalloc ThreadReady n true; EvCalloc ThreadData n true]
                   ++ [EvPrintf Stdout (CreatingThreads n)]) ++ tc)).
  { apply Forall_app. split; [repeat constructor | exact Hc]. }
  destruct ok1; cbn [negb].
  2:{ unfold prepend. cbn [fst snd]. apply SetupFailed; [exact HA | apply out_arrays_class]. }
  specialize (Hw tc a1 ltac:(lia)).
  assert (Hall : forall j, 0 <= j < Z.of_nat (Z.to_nat n) -> worker_created env a1 j).
  { apply Hw; [| reflexivity | intros; lia].
    unfold handles_length, a0. cbn [a_task_thread a_data_ready a_thread_ready].
    rewrite !repeat_length. lia. }
  pose proof (dispatch_loop_handles env n (Z.to_nat MAX_ITERATIONS) 1 a1) as Hh.
  destruct (dispatch_loop env n (Z.to_nat MAX_ITERATIONS) 1 a1) as [[td a2] ok2] eqn:Ed.
  destruct ok2; cbn [negb].
  - unfold shutdown, prepend. cbn [fst snd].
    destruct (join_result env =? WAIT_OBJECT_0);
      match goal with |- control_run_shape _ _ (_ ++ fst (out_arrays n ?a ?r), _) =>
        rewrite (proj2 (out_arrays_class n a r));
        eapply control_run_shape_eq;
          [| eapply (ShutDown env g _ td a1 a2
                       (broadcast env (Z.to_nat n) 0
                        ++ [EvWaitForMultipleObjects TaskThread n true WAIT_TIME
                              (join_result env)] ++ [_])
                       (fst (out_arrays n a r)) (ExitThread r));
             [exact HA | exact Ed | | apply out_arrays_class]]
      end;
      try (f_equal; repeat (progress (rewrite <- ?app_assoc; cbn [app])); reflexivity);
      (apply Forall_app; split; [apply broadcast_class | repeat constructor]).
  - assert (Eout : out_arrays n a2 1 = (forced_teardown env (Z.to_nat n), ExitThread 1)).
    { replace (out_arrays n a2 1) with (out_arrays (Z.of_nat (Z.to_nat n)) a2 1)
        by (unfold out_arrays, out; now rewrite Nat2Z.id).
      apply out_arrays_created. intros j Hj. specialize (Hall j Hj).
      destruct Hh as (H1 & H2 & H3). unfold worker_created in *.
      now rewrite H1, H2, H3. }
    unfold prepend. rewrite Eout. cbn [fst snd].
    eapply control_run_shape_eq;
      [| eapply (DispatchAborted env g _ td a1 a2); [exact HA | exact Ed]].
    f_equal. repeat (progress (rewrite <- ?app_assoc; cbn [app])). reflexivity.
Qed.

(** ** Counting in traces *)

Lemma occurs_app (t1 t2 pre post : trace) (e : event) :
  t1 ++ t2 = pre ++ e :: post ->
  (exists post', t1 = pre ++ e :: post' /\ post = post' ++ t2)
  \/ (exists pre', t2 = pre' ++ e :: post /\ pre = t1 ++ pre').
Proof.
  intros E. apply app_eq_app in E as (l & [[-> E] | [-> E]]).
  - destruct l as [|x l]; simpl in E.
    + right. exists []. rewrite !app_nil_r. now split.
    + injection E as <- ->. left. now exists l.
  - right. now exists l.
Qed.

Lemma stores_app t1 t2 : stores (t1 ++ t2) = stores t1 ++ stores t2.
Proof. apply flat_map_app. Qed.

Lemma rounds_app t1 t2 : rounds (t1 ++ t2) = (rounds t1 + rounds t2)%nat.
Proof. unfold rounds. now rewrite filter_app, length_app. Qed.

Section Classes.
Variable P : event -> bool.

Lemma class_no_stores t :
  Forall (fun x => P x = true) t ->
  (forall i v, P (EvStoreData i v) = false) -> stores t = [].
Proof.
  intros Ht HP. induction Ht as [|x l Hx Hl IH]; [reflexivity|].
  cbn [stores flat_map]. fold (stores l). rewrite IH.
  destruct x; try reflexivity. rewrite HP in Hx. discriminate Hx.
Qed.

Lemma class_no_rounds t :
  Forall (fun x => P x = true) t ->
  (forall e, P e = true -> starts_round e = false) -> rounds t = 0%nat.
Proof.
  intros Ht HP. unfold rounds. induction Ht as [|x l Hx Hl IH]; [reflexivity|].
  cbn [filter]. now rewrite (HP x Hx).
Qed.

Lemma class_no_error t :
  Forall (fun x => P x = true) t ->
  (forall e, P e = true -> dispatch_error e = false) -> existsb dispatch_error t = false.
Proof.
  intros Ht HP. induction Ht as [|x l Hx Hl IH]; [reflexivity|].
  cbn [existsb]. now rewrite (HP x Hx).
Qed.

Lemma class_bounded t owner :
  Forall (fun x => P x = true) t ->
  (forall e, P e = true -> bounded_block owner e) -> Forall (bounded_block owner) t.
Proof. intros Ht HP. eapply Forall_impl; [|exact Ht]. exact HP. Qed.

Lemma class_not_in t e :
  Forall (fun x => P x = true) t -> P e = false -> ~ In e t.
Proof.
  intros Ht He Hin. rewrite Forall_forall in Ht. rewrite (Ht e Hin) in He.
  discriminate He.
Qed.
End Classes.

Lemma in_zseq len : forall first v, In v (zseq first len) <-> first <= v < first + Z.of_nat len.
Proof.
  induction len as [|len IH]; intros first v; cbn [zseq In].
  - lia.
  - rewrite IH. lia.
Qed.

Lemma in_stores t i v : In (EvStoreData i v) t -> In (i, v) (stores t).
Proof.
  intros H. unfold stores. apply in_flat_map. exists (EvStoreData i v).
  split; [exact H | now left].
Qed.

Lemma forced_teardown_class env n :
  Forall (fun x => cleanup_event x = true) (forced_teardown env n).
Proof.
  unfold forced_teardown. apply Forall_app. split; [|repeat constructor].
  apply Forall_forall. intros x Hx. apply in_flat_map in Hx as (j & _ & Hx).
  destruct Hx as [<- | [<- | [<- | []]]]; reflexivity.
Qed.

Lemma setup_bounded e : setup_event e = true -> bounded_block Control e.
Proof. destruct e; cbn; try discriminate; auto. Qed.

Lemma dispatch_bounded e : dispatch_event e = true -> bounded_block Control e.
Proof.
  destruct e as [| | | | | | | | | a n w tmo r | | | | | | | | |];
    cbn; try discriminate; auto.
  destruct a; try discriminate. destruct w; try discriminate.
  intros H. apply Z.eqb_eq in H. auto.
Qed.

Lemma shutdown_bounded e : shutdown_event e = true -> bounded_block Control e.
Proof.
  destruct e as [| | | | | | | | | a n w tmo r | | | | | | ms | | |];
    cbn; try discriminate; auto.
  - destruct a; try discriminate. destruct w; try discriminate.
    intros H. apply Z.eqb_eq in H. auto.
  - intros H. apply Z.eqb_eq in H. lia.
Qed.

Lemma cleanup_bounded e : cleanup_event e = true -> bounded_block Control e.
Proof. destruct e; cbn; try discriminate; auto. Qed.

Lemma dispatch_loop_bounded env n todo it a :
  Forall (bounded_block Control) (fst (fst (dispatch_loop env n todo it a))).
Proof.
  eapply class_bounded; [apply dispatch_loop_class | apply dispatch_bounded].
Qed.

(** ** Bounded waits *)

(** C8. Every call that suspends a worker or the control thread is bounded:
    a worker waits only on its own [data_ready] event, the control thread
    only on the [thread_ready] events (any of them) and on the worker
    threads (all of them), each time with the timeout [WAIT_TIME], which is
    not [INFINITE]; the remaining suspensions are sleeps of at most 250 ms. *)
Theorem waits_are_bounded :
  WAIT_TIME < INFINITE
  /\ (forall i turns, Forall (bounded_block (Worker i)) (fst (ParallelTaskThread i turns)))
  /\ (forall env g, Forall (bounded_block Control) (fst (ControlThread env g))).
Proof.
  split; [reflexivity|]. split; [apply ParallelTaskThread_bounded|].
  intros env g. destruct (ControlThread_shape env g) as
    [| A K o HA HK | A B a a' HA HB | A B a a' C K o HA HB HC HK]; cbn [fst].
  - constructor.
  - apply Forall_app. split.
    + eapply class_bounded; [exact HA | apply setup_bounded].
    + eapply class_bounded; [exact HK | apply cleanup_bounded].
  - pose proof (dispatch_loop_bounded env (num_threads g) (Z.to_nat MAX_ITERATIONS) 1 a) as Hb.
    rewrite HB in Hb. cbn [fst] in Hb.
    apply Forall_app; split; [|apply Forall_app; split; [exact Hb|]].
    + eapply class_bounded; [exact HA | apply setup_bounded].
    + eapply class_bounded; [apply forced_teardown_class | apply cleanup_bounded].
  - pose proof (dispatch_loop_bounded env (num_threads g) (Z.to_nat MAX_ITERATIONS) 1 a) as Hb.
    rewrite HB in Hb. cbn [fst] in Hb.
    apply Forall_app; split;
      [|apply Forall_app; split; [exact Hb | apply Forall_app; split]].
    + eapply class_bounded; [exact HA | apply setup_bounded].
    + repeat (apply Forall_cons; [cbn; auto; lia|]).
      eapply class_bounded; [exact HC | apply shutdown_bounded].
    + eapply class_bounded; [exact HK | apply cleanup_bounded].
Qed.

(** ** Work values *)

Lemma dispatch_run_stores env n a B a' ok :
  dispatch_loop env n (Z.to_nat MAX_ITERATIONS) 1 a = (B, a', ok) ->
  exists k, (k <= Z.to_nat MAX_ITERATIONS)%nat /\ map snd (stores B) = zseq 1 k.
Proof.
  intros E. pose proof (dispatch_loop_stores env n (Z.to_nat MAX_ITERATIONS) 1 a) as H.
  now rewrite E in H.
Qed.

Lemma dispatch_run_class env n a B a' ok :
  dispatch_loop env n (Z.to_nat MAX_ITERATIONS) 1 a = (B, a', ok) ->
  Forall (fun x => dispatch_event x = true) B.
Proof.
  intros E. pose proof (dispatch_loop_class env n (Z.to_nat MAX_ITERATIONS) 1 a) as H.
  now rewrite E in H.
Qed.

Lemma tail_class (t pre post : trace) (e : event) :
  Forall (fun x => shutdown_event x || cleanup_event x = true) t ->
  t = pre ++ e :: post ->
  Forall (fun x => shutdown_event x || cleanup_event x = true) post.
Proof.
  intros Ht ->. apply Forall_app in Ht as [_ Ht]. now apply Forall_inv_tail in Ht.
Qed.

Lemma shutdown_tail_class (C K : trace) :
  Forall (fun x => shutdown_event x = true) C ->
  Forall (fun x => cleanup_event x = true) K ->
  Forall (fun x => shutdown_event x || cleanup_event x = true)
         ((EvSleep 250 :: EvMemsetZero ThreadData :: C) ++ K).
Proof.
  intros HC HK. apply Forall_app. split.
  - repeat (apply Forall_cons; [reflexivity|]).
    eapply Forall_impl; [|exact HC]. cbn. intros x ->. reflexivity.
  - eapply Forall_impl; [|exact HK]. cbn. intros x ->. apply orb_true_r.
Qed.

Lemma ControlThread_stores env g :
  exists k, (k <= Z.to_nat MAX_ITERATIONS)%nat
    /\ map snd (stores (fst (ControlThread env g))) = zseq 1 k.
Proof.
  destruct (ControlThread_shape env g) as
    [| A K o HA HK | A B a a' HA HB | A B a a' C K o HA HB HC HK]; cbn [fst].
  - exists O. split; [lia | reflexivity].
  - exists O. split; [lia|].
    rewrite stores_app, (class_no_stores _ _ HA), (class_no_stores _ _ HK); reflexivity.
  - destruct (dispatch_run_stores _ _ _ _ _ _ HB) as (k & Hk & E). exists k. split; [exact Hk|].
    rewrite !stores_app, (class_no_stores _ _ HA),
      (class_no_stores _ _ (forced_teardown_class env _)), app_nil_r; auto.
  - destruct (dispatch_run_stores _ _ _ _ _ _ HB) as (k & Hk & E). exists k. split; [exact Hk|].
    rewrite !stores_app, (class_no_stores _ _ HA), (class_no_stores _ _ HK); auto.
    cbn [stores flat_map app]. fold (stores C).
    rewrite (class_no_stores _ _ HC), !app_nil_r; auto.
Qed.

(** C10. The values the control thread writes into slots with
    [thread_data[i] = iteration] are, in order, the round numbers 1, 2, ...,
    at most [MAX_ITERATIONS] of them: each lies in 1..[MAX_ITERATIONS] and
    none is the sentinel 0. The only other write to the slots is the
    [memset] of the shutdown protocol, after which no slot is written
    again. *)
Theorem work_values_are_round_numbers (env : control_env) (g : globals) :
  (exists k, (k <= Z.to_nat MAX_ITERATIONS)%nat
     /\ map snd (stores (fst (ControlThread env g))) = zseq 1 k)
  /\ (forall i v, In (EvStoreData i v) (fst (ControlThread env g)) ->
        1 <= v <= MAX_ITERATIONS /\ v <> 0)
  /\ (forall pre post,
        fst (ControlThread env g) = pre ++ EvMemsetZero ThreadData :: post ->
        stores post = []).
Proof.
  split; [apply ControlThread_stores|]. split.
  - intros i v Hin. destruct (ControlThread_stores env g) as (k & Hk & E).
    apply in_stores in Hin. apply (in_map snd) in Hin. rewrite E in Hin.
    apply in_zseq in Hin. cbn [snd] in Hin. unfold MAX_ITERATIONS in *. lia.
  - intros pre post.
    destruct (ControlThread_shape env g) as
      [| A K o HA HK | A B a a' HA HB | A B a a' C K o HA HB HC HK]; cbn [fst]; intros E.
    + destruct pre; discriminate E.
    + apply (occurs_after setup_event) in E as (pre1 & _ & E); [| exact HA | reflexivity].
      exfalso. revert E. apply (class_excludes cleanup_event); [exact HK | reflexivity].
    + apply (occurs_after setup_event) in E as (pre1 & _ & E); [| exact HA | reflexivity].
      apply (occurs_after dispatch_event) in E as (pre2 & _ & E);
        [| exact (dispatch_run_class _ _ _ _ _ _ HB) | reflexivity].
      exfalso. revert E.
      apply (class_excludes cleanup_event); [apply forced_teardown_class | reflexivity].
    + apply (occurs_after setup_event) in E as (pre1 & _ & E); [| exact HA | reflexivity].
      apply (occurs_after dispatch_event) in E as (pre2 & _ & E);
        [| exact (dispatch_run_class _ _ _ _ _ _ HB) | reflexivity].
      apply (class_no_stores (fun x => shutdown_event x || cleanup_event x)).
      * exact (tail_class _ _ _ _ (shutdown_tail_class _ _ HC HK) E).
      * reflexivity.
Qed.

(** ** Rounds *)

Lemma dispatch_run_rounds env n a B a' ok :
  dispatch_loop env n (Z.to_nat MAX_ITERATIONS) 1 a = (B, a', ok) ->
  (rounds B <= Z.to_nat MAX_ITERATIONS)%nat.
Proof.
  intros E. pose proof (dispatch_loop_rounds env n (Z.to_nat MAX_ITERATIONS) 1 a) as H.
  now rewrite E in H.
Qed.

Lemma dispatch_run_cancel env n a B a' ok pre post :
  dispatch_loop env n (Z.to_nat MAX_ITERATIONS) 1 a = (B, a', ok) ->
  B = pre ++ EvPollCancel true :: post -> post = [].
Proof.
  intros E HB.
  apply (dispatch_loop_cancel env n (Z.to_nat MAX_ITERATIONS) 1 a pre post).
  now rewrite E.
Qed.

Lemma dispatch_run_signal env n a B a' ok pre post i s :
  dispatch_loop env n (Z.to_nat MAX_ITERATIONS) 1 a = (B, a', ok) ->
  B = pre ++ EvSetEvent DataReady i s :: post ->
  exists pre' v,
    pre = pre' ++ [EvWaitForMultipleObjects ThreadReady n false WAIT_TIME i; EvStoreData i v].
Proof.
  intros E HB.
  apply (dispatch_loop_signal env n (Z.to_nat MAX_ITERATIONS) 1 a pre post i s).
  now rewrite E.
Qed.

(** A round that got a worker index from the readiness wait goes on with
    the write of the round number into that worker's slot and the signal of
    its data-ready event; a round whose wait did not return an index ends
    with the diagnostic. *)
Lemma dispatch_loop_round env n todo : forall it a pre post arr n' wa tm i,
  fst (fst (dispatch_loop env n todo it a))
  = pre ++ EvWaitForMultipleObjects arr n' wa tm i :: post ->
  (wrap32 (WAIT_OBJECT_0 + n) <= i /\ post = [EvPrintf Stdout DispatchWaitFailed])
  \/ (0 <= i < wrap32 (WAIT_OBJECT_0 + n)
      /\ exists ok post',
           post = EvStoreData i (it + Z.of_nat (rounds pre))
                  :: EvSetEvent DataReady i ok :: post').
Proof.
  induction todo as [|todo IH]; intros it a pre post arr n' wa tm i; cbn [dispatch_loop].
  - destruct pre; discriminate.
  - destruct (cancel_at env it).
    { cbn [fst]. intros E. do 2 (destruct pre as [|? pre]; try discriminate E). }
    assert (Hpos : 0 <= wrap32 (wait_ready env it)).
    { unfold wrap32. apply Z.mod_pos_bound. lia. }
    destruct (_ >=? _) eqn:Hi.
    { cbn [fst app]. intros E. destruct pre as [|? pre]; [discriminate E|].
      destruct pre as [|? pre].
      - injection E as <- <- <- <- <- <- <-. left.
        rewrite Z.geb_leb in Hi. apply Z.leb_le in Hi. now split.
      - do 2 (destruct pre as [|? pre]; try discriminate E). }
    rewrite Z.geb_leb in Hi. apply Z.leb_gt in Hi.
    destruct (signal_ok env it); cbn [negb].
    2:{ cbn [fst app]. intros E. destruct pre as [|? pre]; [discriminate E|].
        destruct pre as [|? pre].
        - injection E as <- <- <- <- <- <- <-. right. split; [lia|].
          exists false, [EvPrintf Stdout (DispatchSignalFailed (wrap32 (wait_ready env it)))].
          cbn. now rewrite Z.add_0_r.
        - do 4 (destruct pre as [|? pre]; try discriminate E). }
    match goal with |- context [dispatch_loop env n todo ?j ?b] =>
      specialize (IH j b); destruct (dispatch_loop env n todo j b) as [[tr a2] ok'] end.
    cbn [fst app] in *. intros E.
    destruct pre as [|? pre]; [discriminate E|].
    destruct pre as [|? pre].
    + injection E as <- <- <- <- <- <- <-. right. split; [lia|].
      exists true, tr. cbn. now rewrite Z.add_0_r.
    + do 2 (destruct pre as [|? pre]; [discriminate E|]).
      injection E as <- <- <- <- E.
      replace (it + Z.of_nat (rounds (EvPollCancel false
                 :: EvWaitForMultipleObjects ThreadReady n false WAIT_TIME
                      (wrap32 (wait_ready env it))
                 :: EvStoreData (wrap32 (wait_ready env it)) it
                 :: EvSetEvent DataReady (wrap32 (wait_ready env it)) true :: pre)))
        with (it + 1 + Z.of_nat (rounds pre))
        by (unfold rounds; cbn [filter starts_round length]; lia).
      exact (IH _ _ _ _ _ _ _ E).
Qed.

Lemma dispatch_run_round env n a B a' ok pre post arr n' wa tm i :
  dispatch_loop env n (Z.to_nat MAX_ITERATIONS) 1 a = (B, a', ok) ->
  B = pre ++ EvWaitForMultipleObjects arr n' wa tm i :: post ->
  (wrap32 (WAIT_OBJECT_0 + n) <= i /\ post = [EvPrintf Stdout DispatchWaitFailed])
  \/ (0 <= i < wrap32 (WAIT_OBJECT_0 + n)
      /\ exists s post',
           post = EvStoreData i (1 + Z.of_nat (rounds pre))
                  :: EvSetEvent DataReady i s :: post').
Proof.
  intros E HB.
  apply (dispatch_loop_round env n (Z.to_nat MAX_ITERATIONS) 1 a pre post arr n' wa tm i).
  now rewrite E.
Qed.

Lemma setup_no_round e : setup_event e = true -> starts_round e = false.
Proof. destruct e; cbn; try discriminate; auto. Qed.

Lemma cleanup_no_round e : cleanup_event e = true -> starts_round e = false.
Proof. destruct e; cbn; try discriminate; auto. Qed.

Lemma tail_no_round e : shutdown_event e || cleanup_event e = true -> starts_round e = false.
Proof.
  destruct e as [| | | | | | | | | a n w tmo r | | | | | | | | |];
    cbn; try discriminate; auto.
  destruct a; cbn; try discriminate; auto.
Qed.

Lemma ControlThread_rounds env g :
  (rounds (fst (ControlThread env g)) <= Z.to_nat MAX_ITERATIONS)%nat.
Proof.
  destruct (ControlThread_shape env g) as
    [| A K o HA HK | A B a a' HA HB | A B a a' C K o HA HB HC HK]; cbn [fst].
  - cbn. lia.
  - rewrite rounds_app, (class_no_rounds _ _ HA setup_no_round),
      (class_no_rounds _ _ HK cleanup_no_round). lia.
  - pose proof (dispatch_run_rounds _ _ _ _ _ _ HB).
    rewrite !rounds_app, (class_no_rounds _ _ HA setup_no_round),
      (class_no_rounds _ _ (forced_teardown_class env _) cleanup_no_round). lia.
  - pose proof (dispatch_run_rounds _ _ _ _ _ _ HB).
    rewrite (rounds_app A), (rounds_app B), (class_no_rounds _ _ HA setup_no_round),
      (class_no_rounds _ _ (shutdown_tail_class _ _ HC HK) tail_no_round). lia.
Qed.

(** C6. A run of the control thread starts at most [MAX_ITERATIONS]
    dispatch rounds; once it has read [cancel_requested] as set it starts no
    further round and writes no further work value; every data-ready
    signal sent before the shutdown [memset] comes directly after the wait
    that returned the worker's index and the write of the work value into
    that worker's slot; and every round does its work: when the readiness
    wait of a round returns a worker's index, the next two calls write the
    round number (one more than the number of rounds before) into that
    worker's slot and then signal that worker's data-ready event. A round
    whose wait returns no index (timeout or failure) prints the diagnostic
    instead and is the last. *)
Theorem dispatch_rounds_bounded_and_ordered (env : control_env) (g : globals) :
  (rounds (fst (ControlThread env g)) <= Z.to_nat MAX_ITERATIONS)%nat
  /\ (forall pre post,
        fst (ControlThread env g) = pre ++ EvPollCancel true :: post ->
        rounds post = 0%nat /\ stores post = [])
  /\ (forall pre post i ok,
        fst (ControlThread env g) = pre ++ EvSetEvent DataReady i ok :: post ->
        In (EvMemsetZero ThreadData) pre
        \/ exists pre' v,
             pre = pre' ++ [EvWaitForMultipleObjects ThreadReady (num_threads g) false
                              WAIT_TIME i;
                            EvStoreData i v])
  /\ (forall pre post count wait_all timeout i,
        fst (ControlThread env g)
        = pre ++ EvWaitForMultipleObjects ThreadReady count wait_all timeout i :: post ->
        (wrap32 (WAIT_OBJECT_0 + num_threads g) <= i
         /\ rounds post = 0%nat /\ stores post = []
         /\ exists post', post = EvPrintf Stdout DispatchWaitFailed :: post')
        \/ (0 <= i < wrap32 (WAIT_OBJECT_0 + num_threads g)
            /\ exists ok post',
                 post = EvStoreData i (1 + Z.of_nat (rounds pre))
                        :: EvSetEvent DataReady i ok :: post')).
Proof.
  split; [apply ControlThread_rounds|]. split; [|split].
  - intros pre post.
    destruct (ControlThread_shape env g) as
      [| A K o HA HK | A B a a' HA HB | A B a a' C K o HA HB HC HK]; cbn [fst]; intros E.
    + destruct pre; discriminate E.
    + apply (occurs_after setup_event) in E as (pre1 & _ & E); [| exact HA | reflexivity].
      exfalso. revert E. apply (class_excludes cleanup_event); [exact HK | reflexivity].
    + apply (occurs_after setup_event) in E as (pre1 & _ & E); [| exact HA | reflexivity].
      apply (occurs_before cleanup_event) in E as (post1 & -> & E);
        [| apply forced_teardown_class | reflexivity].
      rewrite (dispatch_run_cancel _ _ _ _ _ _ _ _ HB E). cbn [app]. split.
      * apply (class_no_rounds _ _ (forced_teardown_class env _) cleanup_no_round).
      * apply (class_no_stores _ _ (forced_teardown_class env _)). reflexivity.
    + apply (occurs_after setup_event) in E as (pre1 & _ & E); [| exact HA | reflexivity].
      apply (occurs_before (fun x => shutdown_event x || cleanup_event x))
        in E as (post1 & -> & E);
        [| apply (shutdown_tail_class _ _ HC HK) | reflexivity].
      rewrite (dispatch_run_cancel _ _ _ _ _ _ _ _ HB E). cbn [app]. split.
      * apply (class_no_rounds _ _ (shutdown_tail_class _ _ HC HK) tail_no_round).
      * apply (class_no_stores _ _ (shutdown_tail_class _ _ HC HK)). reflexivity.
  - intros pre post i ok.
    destruct (ControlThread_shape env g) as
      [| A K o HA HK | A B a a' HA HB | A B a a' C K o HA HB HC HK]; cbn [fst]; intros E.
    + destruct pre; discriminate E.
    + apply (occurs_after setup_event) in E as (pre1 & _ & E); [| exact HA | reflexivity].
      exfalso. revert E. apply (class_excludes cleanup_event); [exact HK | reflexivity].
    + apply (occurs_after setup_event) in E as (pre1 & -> & E); [| exact HA | reflexivity].
      apply (occurs_before cleanup_event) in E as (post1 & -> & E);
        [| apply forced_teardown_class | reflexivity].
      destruct (dispatch_run_signal _ _ _ _ _ _ _ _ _ _ HB E) as (pre' & v & ->).
      right. exists (A ++ pre'), v. now rewrite app_assoc.
    + apply (occurs_after setup_event) in E as (pre1 & -> & E); [| exact HA | reflexivity].
      apply occurs_app in E as [(post1 & E & ->) | (pre2 & E & ->)].
      * destruct (dispatch_run_signal _ _ _ _ _ _ _ _ _ _ HB E) as (pre' & v & ->).
        right. exists (A ++ pre'), v. now rewrite app_assoc.
      * left. destruct pre2 as [|x [|y pre2]]; try discriminate E.
        injection E as <- <- _. apply in_or_app. right. apply in_or_app. right.
        right. now left.
  - intros pre post count wait_all timeout i.
    destruct (ControlThread_shape env g) as
      [| A K o HA HK | A B a a' HA HB | A B a a' C K o HA HB HC HK]; cbn [fst]; intros E.
    + destruct pre; discriminate E.
    + apply (occurs_after setup_event) in E as (pre1 & _ & E); [| exact HA | reflexivity].
      exfalso. revert E. apply (class_excludes cleanup_event); [exact HK | reflexivity].
    + apply (occurs_after setup_event) in E as (pre1 & -> & E); [| exact HA | reflexivity].
      apply (occurs_before cleanup_event) in E as (post1 & -> & E);
        [| apply forced_teardown_class | reflexivity].
      rewrite (rounds_app A), (class_no_rounds _ _ HA setup_no_round), Nat.add_0_l.
      destruct (dispatch_run_round _ _ _ _ _ _ _ _ _ _ _ _ _ HB E)
        as [[Hi ->] | (Hi & s & post' & ->)].
      * left. split; [exact Hi|]. split; [|split].
        -- rewrite rounds_app.
           now rewrite (class_no_rounds _ _ (forced_teardown_class env _) cleanup_no_round).
        -- rewrite stores_app.
           now rewrite (class_no_stores _ _ (forced_teardown_class env _)).
        -- now eexists.
      * right. split; [exact Hi|]. eexists s, (post' ++ _). reflexivity.
    + apply (occurs_after setup_event) in E as (pre1 & -> & E); [| exact HA | reflexivity].
      apply (occurs_before (fun x => shutdown_event x || cleanup_event x))
        in E as (post1 & -> & E);
        [| apply (shutdown_tail_class _ _ HC HK) | reflexivity].
      rewrite (rounds_app A), (class_no_rounds _ _ HA setup_no_round), Nat.add_0_l.
      destruct (dispatch_run_round _ _ _ _ _ _ _ _ _ _ _ _ _ HB E)
        as [[Hi ->] | (Hi & s & post' & ->)].
      * exfalso.
        pose proof (dispatch_loop_error env (num_threads g) (Z.to_nat MAX_ITERATIONS) 1 a) as He.
        rewrite HB, E, existsb_app in He. cbn in He.
        rewrite orb_true_r in He. discriminate He.
      * right. split; [exact Hi|]. eexists s, (post' ++ _). reflexivity.
Qed.

(** ** A dispatch error *)

Lemma dispatch_loop_abort_last env n todo : forall it a B a',
  dispatch_loop env n todo it a = (B, a', false) ->
  exists B0 d, B = B0 ++ [d] /\ dispatch_error d = true
    /\ Forall (fun x => dispatch_event x = true) B0.
Proof.
  induction todo as [|todo IH]; intros it a B a'; cbn [dispatch_loop]; [discriminate|].
  destruct (cancel_at env it); [discriminate|].
  destruct (_ >=? _).
  { intros E. injection E as <- _. eexists [_; _], _. cbn [app].
    split; [reflexivity|]. split; [reflexivity | repeat constructor]. }
  destruct (signal_ok env it); cbn [negb].
  2:{ intros E. injection E as <- _. eexists [_; _; _; _], _. cbn [app].
      split; [reflexivity|]. split; [reflexivity | repeat constructor]. }
  match goal with |- context [dispatch_loop env n todo ?j ?b] =>
    specialize (IH j b); destruct (dispatch_loop env n todo j b) as [[tr a2] ok] end.
  intros E. injection E as <- _ ->.
  destruct (IH tr a2 eq_refl) as (B0 & d & -> & Hd & HB0).
  eexists (_ :: _ :: _ :: _ :: B0), d. cbn [app].
  split; [reflexivity|]. split; [exact Hd | repeat (apply Forall_cons; [reflexivity|])].
  exact HB0.
Qed.

Lemma setup_no_error e : setup_event e = true -> dispatch_error e = false.
Proof. destruct e as [s d| | | | | | | | | | | | | | | | | |]; cbn; auto. destruct s, d; auto; discriminate. Qed.

Lemma cleanup_no_error e : cleanup_event e = true -> dispatch_error e = false.
Proof. destruct e; cbn; auto; discriminate. Qed.

Lemma tail_no_error e : shutdown_event e || cleanup_event e = true -> dispatch_error e = false.
Proof.
  destruct e as [s d| | | | | | | | | | | | | | | | | |]; cbn; auto.
  destruct s, d; auto; discriminate.
Qed.

Lemma in_forced_teardown env n j :
  0 <= j < Z.of_nat n -> In (EvTerminateThread j (create_thread env j)) (forced_teardown env n).
Proof.
  intros Hj. unfold forced_teardown. apply in_or_app. left.
  apply in_flat_map. exists j. split; [apply in_zseq; lia | now left].
Qed.

(** C2, the claim fails: with one worker whose readiness wait times out in
    the first round, the run prints the dispatch diagnostic and ends
    without the sentinel [memset], without any data-ready signal and
    without the wait for the worker threads. *)
Lemma dispatch_abort_skips_shutdown_counterexample :
  let env := mkControlEnv true true true true (fun _ => 11) (fun _ => 12) (fun _ => 13)
               (fun _ => false) (fun _ => WAIT_TIMEOUT) (fun _ => true) (fun _ => true)
               WAIT_OBJECT_0 in
  let tr := fst (ControlThread env (mkGlobals 1 (Some [1]) None None None)) in
  In (EvPrintf Stdout DispatchWaitFailed) tr
  /\ ~ In (EvMemsetZero ThreadData) tr
  /\ (forall i ok, ~ In (EvSetEvent DataReady i ok) tr)
  /\ (forall n timeout r, ~ In (EvWaitForMultipleObjects TaskThread n true timeout r) tr).
Proof.
  cbv zeta. vm_compute ControlThread. cbn [fst].
  split; [cbn; tauto|].
  repeat split; intros; cbn; intuition discriminate.
Qed.

(** C2, amended. When the dispatch loop prints one of its two diagnostics
    (the readiness wait timed out or failed, or a data-ready signal could
    not be raised), the control thread goes from that line straight to the
    code below [out]: it terminates every worker thread with
    [TerminateThread], closes both events of every worker, frees the four
    arrays and exits with status 1. The shutdown protocol does not run:
    no grace period, no sentinel written, no wait for the workers. *)
Theorem dispatch_abort_forces_teardown (env : control_env) (g : globals) :
  existsb dispatch_error (fst (ControlThread env g)) = true ->
  snd (ControlThread env g) = ExitThread 1
  /\ (exists before d,
        fst (ControlThread env g)
        = before ++ d :: forced_teardown env (Z.to_nat (num_threads g))
        /\ dispatch_error d = true
        /\ Forall (fun x => setup_event x || dispatch_event x = true) before)
  /\ (forall j, 0 <= j < num_threads g ->
        In (EvTerminateThread j (create_thread env j)) (fst (ControlThread env g)))
  /\ ~ In (EvSleep 250) (fst (ControlThread env g))
  /\ ~ In (EvMemsetZero ThreadData) (fst (ControlThread env g))
  /\ (forall n timeout r,
        ~ In (EvWaitForMultipleObjects TaskThread n true timeout r)
             (fst (ControlThread env g))).
Proof.
  destruct (ControlThread_shape env g) as
    [| A K o HA HK | A B a a' HA HB | A B a a' C K o HA HB HC HK]; cbn [fst snd]; intros H.
  - discriminate H.
  - rewrite existsb_app, (class_no_error _ _ HA setup_no_error),
      (class_no_error _ _ HK cleanup_no_error) in H. discriminate H.
  - destruct (dispatch_loop_abort_last _ _ _ _ _ _ _ HB) as (B0 & d & -> & Hd & HB0).
    assert (Hall : Forall (fun x => setup_event x || dispatch_event x || cleanup_event x = true)
                     (A ++ (B0 ++ [d]) ++ forced_teardown env (Z.to_nat (num_threads g)))).
    { apply Forall_app; split;
        [|apply Forall_app; split; [apply Forall_app; split|]].
      - eapply Forall_impl; [|exact HA]. cbn. now intros x ->.
      - eapply Forall_impl; [|exact HB0]. cbn. intros x ->. now rewrite orb_true_r.
      - constructor; [|constructor]. destruct d as [[] []| | | | | | | | | | | | | | | | | |];
          try discriminate Hd; reflexivity.
      - eapply Forall_impl; [|apply forced_teardown_class]. cbn. intros x ->.
        apply orb_true_r. }
    split; [reflexivity|]. split; [|split].
    + exists (A ++ B0), d. split; [|split; [exact Hd|]].
      * rewrite <- !app_assoc. reflexivity.
      * apply Forall_app. split.
        -- eapply Forall_impl; [|exact HA]. cbn. now intros x ->.
        -- eapply Forall_impl; [|exact HB0]. cbn. intros x ->. apply orb_true_r.
    + intros j Hj. apply in_or_app. right. apply in_or_app. right.
      apply in_forced_teardown. lia.
    + repeat split; intros; apply (class_not_in _ _ _ Hall); reflexivity.
  - pose proof (dispatch_loop_error env (num_threads g) (Z.to_nat MAX_ITERATIONS) 1 a) as He.
    rewrite HB in He. cbn [negb] in He.
    rewrite existsb_app, (class_no_error _ _ HA setup_no_error), existsb_app, He,
      (class_no_error _ _ (shutdown_tail_class _ _ HC HK) tail_no_error) in H.
    discriminate H.
Qed.

Lemma dispatch_abort_forces_teardown_witness :
  let env := mkControlEnv true true true true (fun _ => 11) (fun _ => 12) (fun _ => 13)
               (fun _ => false) (fun _ => 0) (fun it => it <? 3) (fun _ => true)
               WAIT_OBJECT_0 in
  let g := mkGlobals 1 (Some [1]) None None None in
  snd (ControlThread env g) = ExitThread 1
  /\ (exists before d,
        fst (ControlThread env g)
        = before ++ d :: forced_teardown env (Z.to_nat (num_threads g))
        /\ dispatch_error d = true
        /\ Forall (fun x => setup_event x || dispatch_event x = true) before)
  /\ (forall j, 0 <= j < num_threads g ->
        In (EvTerminateThread j (create_thread env j)) (fst (ControlThread env g)))
  /\ ~ In (EvSleep 250) (fst (ControlThread env g))
  /\ ~ In (EvMemsetZero ThreadData) (fst (ControlThread env g))
  /\ (forall n timeout r,
        ~ In (EvWaitForMultipleObjects TaskThread n true timeout r)
             (fst (ControlThread env g))).
Proof.
  cbv zeta. apply dispatch_abort_forces_teardown. vm_compute. reflexivity.
Defined.

(** ** Teardown after a failed allocation *)

(** C7, the code on the failing inputs: whenever at least one worker is
    configured and [calloc] returns [NULL] for one of the three handle
    arrays, the code jumps to [out], whose loop indexes that array for
    worker 0. The run ends in that fault; none of the arrays is freed. *)
Theorem cleanup_indexes_unallocated_array
    (env : control_env) (g : globals) (affinity : list Z) :
  thread_affinity g = Some affinity -> 0 < num_threads g ->
  calloc_task_thread env = false \/ calloc_data_ready env = false
  \/ calloc_thread_ready env = false ->
  snd (ControlThread env g) = Fault
  /\ forall a, ~ In (EvFree a) (fst (ControlThread env g)).
Proof.
  intros Haff Hn Hfail. unfold ControlThread. rewrite Haff.
  replace (num_threads g =? 0) with false by lia.
  destruct (Z.to_nat (num_threads g)) as [|m] eqn:Em; [lia|].
  destruct (calloc_task_thread env), (calloc_data_ready env), (calloc_thread_ready env);
    try (exfalso; intuition discriminate);
    destruct (calloc_thread_data env); unfold calloc, prepend, out; rewrite Em;
    cbn [cleanup repeat load nth Z.to_nat NULL Z.eqb negb app fst snd];
    (split; [reflexivity | intros a; cbn; intuition discriminate]).
Qed.

Lemma cleanup_indexes_unallocated_array_witness :
  let env := mkControlEnv false true true true (fun _ => 11) (fun _ => 12) (fun _ => 13)
               (fun _ => false) (fun _ => 0) (fun _ => true) (fun _ => true)
               WAIT_OBJECT_0 in
  let g := mkGlobals 1 (Some [1]) None None None in
  snd (ControlThread env g) = Fault
  /\ forall a, ~ In (EvFree a) (fst (ControlThread env g)).
Proof.
  cbv zeta.
  apply (cleanup_indexes_unallocated_array _ (mkGlobals 1 (Some [1]) None None None) [1]).
  - reflexivity.
  - reflexivity.
  - left. reflexivity.
Defined.

(** One worker, and [calloc] returns [NULL] for [task_thread]: the run stops
    at [task_thread[0]] below [out]. *)
Example ControlThread_failed_alloc_ex :
  ControlThread
    (mkControlEnv false true true true (fun _ => 11) (fun _ => 12) (fun _ => 13)
       (fun _ => false) (fun _ => 0) (fun _ => true) (fun _ => true) WAIT_OBJECT_0)
    (mkGlobals 1 (Some [1]) None None None)
  = ([EvCalloc TaskThread 1 false; EvCalloc DataReady 1 true; EvCalloc ThreadReady 1 true;
      EvCalloc ThreadData 1 true; EvPrintf Stderr AllocError], Fault).
Proof. reflexivity. Qed.

(** ** The exit code of the process *)

(** When the control thread ran to its [ExitThread] and the wait on its
    handle succeeded, [main_utf8] returns 0, whatever the thread's status. *)
Lemma main_utf8_returns_zero (env : process_env) (tr : trace) (r : Z) :
  control_run (main_utf8 env) = Some (tr, ExitThread r) ->
  p_wait_control env = WAIT_OBJECT_0 ->
  exit_code (main_utf8 env) = Some 0.
Proof.
  unfold main_utf8.
  destruct (SetThreadAffinity SPARE_THREADS (p_affinity env) initial_globals) as [[ta ok] g].
  destruct ok; cbn [negb]; [|discriminate].
  destruct (p_create_control env =? NULL); [discriminate|].
  destruct (ControlThread (p_control env) g) as [tc [r'|]]; cbn [snd control_run exit_code].
  - intros _ ->. reflexivity.
  - discriminate.
Qed.

(** C3, the code at two failing inputs: one usable core, the control thread
    is created and waited for. In the first run the readiness wait of the
    first round times out, in the second the workers do not exit within
    [WAIT_TIME]. Both times the control thread exits with status 1 and
    [main_utf8] returns 0. *)
Theorem main_utf8_ignores_control_status :
  let dispatch_timeout :=
    mkControlEnv true true true true (fun _ => 11) (fun _ => 12) (fun _ => 13)
      (fun _ => false) (fun _ => WAIT_TIMEOUT) (fun _ => true) (fun _ => true)
      WAIT_OBJECT_0 in
  let shutdown_timeout :=
    mkControlEnv true true true true (fun _ => 11) (fun _ => 12) (fun _ => 13)
      (fun it => 2 <=? it) (fun _ => 0) (fun _ => true) (fun _ => true)
      WAIT_TIMEOUT in
  let run1 := main_utf8 (mkProcessEnv (mkAffinityEnv (Some 1) true) 77 dispatch_timeout
                           WAIT_OBJECT_0) in
  let run2 := main_utf8 (mkProcessEnv (mkAffinityEnv (Some 1) true) 77 shutdown_timeout
                           WAIT_OBJECT_0) in
  (exists tr, control_run run1 = Some (tr, ExitThread 1)
              /\ In (EvPrintf Stdout DispatchWaitFailed) tr)
  /\ exit_code run1 = Some 0
  /\ (exists tr, control_run run2 = Some (tr, ExitThread 1)
                 /\ In (EvPrintf Stdout ThreadsNotFinalized) tr)
  /\ exit_code run2 = Some 0.
Proof.
  cbv zeta. repeat split.
  - eexists. split; [vm_compute; reflexivity | cbn; tauto].
  - eexists. split; [vm_compute; reflexivity | cbn; tauto].
Qed.

(** * Further properties *)

(** ** The detailed runs of the control thread *)

Lemma control_run_detail_eq env g r r' :
  r = r' -> control_run_detail env g r' -> control_run_detail env g r.
Proof. now intros ->. Qed.

Lemma ControlThread_detail env g : control_run_detail env g (ControlThread env g).
Proof.
  unfold ControlThread.
  destruct (thread_affinity g) as [affinity|] eqn:Haff; [|constructor; auto].
  destruct (num_threads g =? 0) eqn:Hn; [constructor; right; lia|].
  apply Z.eqb_neq in Hn.
  destruct (all_allocated env) eqn:Hall.
  - unfold all_allocated in Hall. apply andb_prop in Hall as [Hall H4].
    apply andb_prop in Hall as [Hall H3]. apply andb_prop in Hall as [H1 H2].
    assert (Hev : alloc_events env (num_threads g)
                  = [EvCalloc TaskThread (num_threads g) true;
                     EvCalloc DataReady (num_threads g) true;
                     EvCalloc ThreadReady (num_threads g) true;
                     EvCalloc ThreadData (num_threads g) true]).
    { unfold alloc_events. now rewrite H1, H2, H3, H4. }
    assert (Hall : all_allocated env = true).
    { unfold all_allocated. now rewrite H1, H2, H3, H4. }
    rewrite H1, H2, H3, H4. cbn [calloc]. fold (zero_arrays (num_threads g)).
    destruct (create_workers env affinity (Z.to_nat (num_threads g)) 0
                (zero_arrays (num_threads g))) as [[tc a1] ok1] eqn:Ec.
    destruct ok1; cbn [negb].
    + destruct (dispatch_loop env (num_threads g) (Z.to_nat MAX_ITERATIONS) 1 a1)
        as [[td a2] ok2] eqn:Ed.
      destruct ok2; cbn [negb].
      * unfold shutdown, prepend. cbn [fst snd].
        destruct (join_result env =? WAIT_OBJECT_0) eqn:Ej.
        -- apply Z.eqb_eq in Ej.
           pose proof (RunJoined env g affinity tc a1 td a2 Haff Hn Hall Ec Ed Ej) as R.
           rewrite Hev in R. unfold shutdown_events in R.
           rewrite (proj2 (out_arrays_class _ _ 0)).
           eapply control_run_detail_eq; [|exact R].
           f_equal; repeat (progress (rewrite <- ?app_assoc; cbn [app])); reflexivity.
        -- apply Z.eqb_neq in Ej.
           pose proof (RunNotJoined env g affinity tc a1 td a2 Haff Hn Hall Ec Ed Ej) as R.
           rewrite Hev in R. unfold shutdown_events in R.
           rewrite (proj2 (out_arrays_class _ _ 1)).
           eapply control_run_detail_eq; [|exact R].
           f_equal; repeat (progress (rewrite <- ?app_assoc; cbn [app])); reflexivity.
      * pose proof (RunDispatchFailed env g affinity tc a1 td a2 Haff Hn Hall Ec Ed) as R.
        rewrite Hev in R. unfold prepend. rewrite (proj2 (out_arrays_class _ _ 1)).
        eapply control_run_detail_eq; [|exact R].
        f_equal; cbn [fst]; repeat (progress (rewrite <- ?app_assoc; cbn [app])); reflexivity.
    + pose proof (RunCreateFailed env g affinity tc a1 Haff Hn Hall Ec) as R.
      rewrite Hev in R. unfold prepend. rewrite (proj2 (out_arrays_class _ _ 1)).
      eapply control_run_detail_eq; [|exact R].
      f_equal; cbn [fst]; repeat (progress (rewrite <- ?app_assoc; cbn [app])); reflexivity.
  - pose proof (RunAllocFailed env g affinity Haff Hn Hall) as R.
    unfold all_allocated in Hall. unfold alloc_events in R.
    destruct (calloc_task_thread env), (calloc_data_ready env), (calloc_thread_ready env),
      (calloc_thread_data env); try discriminate Hall; exact R.
Qed.

(** ** Bits of the affinity word *)

Lemma set_bits_nil a : 0 <= a < 2 ^ 64 -> (set_bits a = [] <-> a = 0).
Proof.
  intros Ha. split.
  - intros E. apply Z.bits_inj'. intros j Hj. rewrite Z.bits_0.
    destruct (Z.lt_ge_cases j 64) as [Hlt|Hge]; [|now apply word64_high].
    destruct (Z.testbit a j) eqn:Hb; [|reflexivity].
    assert (Hin : In j (set_bits a)) by (apply in_set_bits; split; [lia | exact Hb]).
    rewrite E in Hin. destruct Hin.
  - intros ->. reflexivity.
Qed.

Lemma zsum_pow_positions a : forall n from,
  zsum (map (Z.pow 2) (filter (Z.testbit a) (map Z.of_nat (seq from n))))
  = 2 ^ Z.of_nat from * pack 1 (bits_of a from n).
Proof.
  unfold bits_of. induction n as [|n IH]; intros from; cbn [seq map filter pack].
  - cbn. lia.
  - specialize (IH (S from)). rewrite Nat2Z.inj_succ, Z.pow_succ_r in IH by lia.
    change (2 ^ 1) with 2.
    destruct (Z.testbit a (Z.of_nat from)); cbn [map zsum fold_right Z.b2z];
      fold (zsum (map (Z.pow 2) (filter (Z.testbit a) (map Z.of_nat (seq (S from) n)))));
      rewrite IH; ring.
Qed.

(** A 64-bit word is the sum of the powers of two of its set bits. *)
Lemma zsum_set_bits a : 0 <= a < 2 ^ 64 -> zsum (map (Z.pow 2) (set_bits a)) = a.
Proof.
  intros Ha. rewrite set_bits_eq. unfold bit_positions.
  rewrite zsum_pow_positions, pack_bits_of by lia. cbn [Z.of_nat].
  rewrite Z.pow_0_r, Z.div_1_r, Z.mod_small; lia.
Qed.

(** X1. [popcnt64] of a 64-bit word is the number of its set bits: a value
    between 0 and 64 that is 0 for the word 0 only. *)
Theorem popcnt64_counts_set_bits (a : Z) :
  0 <= a < 2 ^ 64 ->
  popcnt64 a = Z.of_nat (length (set_bits a))
  /\ 0 <= popcnt64 a <= 64
  /\ (popcnt64 a = 0 <-> a = 0).
Proof.
  intros Ha. rewrite popcnt64_usable_cores by exact Ha.
  pose proof (usable_cores_range a) as Hr. unfold usable_cores in *.
  split; [reflexivity|]. split; [exact Hr|].
  rewrite <- (set_bits_nil a Ha). destruct (set_bits a); cbn [length]; split;
    intros H; try reflexivity; try discriminate H; lia.
Qed.

Lemma popcnt64_counts_set_bits_witness :
  popcnt64 0xF0 = Z.of_nat (length (set_bits 0xF0))
  /\ 0 <= popcnt64 0xF0 <= 64
  /\ (popcnt64 0xF0 = 0 <-> 0xF0 = 0).
Proof. apply (popcnt64_counts_set_bits 0xF0). lia. Defined.

(** X2. On a non-zero 64-bit word, [affinity & (-1LL * affinity)] is the
    single bit at the lowest set position, and [affinity ^= ...] clears that
    bit and no other: the remaining set bits are the former ones without the
    lowest, and [popcnt64] drops by one. *)
Theorem lowest_bit_isolates_lowest_set_bit (a : Z) :
  0 < a < 2 ^ 64 ->
  exists k rest,
    set_bits a = k :: rest
    /\ (forall j, 0 <= j < k -> Z.testbit a j = false)
    /\ lowest_bit a = 2 ^ k
    /\ 0 <= Z.lxor a (lowest_bit a) < 2 ^ 64
    /\ set_bits (Z.lxor a (lowest_bit a)) = rest
    /\ popcnt64 (Z.lxor a (lowest_bit a)) = popcnt64 a - 1.
Proof.
  intros Ha.
  destruct (set_bits a) as [|k rest] eqn:E.
  { apply set_bits_nil in E; lia. }
  destruct (clear_lowest_bit a k rest ltac:(lia) E) as (Hlb & Hrange & Hrest).
  destruct (set_bits_head _ _ _ E) as (_ & _ & Hlow).
  exists k, rest. repeat split; auto; try lia.
  rewrite !popcnt64_usable_cores by lia. unfold usable_cores.
  rewrite Hrest, E. cbn [length]. lia.
Qed.

Lemma lowest_bit_isolates_lowest_set_bit_witness :
  exists k rest,
    set_bits 12 = k :: rest
    /\ (forall j, 0 <= j < k -> Z.testbit 12 j = false)
    /\ lowest_bit 12 = 2 ^ k
    /\ 0 <= Z.lxor 12 (lowest_bit 12) < 2 ^ 64
    /\ set_bits (Z.lxor 12 (lowest_bit 12)) = rest
    /\ popcnt64 (Z.lxor 12 (lowest_bit 12)) = popcnt64 12 - 1.
Proof. apply (lowest_bit_isolates_lowest_set_bit 12). lia. Defined.

(** ** The affinity loop beyond the set bits *)

Lemma store_load_same (l : list Z) i : store l i (load l i) = l.
Proof.
  unfold store, load. generalize (Z.to_nat i) as k.
  induction l as [|x l IH]; intros [|k]; simpl; auto. now rewrite IH.
Qed.

Lemma spread_affinity_zero todo : forall i masks, spread_affinity todo i 0 masks = masks.
Proof.
  induction todo as [|todo IH]; intros i masks; cbn [spread_affinity]; [reflexivity|].
  change (lowest_bit 0) with 0. rewrite Z.lor_0_r, store_load_same.
  change (Z.lxor 0 0) with 0. apply IH.
Qed.

Lemma spread_affinity_general todo : forall affinity done,
  0 <= affinity < 2 ^ 64 ->
  spread_affinity todo (Z.of_nat (length done)) affinity (done ++ repeat 0 todo)
  = done ++ map (Z.pow 2) (firstn todo (set_bits affinity))
         ++ repeat 0 (todo - length (set_bits affinity)).
Proof.
  induction todo as [|todo IH]; intros affinity done Ha.
  - reflexivity.
  - destruct (set_bits affinity) as [|k rest] eqn:E.
    + apply set_bits_nil in E; [|exact Ha]. subst affinity.
      rewrite spread_affinity_zero. reflexivity.
    + destruct (clear_lowest_bit _ _ _ Ha E) as (Hlb & Hrange & Hrest).
      cbn [spread_affinity repeat firstn map length Nat.sub].
      rewrite load_middle, store_middle, Z.lor_0_l.
      replace (Z.of_nat (length done) + 1)
        with (Z.of_nat (length (done ++ [lowest_bit affinity])))
        by (rewrite length_app; simpl; lia).
      replace (done ++ lowest_bit affinity :: repeat 0 todo)
        with ((done ++ [lowest_bit affinity]) ++ repeat 0 todo)
        by (now rewrite <- app_assoc).
      rewrite IH by assumption.
      rewrite Hrest, Hlb, <- app_assoc. reflexivity.
Qed.

(** X3. The affinity loop run for any number of workers on a 64-bit word:
    the first masks are the single bits of the word from the lowest up, and
    once the set bits are used up the remaining masks stay 0 (the masks for
    which [ControlThread] skips [SetThreadAffinityMask]). *)
Theorem spread_affinity_beyond_set_bits (todo : nat) (affinity : Z) :
  0 <= affinity < 2 ^ 64 ->
  spread_affinity todo 0 affinity (repeat 0 todo)
  = map (Z.pow 2) (firstn todo (set_bits affinity))
    ++ repeat 0 (todo - length (set_bits affinity)).
Proof.
  intros Ha. exact (spread_affinity_general todo affinity [] Ha).
Qed.

Lemma spread_affinity_beyond_set_bits_witness :
  spread_affinity 4 0 5 (repeat 0 4%nat)
  = map (Z.pow 2) (firstn 4 (set_bits 5)) ++ repeat 0 (4 - length (set_bits 5)).
Proof. apply (spread_affinity_beyond_set_bits 4 5). lia. Defined.

(** ** More on the planner *)

Lemma SetThreadAffinity_result (spare a : Z) (env : affinity_env) (g : globals) :
  process_affinity env = Some a -> 0 <= a < 2 ^ 64 ->
  SetThreadAffinity spare env g
  = if usable_cores a <=? dword_operand spare then
      ([], false,
       mkGlobals (usable_cores a) (thread_affinity g)
                 (data_ready g) (thread_ready g) (thread_data g))
    else if calloc_affinity env then
      ([EvCalloc ThreadAffinity (wrap32 (usable_cores a - spare)) true], true,
       mkGlobals (wrap32 (usable_cores a - spare))
         (Some (spread_affinity (Z.to_nat (wrap32 (usable_cores a - spare))) 0 a
                  (repeat 0 (Z.to_nat (wrap32 (usable_cores a - spare))))))
         (data_ready g) (thread_ready g) (thread_data g))
    else
      ([EvCalloc ThreadAffinity (wrap32 (usable_cores a - spare)) false;
        EvPrintf Stderr AllocAffinityError], false,
       mkGlobals (wrap32 (usable_cores a - spare)) None
                 (data_ready g) (thread_ready g) (thread_data g)).
Proof.
  intros Hproc Ha. unfold SetThreadAffinity.
  rewrite Hproc, popcnt64_usable_cores by exact Ha.
  destruct (usable_cores a <=? dword_operand spare); [reflexivity|].
  destruct (calloc_affinity env); reflexivity.
Qed.

(** X4. Once [GetProcessAffinityMask] has answered with a 64-bit word,
    [SetThreadAffinity] with an [int] for [SPARE_THREADS] returns [TRUE]
    exactly when the spare count is not negative, the word has more set bits
    than there are spare threads, and [calloc] returns memory. A negative
    spare count never succeeds: compared with the [DWORD] [num_threads] it
    is a number of at least [2^31]. *)
Theorem SetThreadAffinity_succeeds_iff
    (spare a : Z) (env : affinity_env) (g : globals) :
  - 2 ^ 31 <= spare < 2 ^ 31 ->
  process_affinity env = Some a -> 0 <= a < 2 ^ 64 ->
  (snd (fst (SetThreadAffinity spare env g)) = true
   <-> 0 <= spare < usable_cores a /\ calloc_affinity env = true).
Proof.
  intros Hs Hproc Ha. rewrite (SetThreadAffinity_result spare a env g Hproc Ha).
  pose proof (usable_cores_range a) as Hr.
  destruct (Z.lt_ge_cases spare 0) as [Hneg | Hpos].
  - rewrite dword_operand_negative_int by lia.
    replace (usable_cores a <=? spare + 2 ^ 32) with true by lia. cbn [fst snd].
    split; [discriminate | lia].
  - rewrite dword_operand_nonneg by exact Hpos.
    destruct (usable_cores a <=? spare) eqn:Hc; cbn [fst snd].
    + apply Z.leb_le in Hc. split; [discriminate | lia].
    + apply Z.leb_gt in Hc. destruct (calloc_affinity env); cbn [fst snd]; split; auto;
        try discriminate; intros [_ H]; discriminate H.
Qed.

Lemma SetThreadAffinity_succeeds_iff_witness :
  (snd (fst (SetThreadAffinity 2 (mkAffinityEnv (Some 7) true) initial_globals)) = true
   <-> 0 <= 2 < usable_cores 7 /\ calloc_affinity (mkAffinityEnv (Some 7) true) = true)
  /\ (snd (fst (SetThreadAffinity (-1) (mkAffinityEnv (Some 3) true) initial_globals)) = true
      <-> 0 <= -1 < usable_cores 3 /\ calloc_affinity (mkAffinityEnv (Some 3) true) = true).
Proof.
  split.
  - apply (SetThreadAffinity_succeeds_iff 2 7 (mkAffinityEnv (Some 7) true) initial_globals).
    + lia.
    + reflexivity.
    + lia.
  - apply (SetThreadAffinity_succeeds_iff (-1) 3 (mkAffinityEnv (Some 3) true)
             initial_globals).
    + lia.
    + reflexivity.
    + lia.
Defined.

(** X5. [SetThreadAffinity] never touches the three arrays of the control
    thread, and when it returns [FALSE] on globals that hold no mask array it
    leaves none: [ControlThread] then stops at its first test, with status 1
    and without a single call. *)
Theorem failed_plan_blocks_ControlThread
    (spare : Z) (env : affinity_env) (g : globals) :
  thread_affinity g = None ->
  snd (fst (SetThreadAffinity spare env g)) = false ->
  let g' := snd (SetThreadAffinity spare env g) in
  thread_affinity g' = None
  /\ data_ready g' = data_ready g /\ thread_ready g' = thread_ready g
  /\ thread_data g' = thread_data g
  /\ forall cenv, ControlThread cenv g' = ([], ExitThread 1).
Proof.
  intros Hnone Hfail. cbv zeta.
  assert (H : thread_affinity (snd (SetThreadAffinity spare env g)) = None
              /\ data_ready (snd (SetThreadAffinity spare env g)) = data_ready g
              /\ thread_ready (snd (SetThreadAffinity spare env g)) = thread_ready g
              /\ thread_data (snd (SetThreadAffinity spare env g)) = thread_data g).
  { revert Hfail. unfold SetThreadAffinity.
    destruct (process_affinity env) as [a|]; [|cbn; auto].
    destruct (popcnt64 a <=? dword_operand spare); [cbn; auto|].
    destruct (calloc_affinity env); cbn; auto. discriminate. }
  destruct H as (H1 & H2 & H3 & H4). repeat split; auto.
  intros cenv. unfold ControlThread. now rewrite H1.
Qed.

Lemma failed_plan_blocks_ControlThread_witness :
  let g' := snd (SetThreadAffinity 0 (mkAffinityEnv (Some 3) false) initial_globals) in
  thread_affinity g' = None
  /\ data_ready g' = data_ready initial_globals
  /\ thread_ready g' = thread_ready initial_globals
  /\ thread_data g' = thread_data initial_globals
  /\ forall cenv, ControlThread cenv g' = ([], ExitThread 1).
Proof.
  apply (failed_plan_blocks_ControlThread 0 (mkAffinityEnv (Some 3) false) initial_globals).
  - reflexivity.
  - reflexivity.
Defined.

(** X6. When [SetThreadAffinity] returns [TRUE], the globals it leaves pass
    the test at the head of [ControlThread]: the worker count lies between 1
    and 64 (the most handles one [WaitForMultipleObjects] call takes), there
    is one mask per worker and no mask is 0. With no spare thread the masks
    add up to the affinity word: every usable processor gets exactly one
    worker. *)
Theorem plan_configures_ControlThread
    (spare a : Z) (env : affinity_env) (g : globals) :
  0 <= spare -> process_affinity env = Some a -> 0 <= a < 2 ^ 64 ->
  snd (fst (SetThreadAffinity spare env g)) = true ->
  let g' := snd (SetThreadAffinity spare env g) in
  1 <= num_threads g' <= 64
  /\ exists masks,
       thread_affinity g' = Some masks
       /\ Z.of_nat (length masks) = num_threads g'
       /\ Forall (fun m => m <> 0) masks
       /\ (spare = 0 -> zsum masks = a).
Proof.
  intros Hs Hproc Ha Hok. cbv zeta. revert Hok.
  rewrite (SetThreadAffinity_result spare a env g Hproc Ha).
  pose proof (usable_cores_range a) as Hr.
  rewrite dword_operand_nonneg by exact Hs.
  destruct (usable_cores a <=? spare) eqn:Hc; [discriminate|].
  apply Z.leb_gt in Hc.
  destruct (calloc_affinity env); [|discriminate]. intros _. cbn [fst snd num_threads thread_affinity].
  unfold wrap32. rewrite Z.mod_small by lia.
  set (n := Z.to_nat (usable_cores a - spare)).
  assert (Hn : (n <= length (set_bits a))%nat) by (unfold usable_cores in *; lia).
  pose proof (spread_affinity_masks n a [] Ha Hn) as E.
  cbn [length app Z.of_nat] in E. rewrite E.
  split; [lia|]. exists (map (Z.pow 2) (firstn n (set_bits a))).
  split; [reflexivity|]. split; [|split].
  - rewrite length_map, length_firstn. lia.
  - apply Forall_forall. intros m Hm. apply in_map_iff in Hm as (k & <- & Hk).
    apply firstn_incl, in_set_bits in Hk.
    assert (0 < 2 ^ k) by (apply Z.pow_pos_nonneg; lia). lia.
  - intros ->. replace n with (length (set_bits a)) by (unfold n, usable_cores; lia).
    rewrite firstn_all. apply zsum_set_bits, Ha.
Qed.

Lemma plan_configures_ControlThread_witness :
  let g' := snd (SetThreadAffinity 0 (mkAffinityEnv (Some 0x1A) true) initial_globals) in
  1 <= num_threads g' <= 64
  /\ exists masks,
       thread_affinity g' = Some masks
       /\ Z.of_nat (length masks) = num_threads g'
       /\ Forall (fun m => m <> 0) masks
       /\ (0 = 0 -> zsum masks = 0x1A).
Proof.
  apply (plan_configures_ControlThread 0 0x1A (mkAffinityEnv (Some 0x1A) true)
           initial_globals).
  - lia.
  - reflexivity.
  - lia.
  - reflexivity.
Defined.

(** ** Handles *)

Lemma load_zeros len j : load (repeat 0 len) j = 0.
Proof.
  unfold load. generalize (Z.to_nat j) as k. induction len as [|len IH]; intros [|k]; simpl; auto.
Qed.

Lemma create_workers_preserves env affinity todo : forall i a tr a' ok,
  0 <= i -> create_workers env affinity todo i a = (tr, a', ok) ->
  same_below i a a'
  /\ (forall m, handles_length a m -> handles_length a' m)
  /\ a_thread_data a' = a_thread_data a.
Proof.
  induction todo as [|todo IH]; intros i a tr a' ok Hi E; cbn [create_workers] in E.
  - injection E as _ <- _. split; [now intros j Hj | split; auto].
  - assert (Hstep : forall b,
              a_task_thread b = a_task_thread a \/ a_task_thread b
                = store (a_task_thread a) i (create_thread env i) ->
              a_data_ready b = store (a_data_ready a) i (create_data_ready env i) ->
              a_thread_ready b = store (a_thread_ready a) i (create_thread_ready env i) ->
              same_below i a b /\ (forall m, handles_length a m -> handles_length b m)).
    { intros b H1 H2 H3. split.
      - intros j Hj. rewrite H2, H3, !load_store_other by lia.
        destruct H1 as [-> | ->]; rewrite ?load_store_other by lia; auto.
      - intros m (L1 & L2 & L3). unfold handles_length.
        rewrite H2, H3, !store_length.
        destruct H1 as [-> | ->]; rewrite ?store_length; auto. }
    destruct ((create_data_ready env i =? NULL) || (create_thread_ready env i =? NULL)).
    { injection E as _ <- _.
      match goal with |- same_below i a ?b /\ _ =>
        destruct (Hstep b (or_introl eq_refl) eq_refl eq_refl) end.
      split; [assumption | split; [assumption | reflexivity]]. }
    destruct (create_thread env i =? NULL).
    { injection E as _ <- _.
      match goal with |- same_below i a ?b /\ _ =>
        destruct (Hstep b (or_intror eq_refl) eq_refl eq_refl) end.
      split; [assumption | split; [assumption | reflexivity]]. }
    match type of E with context [create_workers env affinity todo ?k ?b] =>
      pose proof (Hstep b (or_intror eq_refl) eq_refl eq_refl) as [Hs Hl];
      specialize (IH k b);
      destruct (create_workers env affinity todo k b) as [[tr3 a3] ok3] end.
    injection E as _ <- _.
    destruct (IH tr3 a3 ok3 ltac:(lia) eq_refl) as (Hs' & Hl' & Hd).
    split; [|split; [auto | exact Hd]].
    intros j Hj. destruct (Hs j Hj) as (E1 & E2 & E3).
    destruct (Hs' j ltac:(lia)) as (F1 & F2 & F3).
    rewrite F1, F2, F3. auto.
Qed.

Lemma handle_recorded_weaken a lo lo' hi e :
  lo' <= lo -> handle_recorded a lo hi e -> handle_recorded a lo' hi e.
Proof.
  intros Hlo. destruct e as [| | | [] j h | [] h | | | | | | | | | | | | | |];
    cbn; auto; intros [H1 H2]; (split; [lia | exact H2]).
Qed.

(** Every creation event of the loop is recorded in the arrays the loop
    leaves. *)
Lemma create_workers_events env affinity todo : forall i a tr a' ok,
  0 <= i -> handles_length a (Z.to_nat i + todo) ->
  create_workers env affinity todo i a = (tr, a', ok) ->
  Forall (handle_recorded a' i (i + Z.of_nat todo)) tr.
Proof.
  induction todo as [|todo IH]; intros i a tr a' ok Hi Hlen E; cbn [create_workers] in E.
  - injection E as <- _ _. constructor.
  - destruct Hlen as (L1 & L2 & L3).
    destruct ((create_data_ready env i =? NULL) || (create_thread_ready env i =? NULL)).
    { injection E as <- <- _. cbn [app].
      repeat constructor; cbn [handle_recorded a_data_ready a_thread_ready];
        try lia; apply load_store_same; lia. }
    destruct (create_thread env i =? NULL).
    { injection E as <- <- _. cbn [app].
      repeat constructor;
        cbn [handle_recorded a_data_ready a_thread_ready a_task_thread];
        try lia; apply load_store_same; lia. }
    match type of E with context [create_workers env affinity todo ?k ?b] =>
      pose proof (create_workers_preserves env affinity todo k b) as Hp;
      specialize (IH k b);
      destruct (create_workers env affinity todo k b) as [[tr3 a3] ok3] end.
    injection E as <- <- _.
    destruct (Hp tr3 a3 ok3 ltac:(lia) eq_refl) as (Hs & _ & _).
    destruct (Hs i ltac:(lia)) as (E1 & E2 & E3).
    cbn [a_task_thread a_data_ready a_thread_ready] in E1, E2, E3.
    rewrite !load_store_same in E1, E2, E3 by (rewrite ?store_length; lia).
    assert (Hrest : Forall (handle_recorded a3 i (i + Z.of_nat (S todo))) tr3).
    { eapply Forall_impl;
        [| apply (IH tr3 a3 ok3); [lia | | reflexivity]].
      - intros e He. replace (i + Z.of_nat (S todo)) with (i + 1 + Z.of_nat todo) by lia.
        apply (handle_recorded_weaken a3 (i + 1)); [lia | exact He].
      - unfold handles_length. cbn [a_task_thread a_data_ready a_thread_ready].
        rewrite !store_length. lia. }
    rewrite <- ?app_assoc. cbn [app].
    repeat (apply Forall_cons; [cbn [handle_recorded]; try (split; [lia | assumption])|]).
    + exact I.
    + apply Forall_app. split; [|exact Hrest].
      destruct (negb (load affinity i =? 0)); repeat constructor.
Qed.

(** The loop below [out] closes every event and terminates every thread
    whose handle is in the arrays, and nothing else. *)
Lemma cleanup_handles todo : forall i th dr rr,
  let t := fst (cleanup todo i (Some th) (Some dr) (Some rr)) in
  (forall j, i <= j < i + Z.of_nat todo ->
     (load th j <> NULL -> In (EvTerminateThread j (load th j)) t)
     /\ (load dr j <> NULL -> In (EvCloseHandle DataReady j (load dr j)) t)
     /\ (load rr j <> NULL -> In (EvCloseHandle ThreadReady j (load rr j)) t))
  /\ (forall j h, In (EvTerminateThread j h) t ->
        i <= j < i + Z.of_nat todo /\ h = load th j /\ h <> NULL).
Proof.
  induction todo as [|todo IH]; intros i th dr rr; cbn [cleanup].
  - cbn. split; [intros; lia | intros j h []].
  - specialize (IH (i + 1) th dr rr).
    destruct (cleanup todo (i + 1) (Some th) (Some dr) (Some rr)) as [tr ok].
    cbn [fst] in *. destruct IH as [IH1 IH2]. split.
    + intros j Hj. destruct (Z.eq_dec j i) as [->|Hne].
      * repeat split; intros H; apply Z.eqb_neq in H; rewrite H; cbn [negb];
          repeat (apply in_or_app; (left; now left) || right).
      * destruct (IH1 j ltac:(lia)) as (H1 & H2 & H3).
        repeat split; intros H; repeat (apply in_or_app; right); auto.
    + intros j h Hin.
      apply in_app_or in Hin as [Hin | Hin].
      { destruct (load th i =? NULL) eqn:E; cbn [negb] in Hin; [destruct Hin|].
        destruct Hin as [Hin | []]. injection Hin as <- <-.
        apply Z.eqb_neq in E. repeat split; auto; lia. }
      apply in_app_or in Hin as [Hin | Hin].
      { destruct (negb _); [destruct Hin as [Hin | []]; discriminate Hin | destruct Hin]. }
      apply in_app_or in Hin as [Hin | Hin].
      { destruct (negb _); [destruct Hin as [Hin | []]; discriminate Hin | destruct Hin]. }
      destruct (IH2 j h Hin) as (H1 & H2 & H3). repeat split; auto; lia.
Qed.

Lemma cleanup_zeros todo : forall i task dready tready,
  (forall th, task = Some th -> forall j, load th j = 0) ->
  (forall dr, dready = Some dr -> forall j, load dr j = 0) ->
  (forall rr, tready = Some rr -> forall j, load rr j = 0) ->
  fst (cleanup todo i task dready tready) = [].
Proof.
  induction todo as [|todo IH]; intros i task dready tready H1 H2 H3; cbn [cleanup];
    [reflexivity|].
  destruct task as [th|]; [|reflexivity]. rewrite (H1 th eq_refl).
  destruct dready as [dr|]; [|reflexivity]. rewrite (H2 dr eq_refl).
  destruct tready as [rr|]; [|reflexivity]. rewrite (H3 rr eq_refl).
  specialize (IH (i + 1) (Some th) (Some dr) (Some rr) H1 H2 H3).
  destruct (cleanup todo (i + 1) (Some th) (Some dr) (Some rr)) as [tr ok].
  cbn [fst] in *. now rewrite IH.
Qed.

Lemma calloc_zeros ok n th : calloc ok n = Some th -> forall j, load th j = 0.
Proof.
  unfold calloc. destruct ok; [|discriminate]. intros E j. injection E as <-.
  apply load_zeros.
Qed.

(** A run either stops before any worker is created, or it consists of the
    allocations, the creation loop, a middle part and the code below [out]
    on arrays that hold the events the creation loop recorded. *)
Lemma ControlThread_anatomy env g :
  ((thread_affinity g = None \/ num_threads g = 0 \/ all_allocated env = false)
   /\ Forall (fun x => alloc_only_event x = true) (fst (ControlThread env g))
   /\ snd (ControlThread env g) <> ExitThread 0)
  \/ exists affinity tc a1 ok1 mid aF r,
       thread_affinity g = Some affinity /\ num_threads g <> 0
       /\ create_workers env affinity (Z.to_nat (num_threads g)) 0
            (zero_arrays (num_threads g))
          = (tc, a1, ok1)
       /\ ControlThread env g
          = (alloc_events env (num_threads g)
             ++ [EvPrintf Stdout (CreatingThreads (num_threads g))]
             ++ tc ++ mid ++ fst (out_arrays (num_threads g) aF r), ExitThread r)
       /\ Forall (fun x => middle_event x = true) mid
       /\ a_data_ready aF = a_data_ready a1 /\ a_thread_ready aF = a_thread_ready a1
       /\ ((r = 1 /\ a_task_thread aF = a_task_thread a1)
           \/ (r = 0 /\ (forall j, load (a_task_thread aF) j = 0))).
Proof.
  assert (Hd : forall t, Forall (fun x => dispatch_event x = true) t ->
                         Forall (fun x => middle_event x = true) t).
  { intros t. apply Forall_impl. unfold middle_event. now intros x ->. }
  assert (Hs : Forall (fun x => middle_event x = true) (shutdown_events env (num_threads g))).
  { unfold shutdown_events. repeat (apply Forall_app; split); [repeat constructor | |].
    - eapply Forall_impl; [|apply broadcast_class]. unfold middle_event.
      intros x ->. apply orb_true_r.
    - repeat constructor. }
  destruct (ControlThread_detail env g) as
    [Hcfg | aff Haff Hn Hall | aff tc a1 Haff Hn Hall Ec | aff tc a1 td a2 Haff Hn Hall Ec Ed
     | aff tc a1 td a2 Haff Hn Hall Ec Ed Ej | aff tc a1 td a2 Haff Hn Hall Ec Ed Ej].
  - left. split; [tauto|]. split; [constructor | discriminate].
  - left. split; [tauto|]. unfold prepend, out.
    rewrite (surjective_pairing (cleanup _ _ _ _ _)),
      (cleanup_zeros _ _ _ _ _ (calloc_zeros _ _) (calloc_zeros _ _) (calloc_zeros _ _)).
    destruct (snd (cleanup _ _ _ _ _)); cbn [fst snd app]; (split; [|discriminate]);
      unfold alloc_events; repeat constructor.
  - right. exists aff, tc, a1, false, [], a1, 1. cbn [app].
    split; [exact Haff|]. split; [exact Hn|]. repeat split; auto.
  - right. exists aff, tc, a1, true, td, a2, 1.
    pose proof (dispatch_loop_handles env (num_threads g) (Z.to_nat MAX_ITERATIONS) 1 a1) as Hh.
    rewrite Ed in Hh. destruct Hh as (H1 & H2 & H3).
    split; [exact Haff|]. split; [exact Hn|]. split; [exact Ec|]. split; [reflexivity|].
    split; [apply Hd; exact (dispatch_run_class _ _ _ _ _ _ Ed)|].
    split; [exact H2|]. split; [exact H3|]. left. split; [reflexivity | exact H1].
  - right.
    exists aff, tc, a1, true, (td ++ shutdown_events env (num_threads g)
                                 ++ [EvMemsetZero TaskThread]), (joined_arrays a2), 0.
    pose proof (dispatch_loop_handles env (num_threads g) (Z.to_nat MAX_ITERATIONS) 1 a1) as Hh.
    rewrite Ed in Hh. destruct Hh as (H1 & H2 & H3).
    split; [exact Haff|]. split; [exact Hn|]. split; [exact Ec|]. split; [now rewrite <- !app_assoc|]. split.
    { apply Forall_app; split; [apply Hd; exact (dispatch_run_class _ _ _ _ _ _ Ed)|].
      apply Forall_app; split; [exact Hs | repeat constructor]. }
    split; [exact H2|]. split; [exact H3|]. right. split; [reflexivity|].
    intros j. apply load_zeros.
  - right.
    exists aff, tc, a1, true, (td ++ shutdown_events env (num_threads g)
                                 ++ [EvPrintf Stdout ThreadsNotFinalized]), (cleared_slots a2), 1.
    pose proof (dispatch_loop_handles env (num_threads g) (Z.to_nat MAX_ITERATIONS) 1 a1) as Hh.
    rewrite Ed in Hh. destruct Hh as (H1 & H2 & H3).
    split; [exact Haff|]. split; [exact Hn|]. split; [exact Ec|]. split; [now rewrite <- !app_assoc|]. split.
    { apply Forall_app; split; [apply Hd; exact (dispatch_run_class _ _ _ _ _ _ Ed)|].
      apply Forall_app; split; [exact Hs | repeat constructor]. }
    split; [exact H2|]. split; [exact H3|]. left. split; [reflexivity | exact H1].
Qed.

Lemma cleanup_release todo : forall i task dready tready,
  Forall (fun x => release_event x = true) (fst (cleanup todo i task dready tready)).
Proof.
  induction todo as [|todo IH]; intros i task dready tready; cbn [cleanup]; [constructor|].
  destruct task as [th|]; [|constructor].
  destruct dready as [dr|]; [|destruct (negb (load th i =? NULL)); repeat constructor].
  destruct tready as [rr|].
  - specialize (IH (i + 1) (Some th) (Some dr) (Some rr)).
    destruct (cleanup todo (i + 1) (Some th) (Some dr) (Some rr)) as [tr ok].
    cbn [fst] in *. repeat (apply Forall_app; split); auto;
      match goal with |- context [if ?b then _ else _] => destruct b end; repeat constructor.
  - cbn [fst]. apply Forall_app; split;
      match goal with |- context [if ?b then _ else _] => destruct b end; repeat constructor.
Qed.

Lemma out_arrays_frees n a r :
  out_arrays n a r
  = (fst (cleanup (Z.to_nat n) 0 (Some (a_task_thread a)) (Some (a_data_ready a))
            (Some (a_thread_ready a))) ++ free_events, ExitThread r).
Proof.
  unfold out_arrays, out.
  pose proof (cleanup_allocated (Z.to_nat n) 0 (a_task_thread a) (a_data_ready a)
                (a_thread_ready a)) as Hok.
  destruct (cleanup _ _ _ _ _) as [tr ok]. cbn [fst snd] in *. now subst ok.
Qed.

Lemma setup_not_free e a : setup_event e = true -> e <> EvFree a.
Proof. intros H ->. discriminate H. Qed.

Lemma run_body_no_free (t1 tc mid cl : trace) a :
  Forall (fun x => setup_event x = true) t1 ->
  Forall (fun x => setup_event x = true) tc ->
  Forall (fun x => middle_event x = true) mid ->
  Forall (fun x => release_event x = true) cl ->
  ~ In (EvFree a) (t1 ++ tc ++ mid ++ cl).
Proof.
  intros H1 H2 H3 H4 Hin.
  repeat (apply in_app_or in Hin as [Hin | Hin]).
  - exact (class_not_in setup_event _ (EvFree a) H1 eq_refl Hin).
  - exact (class_not_in setup_event _ (EvFree a) H2 eq_refl Hin).
  - exact (class_not_in middle_event _ (EvFree a) H3 eq_refl Hin).
  - exact (class_not_in release_event _ (EvFree a) H4 eq_refl Hin).
Qed.

(** ** Releasing what was acquired *)

(** X7. When [ControlThread] is configured and [calloc] returns the three
    handle arrays, the run never stops inside the loop below [out]: it ends
    with [ExitThread], status 0 or 1, and its last four calls free
    [data_ready], [thread_ready], [task_thread] and [thread_data], each
    once. *)
Theorem allocated_run_frees_once (env : control_env) (g : globals) (affinity : list Z) :
  thread_affinity g = Some affinity -> num_threads g <> 0 ->
  calloc_task_thread env = true -> calloc_data_ready env = true ->
  calloc_thread_ready env = true ->
  exists t r,
    ControlThread env g = (t ++ free_events, ExitThread r)
    /\ (r = 0 \/ r = 1)
    /\ forall a, ~ In (EvFree a) t.
Proof.
  intros Haff Hn H1 H2 H3.
  destruct (ControlThread_anatomy env g) as
    [(Hwhy & _ & _) | (aff & tc & a1 & ok1 & mid & aF & r & _ & _ & Ec & E & Hmid & _ & _ & Hr)].
  - destruct Hwhy as [Hwhy | [Hwhy | Hwhy]]; try congruence.
    unfold all_allocated in Hwhy. rewrite H1, H2, H3 in Hwhy. cbn [andb] in Hwhy.
    unfold ControlThread. rewrite Haff, H1, H2, H3, Hwhy.
    apply Z.eqb_neq in Hn. rewrite Hn. cbn [calloc]. unfold prepend, out.
    pose proof (cleanup_allocated (Z.to_nat (num_threads g)) 0
                  (repeat 0 (Z.to_nat (num_threads g))) (repeat 0 (Z.to_nat (num_threads g)))
                  (repeat 0 (Z.to_nat (num_threads g)))) as Hok.
    pose proof (cleanup_zeros (Z.to_nat (num_threads g)) 0
                  (Some (repeat 0 (Z.to_nat (num_threads g))))
                  (Some (repeat 0 (Z.to_nat (num_threads g))))
                  (Some (repeat 0 (Z.to_nat (num_threads g))))) as Hz.
    destruct (cleanup _ _ _ _ _) as [cl ok]. cbn [fst snd] in *. subst ok.
    rewrite Hz by (intros th [= <-] j; apply load_zeros). cbn [app fst snd].
    eexists [_; _; _; _; _], 1. cbn [app]. split; [reflexivity|]. split; [auto|].
    intros a Hin. cbn in Hin. intuition discriminate.
  - rewrite E, out_arrays_frees. cbn [fst].
    exists (alloc_events env (num_threads g)
            ++ [EvPrintf Stdout (CreatingThreads (num_threads g))] ++ tc ++ mid
            ++ fst (cleanup (Z.to_nat (num_threads g)) 0 (Some (a_task_thread aF))
                      (Some (a_data_ready aF)) (Some (a_thread_ready aF)))), r.
    split; [f_equal; now rewrite <- !app_assoc|]. split; [tauto|].
    intros a. rewrite (app_assoc (alloc_events _ _)).
    apply run_body_no_free; auto.
    + unfold alloc_events. repeat constructor.
    + pose proof (create_workers_class env aff (Z.to_nat (num_threads g)) 0
                    (zero_arrays (num_threads g))) as Hc.
      now rewrite Ec in Hc.
    + apply cleanup_release.
Qed.

Lemma allocated_run_frees_once_witness :
  let env := mkControlEnv true true true false (fun _ => 11) (fun _ => 12) (fun _ => 13)
               (fun _ => false) (fun _ => 0) (fun _ => true) (fun _ => true)
               WAIT_OBJECT_0 in
  let g := mkGlobals 2 (Some [1; 2]) None None None in
  exists t r,
    ControlThread env g = (t ++ free_events, ExitThread r)
    /\ (r = 0 \/ r = 1)
    /\ forall a, ~ In (EvFree a) t.
Proof.
  cbv zeta. apply (allocated_run_frees_once _ _ [1; 2]); try reflexivity. discriminate.
Defined.

Lemma load_store_cases l i j v :
  0 <= i -> 0 <= j ->
  load (store l i v) j = load l j \/ (j = i /\ load (store l i v) j = v).
Proof.
  intros Hi Hj. destruct (Z.eq_dec j i) as [->|Hne].
  - destruct (Nat.lt_ge_cases (Z.to_nat i) (length l)) as [Hlt|Hge].
    + right. split; [reflexivity | now apply load_store_same].
    + left. unfold load, store. rewrite !nth_overflow; auto.
      now rewrite store_nat_length.
  - left. apply load_store_other; auto.
Qed.

(** An entry of [task_thread] the creation loop changed is the handle of a
    [CreateThread] event of the loop. *)
Lemma create_workers_entries env affinity todo : forall i a tr a' ok,
  0 <= i -> create_workers env affinity todo i a = (tr, a', ok) ->
  forall j, 0 <= j ->
    load (a_task_thread a') j = load (a_task_thread a) j
    \/ In (EvCreateThread (Worker j) (load (a_task_thread a') j)) tr.
Proof.
  induction todo as [|todo IH]; intros i a tr a' ok Hi E j Hj; cbn [create_workers] in E.
  - injection E as _ <- _. now left.
  - destruct ((create_data_ready env i =? NULL) || (create_thread_ready env i =? NULL)).
    { injection E as _ <- _. now left. }
    destruct (create_thread env i =? NULL).
    { injection E as <- <- _. cbn [a_task_thread].
      destruct (load_store_cases (a_task_thread a) i j (create_thread env i) Hi Hj)
        as [-> | [-> ->]]; [now left|].
      right. cbn. tauto. }
    match type of E with context [create_workers env affinity todo ?k ?b] =>
      specialize (IH k b);
      destruct (create_workers env affinity todo k b) as [[tr3 a3] ok3] end.
    injection E as <- <- _.
    destruct (IH tr3 a3 ok3 ltac:(lia) eq_refl j Hj) as [E3 | Hin].
    + rewrite E3. cbn [a_task_thread].
      destruct (load_store_cases (a_task_thread a) i j (create_thread env i) Hi Hj)
        as [-> | [-> ->]]; [now left|].
      right. cbn. tauto.
    + right. cbn. do 4 right. apply in_or_app. now right.
Qed.

(** The creation loop prints a diagnostic exactly when it leaves through
    [goto out]. *)
Lemma create_workers_error env affinity todo : forall i a,
  let '(t, _, ok) := create_workers env affinity todo i a in
  existsb setup_error t = negb ok.
Proof.
  induction todo as [|todo IH]; intros i a; cbn [create_workers]; [reflexivity|].
  destruct ((create_data_ready env i =? NULL) || (create_thread_ready env i =? NULL));
    [reflexivity|].
  destruct (create_thread env i =? NULL); [reflexivity|].
  match goal with |- context [create_workers env affinity todo ?j ?b] =>
    specialize (IH j b); destruct (create_workers env affinity todo j b) as [[tr a3] ok] end.
  rewrite <- !app_assoc. cbn [app existsb setup_error orb].
  rewrite existsb_app, IH.
  destruct (negb (load affinity i =? 0)); reflexivity.
Qed.

Lemma zero_arrays_length n : handles_length (zero_arrays n) (Z.to_nat 0 + Z.to_nat n).
Proof. unfold handles_length, zero_arrays. cbn. rewrite !repeat_length. auto. Qed.

Lemma in_run_cases (t0 tc mid cl : trace) (p e : event) :
  In e (t0 ++ [p] ++ tc ++ mid ++ cl ++ free_events) ->
  In e t0 \/ e = p \/ In e tc \/ In e mid \/ In e cl \/ In e free_events.
Proof.
  intros H.
  apply in_app_or in H as [H | H]; [now left|]. right.
  destruct H as [H | H]; [now left|]. right. cbn [app] in H.
  apply in_app_or in H as [H | H]; [now left|]. right.
  apply in_app_or in H as [H | H]; [now left|]. right.
  apply in_app_or in H as [H | H]; [now left | now right].
Qed.

Lemma in_run_cleanup (t0 tc mid cl : trace) (p e : event) :
  In e cl -> In e (t0 ++ [p] ++ tc ++ mid ++ cl ++ free_events).
Proof.
  intros H. apply in_or_app. right. right. cbn [app].
  apply in_or_app. right. apply in_or_app. right. apply in_or_app. now left.
Qed.

Lemma in_run_created (t0 tc mid cl : trace) (p e : event) :
  In e tc -> In e (t0 ++ [p] ++ tc ++ mid ++ cl ++ free_events).
Proof.
  intros H. apply in_or_app. right. right. cbn [app]. apply in_or_app. now left.
Qed.

(** X8. Every event object a run of [ControlThread] creates is closed in
    that run: for each [CreateEvent] that returned a handle other than
    [NULL], the run calls [CloseHandle] on that handle, whichever way it
    ends. *)
Theorem created_events_are_closed
    (env : control_env) (g : globals) (arr : array_id) (j h : Z) :
  In (EvCreateEvent arr j h) (fst (ControlThread env g)) -> h <> NULL ->
  In (EvCloseHandle arr j h) (fst (ControlThread env g)).
Proof.
  intros Hin Hh.
  destruct (ControlThread_anatomy env g) as
    [(_ & Hcl & _) | (aff & tc & a1 & ok1 & mid & aF & r & _ & _ & Ec & E & Hmid & Hd & Hr & _)].
  - exfalso. exact (class_not_in alloc_only_event _ (EvCreateEvent arr j h) Hcl eq_refl Hin).
  - rewrite E in *. cbn [fst] in *. rewrite out_arrays_frees in *. cbn [fst] in *.
    pose proof (create_workers_events env aff _ 0 _ tc a1 ok1 ltac:(lia)
                  (zero_arrays_length (num_threads g)) Ec) as Hrec.
    rewrite Forall_forall in Hrec.
    apply in_run_cases in Hin as [Hin | [Hin | [Hin | [Hin | [Hin | Hin]]]]].
    + exfalso. unfold alloc_events in Hin. cbn in Hin. intuition discriminate.
    + discriminate Hin.
    + specialize (Hrec _ Hin).
      destruct (cleanup_handles (Z.to_nat (num_threads g)) 0 (a_task_thread aF)
                  (a_data_ready aF) (a_thread_ready aF)) as [Hclose _].
      cbv zeta in Hclose.
      apply in_run_cleanup.
      destruct arr; cbn [handle_recorded] in Hrec; try contradiction;
        destruct Hrec as [Hj <-]; destruct (Hclose j ltac:(lia)) as (_ & C1 & C2).
      * rewrite <- Hd in *. now apply C1.
      * rewrite <- Hr in *. now apply C2.
    + exfalso. exact (class_not_in middle_event _ (EvCreateEvent arr j h) Hmid eq_refl Hin).
    + exfalso.
      exact (class_not_in release_event _ (EvCreateEvent arr j h)
               (cleanup_release _ _ _ _ _) eq_refl Hin).
    + exfalso. cbn in Hin. intuition discriminate.
Qed.

Lemma created_events_are_closed_witness :
  let env := mkControlEnv true true true true (fun _ => 11) (fun i => if i =? 1 then 0 else 12)
               (fun _ => 13) (fun _ => false) (fun _ => 0) (fun _ => true) (fun _ => true)
               WAIT_OBJECT_0 in
  In (EvCloseHandle DataReady 1 11)
     (fst (ControlThread env (mkGlobals 2 (Some [1; 2]) None None None))).
Proof.
  cbv zeta. apply created_events_are_closed.
  - vm_compute. tauto.
  - discriminate.
Defined.

Lemma existsb_class (P Q : event -> bool) (t : trace) :
  Forall (fun x => P x = true) t -> (forall e, P e = true -> Q e = false) ->
  existsb Q t = false.
Proof.
  intros Ht HP. induction Ht as [|x l Hx Hl IH]; [reflexivity|].
  cbn [existsb]. now rewrite (HP x Hx).
Qed.

Lemma existsb_weaken (P Q : event -> bool) (t : trace) :
  (forall e, P e = true -> Q e = true) -> existsb P t = true -> existsb Q t = true.
Proof.
  intros HP H. apply existsb_exists in H as (x & Hin & Hx).
  apply existsb_exists. exists x. auto.
Qed.

Lemma existsb_split (P Q : event -> bool) (t : trace) :
  (forall e, Q e = true -> P e = false -> failure_diag e = false) ->
  Forall (fun x => Q x = true) t -> existsb P t = false -> existsb failure_diag t = false.
Proof.
  intros HQ Ht H. induction Ht as [|x l Hx Hl IH]; [reflexivity|].
  cbn [existsb] in *. apply orb_false_elim in H as [H1 H2].
  now rewrite (HQ x Hx H1), IH.
Qed.

Lemma out_status n task dready tready r :
  snd (out n task dready tready r) = ExitThread r
  \/ snd (out n task dready tready r) = Fault.
Proof.
  unfold out. destruct (cleanup _ _ _ _ _) as [t ok]. destruct ok; auto.
Qed.

Lemma shutdown_events_class env n :
  Forall (fun x => shutdown_event x = true) (shutdown_events env n).
Proof.
  unfold shutdown_events. apply Forall_app. split; [repeat constructor|].
  apply Forall_app. split; [apply broadcast_class | repeat constructor].
Qed.

Lemma setup_no_failure e :
  setup_event e = true -> setup_error e = false -> failure_diag e = false.
Proof. destruct e as [s d| | | | | | | | | | | | | | | | | |]; try reflexivity.
  destruct d; cbn; congruence. Qed.

Lemma dispatch_no_failure e :
  dispatch_event e = true -> dispatch_error e = false -> failure_diag e = false.
Proof. destruct e as [s d| | | | | | | | | | | | | | | | | |]; try reflexivity.
  destruct s, d; cbn; congruence. Qed.

Lemma shutdown_no_failure e :
  shutdown_event e = true -> e <> EvPrintf Stdout ThreadsNotFinalized ->
  failure_diag e = false.
Proof. destruct e as [s d| | | | | | | | | | | | | | | | | |]; try reflexivity.
  destruct s, d; cbn; congruence. Qed.

Lemma cleanup_no_failure e : cleanup_event e = true -> failure_diag e = false.
Proof. destruct e as [s d| | | | | | | | | | | | | | | | | |]; try reflexivity.
  discriminate. Qed.

Lemma broadcast_no_failure env todo : forall i,
  existsb failure_diag (broadcast env todo i) = false.
Proof. induction todo as [|todo IH]; intros i; cbn; auto. Qed.

Lemma shutdown_events_no_failure env n :
  existsb failure_diag (shutdown_events env n) = false.
Proof.
  unfold shutdown_events. rewrite !existsb_app, broadcast_no_failure. reflexivity.
Qed.

Lemma out_arrays_no_failure n a r :
  existsb failure_diag (fst (out_arrays n a r)) = false.
Proof.
  apply (existsb_class cleanup_event); [apply out_arrays_class|].
  apply cleanup_no_failure.
Qed.

Lemma created_no_failure env affinity n i a tc a1 :
  create_workers env affinity n i a = (tc, a1, true) ->
  existsb failure_diag tc = false.
Proof.
  intros Ec.
  pose proof (create_workers_error env affinity n i a) as He.
  pose proof (create_workers_class env affinity n i a) as Hc.
  rewrite Ec in He, Hc. cbn [fst negb] in *.
  exact (existsb_split setup_error setup_event tc setup_no_failure Hc He).
Qed.

Lemma existsb_app_false (P : event -> bool) (l1 l2 : trace) :
  existsb P (l1 ++ l2) = false -> existsb P l1 = false /\ existsb P l2 = false.
Proof. rewrite existsb_app. apply orb_false_elim. Qed.

(** X9. Every worker thread a run of [ControlThread] created is ended by
    [TerminateThread] unless the run exits with status 0: on each path
    through [goto out] the loop below the label still finds the handle in
    [task_thread]. *)
Theorem created_threads_are_terminated
    (env : control_env) (g : globals) (j h : Z) :
  In (EvCreateThread (Worker j) h) (fst (ControlThread env g)) -> h <> NULL ->
  snd (ControlThread env g) <> ExitThread 0 ->
  In (EvTerminateThread j h) (fst (ControlThread env g)).
Proof.
  intros Hin Hh Hexit.
  destruct (ControlThread_anatomy env g) as
    [(_ & Hcl & _) | (aff & tc & a1 & ok1 & mid & aF & r & _ & _ & Ec & E & Hmid & _ & _ & Ht)].
  - exfalso.
    exact (class_not_in alloc_only_event _ (EvCreateThread (Worker j) h) Hcl eq_refl Hin).
  - rewrite E in *. cbn [fst snd] in *. rewrite out_arrays_frees in *. cbn [fst] in *.
    destruct Ht as [[-> Ht] | [-> _]]; [|congruence].
    pose proof (create_workers_events env aff _ 0 _ tc a1 ok1 ltac:(lia)
                  (zero_arrays_length (num_threads g)) Ec) as Hrec.
    rewrite Forall_forall in Hrec.
    apply in_run_cases in Hin as [Hin | [Hin | [Hin | [Hin | [Hin | Hin]]]]].
    + exfalso. unfold alloc_events in Hin. cbn in Hin. intuition discriminate.
    + discriminate Hin.
    + specialize (Hrec _ Hin). cbn [handle_recorded] in Hrec. destruct Hrec as [Hj <-].
      destruct (cleanup_handles (Z.to_nat (num_threads g)) 0 (a_task_thread aF)
                  (a_data_ready aF) (a_thread_ready aF)) as [Hend _].
      cbv zeta in Hend. apply in_run_cleanup.
      destruct (Hend j ltac:(lia)) as (C0 & _ & _). rewrite Ht in *. now apply C0.
    + exfalso.
      exact (class_not_in middle_event _ (EvCreateThread (Worker j) h) Hmid eq_refl Hin).
    + exfalso.
      exact (class_not_in release_event _ (EvCreateThread (Worker j) h)
               (cleanup_release _ _ _ _ _) eq_refl Hin).
    + exfalso. cbn in Hin. intuition discriminate.
Qed.

Lemma created_threads_are_terminated_witness :
  let env := mkControlEnv true true true true (fun _ => 11) (fun _ => 12)
               (fun i => if i =? 1 then 0 else 13) (fun _ => false) (fun _ => 0)
               (fun _ => true) (fun _ => true) WAIT_OBJECT_0 in
  In (EvTerminateThread 0 13)
     (fst (ControlThread env (mkGlobals 2 (Some [1; 2]) None None None))).
Proof.
  cbv zeta. apply created_threads_are_terminated.
  - vm_compute. tauto.
  - discriminate.
  - vm_compute. discriminate.
Defined.

(** X10. [TerminateThread] is only ever called on a thread the same run
    created, with the handle [CreateThread] returned for that worker, and
    only in a run that exits with status 1. *)
Theorem TerminateThread_only_on_created_threads
    (env : control_env) (g : globals) (j h : Z) :
  In (EvTerminateThread j h) (fst (ControlThread env g)) ->
  In (EvCreateThread (Worker j) h) (fst (ControlThread env g))
  /\ h <> NULL /\ snd (ControlThread env g) = ExitThread 1.
Proof.
  intros Hin.
  destruct (ControlThread_anatomy env g) as
    [(_ & Hcl & _) | (aff & tc & a1 & ok1 & mid & aF & r & _ & _ & Ec & E & Hmid & _ & _ & Ht)].
  - exfalso.
    exact (class_not_in alloc_only_event _ (EvTerminateThread j h) Hcl eq_refl Hin).
  - rewrite E in *. cbn [fst snd] in *. rewrite out_arrays_frees in *. cbn [fst] in *.
    pose proof (create_workers_class env aff (Z.to_nat (num_threads g)) 0
                  (zero_arrays (num_threads g))) as Hc.
    rewrite Ec in Hc. cbn [fst] in Hc.
    apply in_run_cases in Hin as [Hin | [Hin | [Hin | [Hin | [Hin | Hin]]]]].
    + exfalso. unfold alloc_events in Hin. cbn in Hin. intuition discriminate.
    + discriminate Hin.
    + exfalso.
      exact (class_not_in setup_event _ (EvTerminateThread j h) Hc eq_refl Hin).
    + exfalso.
      exact (class_not_in middle_event _ (EvTerminateThread j h) Hmid eq_refl Hin).
    + destruct (cleanup_handles (Z.to_nat (num_threads g)) 0 (a_task_thread aF)
                  (a_data_ready aF) (a_thread_ready aF)) as [_ Hend].
      cbv zeta in Hend. destruct (Hend j h Hin) as (Hj & -> & Hh).
      destruct Ht as [[-> Ht] | [-> Ht]]; [|now rewrite Ht in Hh].
      split; [|split; [exact Hh | reflexivity]].
      apply in_run_created. rewrite Ht.
      destruct (create_workers_entries env aff _ 0 _ tc a1 ok1 ltac:(lia) Ec j ltac:(lia))
        as [E0 | Hcr]; [|exact Hcr].
      exfalso. apply Hh. rewrite Ht, E0. unfold zero_arrays. cbn [a_task_thread].
      apply load_zeros.
    + exfalso. cbn in Hin. intuition discriminate.
Qed.

Lemma TerminateThread_only_on_created_threads_witness :
  let env := mkControlEnv true true true true (fun _ => 11) (fun _ => 12)
               (fun i => if i =? 1 then 0 else 13) (fun _ => false) (fun _ => 0)
               (fun _ => true) (fun _ => true) WAIT_OBJECT_0 in
  let g := mkGlobals 2 (Some [1; 2]) None None None in
  In (EvCreateThread (Worker 0) 13) (fst (ControlThread env g))
  /\ 13 <> NULL /\ snd (ControlThread env g) = ExitThread 1.
Proof.
  cbv zeta. apply TerminateThread_only_on_created_threads.
  vm_compute. tauto.
Defined.

(** X11. [ControlThread] exits with status 0 exactly when it was configured
    (a plan and a thread count other than 0) and printed none of its
    failure diagnostics: every [goto out] is announced by one, and nothing
    else keeps [r] at 1. *)
Theorem ControlThread_status_0_iff (env : control_env) (g : globals) :
  snd (ControlThread env g) = ExitThread 0
  <-> thread_affinity g <> None /\ num_threads g <> 0
      /\ existsb failure_diag (fst (ControlThread env g)) = false.
Proof.
  destruct (ControlThread_detail env g) as
    [Hcfg | aff Haff Hn Hall | aff tc a1 Haff Hn Hall Ec | aff tc a1 td a2 Haff Hn Hall Ec Ed
     | aff tc a1 td a2 Haff Hn Hall Ec Ed Ej | aff tc a1 td a2 Haff Hn Hall Ec Ed Ej];
    cbn [fst snd].
  - split; [discriminate|]. intros (H1 & H2 & _). tauto.
  - unfold prepend. cbn [fst snd]. split.
    + intros H. destruct (out_status (num_threads g)
                            (calloc (calloc_task_thread env) (num_threads g))
                            (calloc (calloc_data_ready env) (num_threads g))
                            (calloc (calloc_thread_ready env) (num_threads g)) 1)
        as [E | E]; rewrite E in H; discriminate H.
    + intros (_ & _ & H). apply existsb_app_false in H as [H _].
      apply existsb_app_false in H as [_ H]. discriminate H.
  - split; [discriminate|]. intros (_ & _ & H).
    pose proof (create_workers_error env aff (Z.to_nat (num_threads g)) 0
                  (zero_arrays (num_threads g))) as He.
    rewrite Ec in He. cbn [negb] in He.
    apply (existsb_weaken setup_error failure_diag) in He.
    + do 2 apply existsb_app_false in H as [_ H].
      apply existsb_app_false in H as [H _]. congruence.
    + intros e. destruct e as [s d| | | | | | | | | | | | | | | | | |]; try discriminate.
      destruct d; cbn; congruence.
  - split; [discriminate|]. intros (_ & _ & H).
    pose proof (dispatch_loop_error env (num_threads g) (Z.to_nat MAX_ITERATIONS) 1 a1) as He.
    rewrite Ed in He. cbn [negb] in He.
    apply (existsb_weaken dispatch_error failure_diag) in He.
    + do 3 apply existsb_app_false in H as [_ H].
      apply existsb_app_false in H as [H _]. congruence.
    + intros e. destruct e as [s d| | | | | | | | | | | | | | | | | |]; try discriminate.
      destruct s, d; cbn; congruence.
  - split; [intros _ | reflexivity].
    split; [congruence|]. split; [exact Hn|].
    pose proof (dispatch_loop_error env (num_threads g) (Z.to_nat MAX_ITERATIONS) 1 a1) as He.
    pose proof (dispatch_loop_class env (num_threads g) (Z.to_nat MAX_ITERATIONS) 1 a1) as Hc.
    rewrite Ed in He, Hc. cbn [fst negb] in *.
    rewrite !existsb_app, shutdown_events_no_failure, out_arrays_no_failure.
    rewrite (existsb_split dispatch_error dispatch_event td dispatch_no_failure Hc He).
    rewrite (created_no_failure _ _ _ _ _ _ _ Ec). reflexivity.
  - split; [discriminate|]. intros (_ & _ & H).
    do 5 apply existsb_app_false in H as [_ H].
    apply existsb_app_false in H as [H _]. discriminate H.
Qed.

Ltac bounds_list H :=
  cbn [app fst];
  repeat (apply Forall_cons; [first [exact I | exact H | reflexivity]|]);
  try apply Forall_nil.

Lemma create_workers_bounds env affinity n todo : forall i a,
  0 <= i -> i + Z.of_nat todo <= n ->
  Forall (index_in_bounds n) (fst (fst (create_workers env affinity todo i a))).
Proof.
  induction todo as [|todo IH]; intros i a Hi Hn; cbn [create_workers]; [constructor|].
  assert (Hin : 0 <= i < n) by lia.
  destruct ((create_data_ready env i =? NULL) || (create_thread_ready env i =? NULL));
    [bounds_list Hin|].
  destruct (create_thread env i =? NULL); [bounds_list Hin|].
  match goal with |- context [create_workers env affinity todo ?j ?b] =>
    specialize (IH j b ltac:(lia) ltac:(lia));
    destruct (create_workers env affinity todo j b) as [[tr a3] ok] end.
  cbn [fst] in *. apply Forall_app. split; [|exact IH].
  destruct (negb (load affinity i =? 0)); bounds_list Hin.
Qed.

Lemma dispatch_loop_bounds env n todo :
  0 <= n < 2 ^ 32 -> forall it a,
  Forall (index_in_bounds n) (fst (fst (dispatch_loop env n todo it a))).
Proof.
  intros Hn. induction todo as [|todo IH]; intros it a; cbn [dispatch_loop]; [constructor|].
  destruct (cancel_at env it); [bounds_list I|].
  destruct (_ >=? _) eqn:Hi; [bounds_list I|].
  assert (Hin : 0 <= wrap32 (wait_ready env it) < n).
  { rewrite Z.geb_leb in Hi. apply Z.leb_gt in Hi. unfold wrap32, WAIT_OBJECT_0 in *.
    rewrite Z.add_0_l, (Z.mod_small n) in Hi by lia.
    pose proof (Z.mod_pos_bound (wait_ready env it) (2 ^ 32) ltac:(lia)). lia. }
  destruct (signal_ok env it); cbn [negb]; [|bounds_list Hin].
  match goal with |- context [dispatch_loop env n todo ?j ?b] =>
    specialize (IH j b); destruct (dispatch_loop env n todo j b) as [[tr a2] ok] end.
  cbn [fst] in *. apply Forall_app. split; [bounds_list Hin | exact IH].
Qed.

Lemma broadcast_bounds env n todo : forall i,
  0 <= i -> i + Z.of_nat todo <= n ->
  Forall (index_in_bounds n) (broadcast env todo i).
Proof.
  induction todo as [|todo IH]; intros i Hi Hn; cbn [broadcast]; constructor.
  - cbn. lia.
  - apply IH; lia.
Qed.

Lemma cleanup_bounds n todo : forall i task dready tready,
  0 <= i -> i + Z.of_nat todo <= n ->
  Forall (index_in_bounds n) (fst (cleanup todo i task dready tready)).
Proof.
  induction todo as [|todo IH]; intros i task dready tready Hi Hn; cbn [cleanup];
    [constructor|].
  assert (Hin : 0 <= i < n) by lia.
  destruct task as [th|]; [|constructor].
  destruct dready as [dr|];
    [|destruct (negb (load th i =? NULL)); bounds_list Hin].
  destruct tready as [rr|].
  - specialize (IH (i + 1) (Some th) (Some dr) (Some rr) ltac:(lia) ltac:(lia)).
    destruct (cleanup todo (i + 1) (Some th) (Some dr) (Some rr)) as [tr ok].
    cbn [fst] in *.
    destruct (negb (load th i =? NULL)), (negb (load dr i =? NULL)),
      (negb (load rr i =? NULL)); bounds_list Hin; exact IH.
  - destruct (negb (load th i =? NULL)), (negb (load dr i =? NULL)); bounds_list Hin.
Qed.

Lemma out_bounds n task dready tready r :
  0 <= n -> Forall (index_in_bounds n) (fst (out n task dready tready r)).
Proof.
  intros Hn. unfold out.
  pose proof (cleanup_bounds n (Z.to_nat n) 0 task dready tready ltac:(lia) ltac:(lia)) as Hc.
  destruct (cleanup _ _ _ _ _) as [tr [|]]; cbn [fst] in *; [|exact Hc].
  apply Forall_app. split; [exact Hc | bounds_list I].
Qed.

Lemma shutdown_events_bounds env n :
  0 <= n -> Forall (index_in_bounds n) (shutdown_events env n).
Proof.
  intros Hn. unfold shutdown_events. apply Forall_app. split; [bounds_list I|].
  apply Forall_app. split; [apply broadcast_bounds; lia | bounds_list I].
Qed.

(** X12. With a thread count that fits a [DWORD], a run of [ControlThread]
    never leaves its arrays: every index it uses for [data_ready],
    [thread_ready], [task_thread], [thread_data] and the plan lies in
    [0 .. num_threads - 1], the index the readiness wait returned included,
    and every count it passes to [calloc] and [WaitForMultipleObjects] is
    [num_threads]. *)
Theorem ControlThread_indices_in_bounds (env : control_env) (g : globals) :
  0 <= num_threads g < 2 ^ 32 ->
  Forall (index_in_bounds (num_threads g)) (fst (ControlThread env g)).
Proof.
  intros Hn.
  assert (Hz : 0 <= num_threads g) by lia.
  assert (Hw : 0 + Z.of_nat (Z.to_nat (num_threads g)) <= num_threads g) by lia.
  assert (Ha : Forall (index_in_bounds (num_threads g)) (alloc_events env (num_threads g)))
    by (unfold alloc_events; bounds_list I).
  assert (Hc : forall aff a,
             Forall (index_in_bounds (num_threads g))
               (fst (fst (create_workers env aff (Z.to_nat (num_threads g)) 0 a)))).
  { intros aff a. apply create_workers_bounds; lia. }
  pose proof (dispatch_loop_bounds env (num_threads g) (Z.to_nat MAX_ITERATIONS) Hn 1) as Hd.
  destruct (ControlThread_detail env g) as
    [Hcfg | aff Haff Hnz Hall | aff tc a1 Haff Hnz Hall Ec | aff tc a1 td a2 Haff Hnz Hall Ec Ed
     | aff tc a1 td a2 Haff Hnz Hall Ec Ed Ej | aff tc a1 td a2 Haff Hnz Hall Ec Ed Ej];
    cbn [fst snd];
    try (specialize (Hc aff (zero_arrays (num_threads g))); rewrite Ec in Hc; cbn [fst] in Hc);
    try (specialize (Hd a1); rewrite Ed in Hd; cbn [fst] in Hd).
  - constructor.
  - unfold prepend. cbn [fst]. apply Forall_app. split; [|now apply out_bounds].
    apply Forall_app. split; [exact Ha | bounds_list I].
  - apply Forall_app. split; [exact Ha|]. constructor; [exact I|].
    apply Forall_app. split; [exact Hc | now apply out_bounds].
  - apply Forall_app. split; [exact Ha|]. constructor; [exact I|].
    apply Forall_app. split; [exact Hc|].
    apply Forall_app. split; [exact Hd | now apply out_bounds].
  - apply Forall_app. split; [exact Ha|]. constructor; [exact I|].
    apply Forall_app. split; [exact Hc|].
    apply Forall_app. split; [exact Hd|].
    apply Forall_app. split; [now apply shutdown_events_bounds|].
    constructor; [exact I | now apply out_bounds].
  - apply Forall_app. split; [exact Ha|]. constructor; [exact I|].
    apply Forall_app. split; [exact Hc|].
    apply Forall_app. split; [exact Hd|].
    apply Forall_app. split; [now apply shutdown_events_bounds|].
    constructor; [exact I | now apply out_bounds].
Qed.

Lemma ControlThread_indices_in_bounds_witness :
  let env := mkControlEnv true true true true (fun _ => 11) (fun _ => 12) (fun _ => 13)
               (fun it => 3 <=? it) (fun it => it + 2 ^ 32 - 1) (fun _ => true)
               (fun _ => true) WAIT_OBJECT_0 in
  Forall (index_in_bounds 2)
         (fst (ControlThread env (mkGlobals 2 (Some [1; 2]) None None None))).
Proof.
  cbv zeta.
  apply (ControlThread_indices_in_bounds _ (mkGlobals 2 (Some [1; 2]) None None None)).
  cbn [num_threads]. lia.
Defined.

Lemma create_workers_ok env affinity n todo : forall i a,
  creation_succeeds env n -> 0 <= i -> i + Z.of_nat todo <= n ->
  snd (create_workers env affinity todo i a) = true.
Proof.
  induction todo as [|todo IH]; intros i a Hc Hi Hn; cbn [create_workers]; [reflexivity|].
  destruct (Hc i ltac:(lia)) as (H1 & H2 & H3).
  apply Z.eqb_neq in H1, H2, H3. rewrite H1, H2, H3. cbn [orb].
  match goal with |- context [create_workers env affinity todo ?j ?b] =>
    specialize (IH j b Hc ltac:(lia) ltac:(lia));
    destruct (create_workers env affinity todo j b) as [[tr a3] ok] end.
  exact IH.
Qed.

Lemma dispatch_loop_run env n k : forall todo it a,
  (k <= todo)%nat ->
  (forall j, it <= j < it + Z.of_nat k -> round_ok env n j) ->
  k = todo \/ cancel_at env (it + Z.of_nat k) = true ->
  exists a',
    dispatch_loop env n todo it a
    = (flat_map (round_events env n) (zseq it k)
       ++ (if (k =? todo)%nat then [] else [EvPollCancel true]), a', true).
Proof.
  induction k as [|k IH]; intros todo it a Hk Hok Hend.
  - destruct todo as [|todo]; cbn [dispatch_loop zseq flat_map app Nat.eqb].
    + now exists a.
    + destruct Hend as [Hend | Hend]; [discriminate Hend|].
      rewrite Z.add_0_r in Hend. rewrite Hend. now exists a.
  - destruct todo as [|todo]; [lia|]. cbn [dispatch_loop zseq flat_map Nat.eqb].
    destruct (Hok it ltac:(lia)) as (Hc & Hw & Hs). rewrite Hc.
    apply Z.ltb_lt in Hw. rewrite Z.geb_leb, Z.leb_antisym, Hw, Hs. cbn [negb].
    destruct (IH todo (it + 1)
                (mkArrays (a_task_thread a) (a_data_ready a) (a_thread_ready a)
                   (store (a_thread_data a) (wrap32 (wait_ready env it)) it))
                ltac:(lia)) as (a' & E).
    + intros j Hj. apply Hok. lia.
    + destruct Hend as [Hend | Hend]; [left; lia | right].
      now replace (it + 1 + Z.of_nat k) with (it + Z.of_nat (S k)) by lia.
    + rewrite E. exists a'. reflexivity.
Qed.

Lemma stores_rounds env n k : forall it,
  stores (flat_map (round_events env n) (zseq it k))
  = map (fun j => (wrap32 (wait_ready env j), j)) (zseq it k).
Proof.
  induction k as [|k IH]; intros it; cbn [zseq flat_map map]; [reflexivity|].
  rewrite stores_app, IH. reflexivity.
Qed.

Lemma rounds_rounds env n k : forall it,
  rounds (flat_map (round_events env n) (zseq it k)) = k.
Proof.
  induction k as [|k IH]; intros it; cbn [zseq flat_map]; [reflexivity|].
  rewrite rounds_app, IH. reflexivity.
Qed.

(** X13. When setup succeeds and the first [k] rounds meet no cancel
    request and no failed call, and either [k] is [MAX_ITERATIONS] or the
    cancel flag is set when round [k + 1] would start, [ControlThread]
    dispatches exactly [k] rounds: round [it] writes [it] into the slot of
    the worker the readiness wait returned. The shutdown protocol follows,
    and the exit status is 0 exactly when the join succeeds. *)
Theorem dispatch_runs_until_cancel_or_limit
    (env : control_env) (g : globals) (affinity : list Z) (k : nat) :
  thread_affinity g = Some affinity -> num_threads g <> 0 ->
  all_allocated env = true -> creation_succeeds env (num_threads g) ->
  (forall it, 1 <= it <= Z.of_nat k -> round_ok env (num_threads g) it) ->
  k = Z.to_nat MAX_ITERATIONS
  \/ ((k < Z.to_nat MAX_ITERATIONS)%nat /\ cancel_at env (Z.of_nat k + 1) = true) ->
  stores (fst (ControlThread env g))
  = map (fun it => (wrap32 (wait_ready env it), it)) (zseq 1 k)
  /\ rounds (fst (ControlThread env g)) = k
  /\ (exists pre post,
        fst (ControlThread env g) = pre ++ shutdown_events env (num_threads g) ++ post)
  /\ snd (ControlThread env g)
     = ExitThread (if join_result env =? WAIT_OBJECT_0 then 0 else 1).
Proof.
  intros Haff Hnz Hall Hcr Hok Hend.
  assert (Hrun : forall a, exists a',
             dispatch_loop env (num_threads g) (Z.to_nat MAX_ITERATIONS) 1 a
             = (flat_map (round_events env (num_threads g)) (zseq 1 k)
                ++ (if (k =? Z.to_nat MAX_ITERATIONS)%nat then [] else [EvPollCancel true]),
                a', true)).
  { intros a. apply dispatch_loop_run.
    - destruct Hend as [-> | [H _]]; lia.
    - intros j Hj. apply Hok. lia.
    - destruct Hend as [H | [_ H]]; [now left | right].
      now rewrite Z.add_comm. }
  assert (Hcok : snd (create_workers env affinity (Z.to_nat (num_threads g)) 0
                        (zero_arrays (num_threads g))) = true).
  { destruct (Z.le_gt_cases 0 (num_threads g)).
    - apply (create_workers_ok env affinity (num_threads g)); [exact Hcr | lia | lia].
    - now replace (Z.to_nat (num_threads g)) with O by lia. }
  assert (Hst : forall tc td post a0 a r,
             create_workers env affinity (Z.to_nat (num_threads g)) 0
               (zero_arrays (num_threads g)) = (tc, a0, true) ->
             Forall (fun x => shutdown_event x = true) post ->
             td = flat_map (round_events env (num_threads g)) (zseq 1 k)
                  ++ (if (k =? Z.to_nat MAX_ITERATIONS)%nat then [] else [EvPollCancel true]) ->
             let t := alloc_events env (num_threads g)
                      ++ [EvPrintf Stdout (CreatingThreads (num_threads g))]
                      ++ tc ++ td ++ shutdown_events env (num_threads g) ++ post
                      ++ fst (out_arrays (num_threads g) a r) in
             stores t = map (fun it => (wrap32 (wait_ready env it), it)) (zseq 1 k)
             /\ rounds t = k).
  { intros tc td post a0 a r Ec Hpost -> t. subst t.
    pose proof (create_workers_class env affinity (Z.to_nat (num_threads g)) 0
                  (zero_arrays (num_threads g))) as Hc.
    rewrite Ec in Hc. cbn [fst] in Hc.
    destruct (out_arrays_class (num_threads g) a r) as [Ho _].
    split.
    - rewrite !stores_app, stores_rounds.
      rewrite (class_no_stores setup_event _ Hc) by reflexivity.
      rewrite (class_no_stores shutdown_event _ (shutdown_events_class _ _)) by reflexivity.
      rewrite (class_no_stores shutdown_event _ Hpost) by reflexivity.
      rewrite (class_no_stores cleanup_event _ Ho) by reflexivity.
      destruct (k =? _)%nat; cbn; now rewrite !app_nil_r.
    - rewrite !rounds_app, rounds_rounds.
      rewrite (class_no_rounds setup_event _ Hc)
        by (intros [s d| | | | | | | | | | | | | | | | | |]; cbn; congruence).
      rewrite (class_no_rounds shutdown_event _ (shutdown_events_class _ _))
        by (intros [s d| | | | | | | | |[]| | | | | | | | |]; cbn; congruence).
      rewrite (class_no_rounds shutdown_event _ Hpost)
        by (intros [s d| | | | | | | | |[]| | | | | | | | |]; cbn; congruence).
      rewrite (class_no_rounds cleanup_event _ Ho)
        by (intros [s d| | | | | | | | | | | | | | | | | |]; cbn; congruence).
      destruct (k =? _)%nat; cbn; lia. }
  destruct (ControlThread_detail env g) as
    [Hcfg | aff Haff' Hnz' Hall' | aff tc a1 Haff' Hnz' Hall' Ec
     | aff tc a1 td a2 Haff' Hnz' Hall' Ec Ed
     | aff tc a1 td a2 Haff' Hnz' Hall' Ec Ed Ej | aff tc a1 td a2 Haff' Hnz' Hall' Ec Ed Ej];
    cbn [fst snd];
    try (rewrite Haff in Haff'; injection Haff' as <-).
  - exfalso. destruct Hcfg; congruence.
  - congruence.
  - rewrite Ec in Hcok. discriminate Hcok.
  - destruct (Hrun a1) as (a' & E). rewrite E in Ed. discriminate Ed.
  - destruct (Hrun a1) as (a' & E). rewrite E in Ed. injection Ed as <- <-.
    destruct (Hst tc _ [EvMemsetZero TaskThread] a1 (joined_arrays a') 0 Ec
                ltac:(repeat constructor) eq_refl) as [S1 S2].
    cbv zeta in S1, S2. split; [exact S1|]. split; [exact S2|]. split.
    + match goal with |- exists pre post, ?A ++ ?B ++ ?C ++ ?D ++ ?S ++ ?R = _ =>
        exists (A ++ B ++ C ++ D), R end.
      now rewrite <- !app_assoc.
    + apply Z.eqb_eq in Ej. now rewrite Ej.
  - destruct (Hrun a1) as (a' & E). rewrite E in Ed. injection Ed as <- <-.
    destruct (Hst tc _ [EvPrintf Stdout ThreadsNotFinalized] a1 (cleared_slots a') 1 Ec
                ltac:(repeat constructor) eq_refl) as [S1 S2].
    cbv zeta in S1, S2. split; [exact S1|]. split; [exact S2|]. split.
    + match goal with |- exists pre post, ?A ++ ?B ++ ?C ++ ?D ++ ?S ++ ?R = _ =>
        exists (A ++ B ++ C ++ D), R end.
      now rewrite <- !app_assoc.
    + apply Z.eqb_neq in Ej. now rewrite Ej.
Qed.

Lemma dispatch_runs_until_cancel_or_limit_witness :
  let env := mkControlEnv true true true true (fun _ => 11) (fun _ => 12) (fun _ => 13)
               (fun it => 3 <=? it) (fun it => it mod 2) (fun _ => true) (fun _ => true)
               WAIT_OBJECT_0 in
  let g := mkGlobals 2 (Some [1; 2]) None None None in
  stores (fst (ControlThread env g)) = [(1, 1); (0, 2)]
  /\ rounds (fst (ControlThread env g)) = 2%nat
  /\ (exists pre post,
        fst (ControlThread env g) = pre ++ shutdown_events env (num_threads g) ++ post)
  /\ snd (ControlThread env g) = ExitThread 0.
Proof.
  intros env g.
  refine (dispatch_runs_until_cancel_or_limit env g [1; 2] 2 eq_refl _ eq_refl _ _ _).
  - discriminate.
  - intros i _. cbn. repeat split; discriminate.
  - intros it Hit. assert (H : it = 1 \/ it = 2) by lia.
    destruct H as [-> | ->]; repeat split.
  - right. split; [vm_compute; lia | reflexivity].
Defined.

(** ** The worker *)

Ltac own_events :=
  cbn [fst app];
  repeat (apply Forall_cons; [cbn; rewrite ?Z.eqb_refl; reflexivity|]);
  try apply Forall_nil.

Lemma dummy_loop_worker i todo : forall j cancel,
  Forall (fun x => worker_event i x = true) (dummy_loop todo j cancel).
Proof.
  induction todo as [|todo IH]; intros j cancel; cbn [dummy_loop]; [constructor|].
  destruct (cancel j); own_events. apply IH.
Qed.

Lemma dummy_loop_no_failure todo : forall j cancel,
  existsb worker_failure (dummy_loop todo j cancel) = false.
Proof.
  induction todo as [|todo IH]; intros j cancel; cbn [dummy_loop]; [reflexivity|].
  destruct (cancel j); [reflexivity|]. cbn. apply IH.
Qed.

(** X14. A worker only ever touches what belongs to its own index: it
    signals [thread_ready[i]], waits on [data_ready[i]] with [WAIT_TIME],
    reads [thread_data[i]], prints its own lines, and polls and sleeps
    100 ms in the dummy loop. It never writes a slot, never waits without a
    timeout and never uses a handle of another worker. *)
Theorem worker_stays_on_its_index (i : Z) (turns : list worker_turn) :
  Forall (fun e => worker_event i e = true) (fst (ParallelTaskThread i turns)).
Proof.
  induction turns as [|t rest IH]; cbn [ParallelTaskThread]; [constructor|].
  destruct (negb (ready_ok t)); [own_events|].
  destruct (negb (data_wait t =? WAIT_OBJECT_0)); [own_events|].
  destruct (slot_test t =? 0); [own_events|].
  destruct (ParallelTaskThread i rest) as [tr r]. cbn [fst] in *.
  apply Forall_app. split; [own_events|].
  apply Forall_app. split; [apply dummy_loop_worker | exact IH].
Qed.

(** X15. A worker returns 0 only through the sentinel: its last four
    events are then the readiness signal, a wait on [data_ready[i]] that
    returned [WAIT_OBJECT_0], the read of 0 from [thread_data[i]] and the
    exit line. *)
Theorem worker_returns_0_only_on_sentinel (i : Z) (turns : list worker_turn) :
  snd (ParallelTaskThread i turns) = Some 0 ->
  exists pre, fst (ParallelTaskThread i turns) = pre ++ sentinel_exit i.
Proof.
  induction turns as [|t rest IH]; cbn [ParallelTaskThread]; [discriminate|].
  destruct (negb (ready_ok t)); [discriminate|].
  destruct (negb (data_wait t =? WAIT_OBJECT_0)) eqn:Hw; [discriminate|].
  destruct (slot_test t =? 0) eqn:Hs.
  - intros _. exists []. apply negb_false_iff, Z.eqb_eq in Hw. apply Z.eqb_eq in Hs.
    rewrite Hw, Hs. reflexivity.
  - destruct (ParallelTaskThread i rest) as [tr r]. cbn [fst snd] in *.
    intros H. destruct (IH H) as [pre ->].
    exists ([EvSetEvent ThreadReady i true;
             EvWaitForSingleObject DataReady i WAIT_TIME (data_wait t);
             EvLoadData i (slot_test t); EvLoadData i (slot_print t);
             EvPrintf Stdout (ReceivedData i (slot_print t))]
            ++ dummy_loop 25 0 (cancel_in_work t) ++ pre).
    now rewrite <- !app_assoc.
Qed.

Lemma worker_returns_0_only_on_sentinel_witness :
  exists pre,
    fst (ParallelTaskThread 4
           [mkWorkerTurn true 0 5 5 (fun j => 1 <=? j); mkWorkerTurn true 0 0 0 (fun _ => false)])
    = pre ++ sentinel_exit 4.
Proof.
  apply worker_returns_0_only_on_sentinel. reflexivity.
Defined.

(** X16. A worker returns 1 exactly when it printed one of its two failure
    lines: the readiness signal failed, or the wait on [data_ready[i]] did
    not return [WAIT_OBJECT_0]. *)
Theorem worker_returns_1_iff_failure (i : Z) (turns : list worker_turn) :
  snd (ParallelTaskThread i turns) = Some 1
  <-> existsb worker_failure (fst (ParallelTaskThread i turns)) = true.
Proof.
  induction turns as [|t rest IH]; cbn [ParallelTaskThread]; [split; discriminate|].
  destruct (negb (ready_ok t)); [split; reflexivity|].
  destruct (negb (data_wait t =? WAIT_OBJECT_0)); [split; reflexivity|].
  destruct (slot_test t =? 0); [split; discriminate|].
  destruct (ParallelTaskThread i rest) as [tr r]. cbn [fst snd] in *.
  rewrite !existsb_app, dummy_loop_no_failure. exact IH.
Qed.

(** X17. The dummy loop of a work item polls the cancel flag before each
    sleep: when the flag is clear at the first [m] polls and either [m]
    iterations were all that was left or the flag is set at the next poll,
    the loop is [m] sleeps of 100 ms, each after a poll, and then the poll
    that saw the flag. The worker wakes up at most one sleep after a cancel
    request. *)
Theorem dummy_loop_sleeps_until_cancel
    (cancel : Z -> bool) (m todo : nat) (j : Z) :
  (m <= todo)%nat ->
  (forall k, j <= k < j + Z.of_nat m -> cancel k = false) ->
  m = todo \/ cancel (j + Z.of_nat m) = true ->
  dummy_loop todo j cancel
  = concat (repeat [EvPollCancel false; EvSleep 100] m)
    ++ (if (m =? todo)%nat then [] else [EvPollCancel true]).
Proof.
  revert todo j. induction m as [|m IH]; intros todo j Hm Hok Hend.
  - destruct todo as [|todo]; cbn [dummy_loop repeat concat app Nat.eqb]; [reflexivity|].
    destruct Hend as [Hend | Hend]; [discriminate Hend|].
    rewrite Z.add_0_r in Hend. now rewrite Hend.
  - destruct todo as [|todo]; [lia|]. cbn [dummy_loop repeat concat app Nat.eqb].
    rewrite (Hok j) by lia. do 2 f_equal. apply IH.
    + lia.
    + intros k Hk. apply Hok. lia.
    + destruct Hend as [Hend | Hend]; [left; lia | right].
      now replace (j + 1 + Z.of_nat m) with (j + Z.of_nat (S m)) by lia.
Qed.

Lemma dummy_loop_sleeps_until_cancel_witness :
  dummy_loop 25 0 (fun k => 3 <=? k)
  = [EvPollCancel false; EvSleep 100; EvPollCancel false; EvSleep 100;
     EvPollCancel false; EvSleep 100; EvPollCancel true].
Proof.
  refine (dummy_loop_sleeps_until_cancel (fun k => 3 <=? k) 3 25 0 _ _ _).
  - lia.
  - intros k Hk. apply Z.leb_gt. lia.
  - right. reflexivity.
Defined.

(** ** main_utf8 *)

Lemma SetThreadAffinity_no_free spare env g a :
  ~ In (EvFree a) (fst (fst (SetThreadAffinity spare env g))).
Proof.
  unfold SetThreadAffinity. destruct (process_affinity env) as [w|]; [|intros []].
  destruct (popcnt64 w <=? dword_operand spare); [intros []|].
  destruct (negb (calloc_affinity env)); cbn [fst In]; intuition discriminate.
Qed.

Lemma not_in_snoc (t : trace) (e x : event) : ~ In e t -> e <> x -> ~ In e (t ++ [x]).
Proof.
  intros Ht Hx Hin. apply in_app_or in Hin as [Hin | [Hin | []]]; [tauto | congruence].
Qed.

(** X18. [main_utf8] returns 0 or 1, and on every path on which it returns
    its last call frees [thread_affinity], which no earlier call of the main
    thread does. It does not return only when the control thread stopped
    inside the loop below [out]; nothing is freed by the main thread
    then. *)
Theorem main_utf8_frees_plan_last (env : process_env) :
  match exit_code (main_utf8 env) with
  | Some r =>
      (r = 0 \/ r = 1)
      /\ exists t, main_trace (main_utf8 env) = t ++ [EvFree ThreadAffinity]
                   /\ forall a, ~ In (EvFree a) t
  | None =>
      (exists t, control_run (main_utf8 env) = Some (t, Fault))
      /\ forall a, ~ In (EvFree a) (main_trace (main_utf8 env))
  end.
Proof.
  unfold main_utf8.
  pose proof (SetThreadAffinity_no_free SPARE_THREADS (p_affinity env) initial_globals) as Hta.
  destruct (SetThreadAffinity SPARE_THREADS (p_affinity env) initial_globals) as [[ta ok] g].
  cbn [fst] in Hta.
  assert (H0 : forall a, ~ In (EvFree a) (EvPrintf Stderr Banner :: ta)).
  { intros a [H | H]; [discriminate H | exact (Hta a H)]. }
  assert (H1 : forall a, ~ In (EvFree a) ((EvPrintf Stderr Banner :: ta)
                                         ++ [EvCreateThread Control (p_create_control env)])).
  { intros a. apply not_in_snoc; [apply H0 | discriminate]. }
  assert (H2 : forall a, ~ In (EvFree a)
                 (((EvPrintf Stderr Banner :: ta)
                   ++ [EvCreateThread Control (p_create_control env)])
                  ++ [EvSetThreadPriority Control; EvSetConsoleCtrlHandler;
                      EvWaitThread Control INFINITE (p_wait_control env)])).
  { intros a Hin. apply in_app_or in Hin as [Hin | Hin]; [exact (H1 a Hin)|].
    cbn in Hin. intuition discriminate. }
  assert (Hsnoc : forall (t : trace) (x : event),
             (forall a, ~ In (EvFree a) t) -> (forall a, EvFree a <> x) ->
             exists t', t ++ [x; EvFree ThreadAffinity] = t' ++ [EvFree ThreadAffinity]
                        /\ forall a, ~ In (EvFree a) t').
  { intros t x Ht Hx. exists (t ++ [x]). split; [now rewrite <- app_assoc|].
    intros a. apply not_in_snoc; [apply Ht | apply Hx]. }
  destruct ok; cbn [negb].
  - destruct (p_create_control env =? NULL).
    + cbn [exit_code main_trace]. split; [now right|].
      apply Hsnoc; [exact H1 | discriminate].
    + destruct (ControlThread (p_control env) g) as [tc o]. cbn [snd].
      destruct o as [r|].
      * destruct (negb (p_wait_control env =? WAIT_OBJECT_0)); cbn [exit_code main_trace].
        -- split; [now right|]. apply Hsnoc; [exact H2 | discriminate].
        -- split; [now left|]. eexists. split; [reflexivity | exact H2].
      * cbn [exit_code main_trace control_run]. split; [now exists tc | exact H2].
  - cbn [exit_code main_trace]. split; [now right|].
    apply Hsnoc; [exact H0 | discriminate].
Qed.

Lemma ControlThread_starts_with_allocs env g masks :
  thread_affinity g = Some masks -> num_threads g <> 0 ->
  exists rest, fst (ControlThread env g) = alloc_events env (num_threads g) ++ rest.
Proof.
  intros Hm Hn.
  destruct (ControlThread_detail env g) as
    [Hcfg | aff Haff Hnz Hall | aff tc a1 Haff Hnz Hall Ec | aff tc a1 td a2 Haff Hnz Hall Ec Ed
     | aff tc a1 td a2 Haff Hnz Hall Ec Ed Ej | aff tc a1 td a2 Haff Hnz Hall Ec Ed Ej];
    cbn [fst snd]; try (eexists; reflexivity).
  exfalso. destruct Hcfg; congruence.
Qed.

(** X19. The test at the head of [ControlThread] never fires in this
    program: when [main_utf8] starts the control thread, [SetThreadAffinity]
    has left a plan for between 1 and 64 workers, one per set bit of the
    process affinity word, and the control thread begins with its four
    [calloc] calls for that many entries. *)
Theorem main_utf8_starts_configured_control_thread
    (env : process_env) (a : Z) (c : trace * outcome) :
  process_affinity (p_affinity env) = Some a -> 0 <= a < 2 ^ 64 ->
  control_run (main_utf8 env) = Some c ->
  1 <= usable_cores a <= 64
  /\ exists rest, fst c = alloc_events (p_control env) (usable_cores a) ++ rest.
Proof.
  intros Hproc Ha. unfold main_utf8.
  rewrite (SetThreadAffinity_result SPARE_THREADS a _ _ Hproc Ha).
  pose proof (usable_cores_range a) as Hr. unfold SPARE_THREADS.
  rewrite dword_operand_nonneg by lia.
  destruct (usable_cores a <=? 0) eqn:Hc; [discriminate|]. apply Z.leb_gt in Hc.
  replace (wrap32 (usable_cores a - 0)) with (usable_cores a)
    by (unfold wrap32; rewrite Z.sub_0_r, Z.mod_small; lia).
  destruct (calloc_affinity (p_affinity env)); cbn [negb]; [|discriminate].
  destruct (p_create_control env =? NULL); [discriminate|].
  match goal with |- context [ControlThread ?e ?g] =>
    destruct (ControlThread_starts_with_allocs e g _ eq_refl ltac:(cbn; lia)) as [rest E];
    cbn [num_threads] in E;
    destruct (ControlThread e g) as [tc o] end.
  cbn [fst snd] in *. subst tc.
  intros H. assert (Hcc : c = (alloc_events (p_control env) (usable_cores a) ++ rest, o)).
  { destruct o; [destruct (negb _)|]; cbn [control_run] in H; injection H as <-;
      reflexivity. }
  subst c. cbn [fst]. split; [lia | now exists rest].
Qed.

Lemma main_utf8_starts_configured_control_thread_witness :
  let cenv := mkControlEnv true true true true (fun _ => 11) (fun _ => 12) (fun _ => 13)
                (fun _ => true) (fun _ => 0) (fun _ => true) (fun _ => true) WAIT_OBJECT_0 in
  let env := mkProcessEnv (mkAffinityEnv (Some 5) true) 77 cenv WAIT_OBJECT_0 in
  1 <= usable_cores 5 <= 64
  /\ exists rest,
       fst (ControlThread cenv (mkGlobals 2 (Some [1; 4]) None None None))
       = alloc_events cenv (usable_cores 5) ++ rest.
Proof.
  intros cenv env.
  refine (main_utf8_starts_configured_control_thread env 5
            (ControlThread cenv (mkGlobals 2 (Some [1; 4]) None None None))
            eq_refl _ eq_refl).
  lia.
Defined.

(** ** ConsoleHandler *)

(** X20. The cancel flag is sticky: after any sequence of console control
    events it is set exactly when it was set before or one of the events was
    Ctrl-C, and no event clears it. The handler reports an event as handled
    exactly when it is Ctrl-C, and prints one line per Ctrl-C. *)
Theorem cancel_flag_is_sticky (types : list Z) (cancel_requested : bool) :
  let '(lines, results, flag) := console_events types cancel_requested in
  flag = cancel_requested || existsb is_ctrl_c types
  /\ results = map is_ctrl_c types
  /\ length lines = length (filter is_ctrl_c types)
  /\ (cancel_requested = true -> flag = true).
Proof.
  revert cancel_requested.
  induction types as [|ty rest IH]; intros c; cbn [console_events].
  - rewrite orb_false_r. auto.
  - unfold ConsoleHandler. fold (is_ctrl_c ty). cbn [existsb map filter].
    destruct (is_ctrl_c ty).
    + specialize (IH true). destruct (console_events rest true) as [[lines results] flag].
      destruct IH as (-> & -> & Hl & _). cbn [orb app length]. rewrite Hl, orb_true_r. auto.
    + specialize (IH c). destruct (console_events rest c) as [[lines results] flag].
      destruct IH as (-> & -> & Hl & Hs). cbn [orb app]. auto.
Qed.

(** ** wmain *)

Lemma main_utf8_exit_code_01 env r :
  exit_code (main_utf8 env) = Some r -> r = 0 \/ r = 1.
Proof.
  unfold main_utf8.
  destruct (SetThreadAffinity SPARE_THREADS (p_affinity env) initial_globals) as [[ta ok] g].
  destruct ok; cbn [negb]; [|cbn; intros H; injection H as <-; now right].
  destruct (p_create_control env =? NULL); [cbn; intros H; injection H as <-; now right|].
  destruct (snd (ControlThread (p_control env) g)); [|discriminate].
  destruct (negb _); cbn; intros H; injection H as <-; auto.
Qed.

Lemma in_convert_args env todo : forall j i p,
  In (EnConvert i p) (convert_args env todo j)
  <-> j <= i < j + Z.of_nat todo /\ p = utf8_of env i.
Proof.
  induction todo as [|todo IH]; intros j i p; cbn [convert_args In].
  - split; [intros [] | lia].
  - rewrite IH. split.
    + intros [H | H]; [injection H as <- <-; split; [lia | reflexivity]|].
      split; [lia | tauto].
    + intros [Hi ->]. destruct (Z.eq_dec i j) as [->|Hne]; [now left | right].
      split; [lia | reflexivity].
Qed.

Lemma in_free_args env todo : forall j i p,
  In (EnFreeArg i p) (free_args env todo j)
  <-> j <= i < j + Z.of_nat todo /\ p = utf8_of env i.
Proof.
  induction todo as [|todo IH]; intros j i p; cbn [free_args In].
  - split; [intros [] | lia].
  - rewrite IH. split.
    + intros [H | H]; [injection H as <- <-; split; [lia | reflexivity]|].
      split; [lia | tauto].
    + intros [Hi ->]. destruct (Z.eq_dec i j) as [->|Hne]; [now left | right].
      split; [lia | reflexivity].
Qed.

Lemma free_args_class env todo : forall j e,
  In e (free_args env todo j) -> exists i p, e = EnFreeArg i p.
Proof.
  induction todo as [|todo IH]; intros j e; cbn [free_args In]; [intros []|].
  intros [<- | H]; [eauto | exact (IH _ _ H)].
Qed.

Lemma convert_args_class env todo : forall j e,
  In e (convert_args env todo j) -> exists i p, e = EnConvert i p.
Proof.
  induction todo as [|todo IH]; intros j e; cbn [convert_args In]; [intros []|].
  intros [<- | H]; [eauto | exact (IH _ _ H)].
Qed.

(** X21. [wmain] returns -1 exactly when [calloc] gives it no argument
    vector: [main_utf8] only returns 0 or 1. In that case it has converted
    no argument and has not called [main_utf8]. *)
Theorem wmain_returns_minus_1_iff (argc : Z) (env : entry_env) :
  (snd (wmain argc env) = Some (-1) <-> calloc_argv env = false)
  /\ (calloc_argv env = false ->
      fst (wmain argc env) = [EnSetConsoleOutputCP CP_UTF8; EnCalloc argc false]).
Proof.
  unfold wmain. destruct (calloc_argv env); cbn [negb].
  - split; [|discriminate]. split; [|discriminate].
    destruct (exit_code (main_utf8 (e_process env))) as [r|] eqn:E; cbn [snd];
      [|discriminate].
    intros H. injection H as ->.
    destruct (main_utf8_exit_code_01 _ _ E); discriminate.
  - split; [split; reflexivity | reflexivity].
Qed.

(** X22. When [wmain] returns the value of [main_utf8], it has converted
    each of the [argc] arguments before the call, and after it frees
    exactly the pointers the conversion returned, one per index, and then
    the argument vector, which is its last call. *)
Theorem wmain_frees_what_it_converted (argc : Z) (env : entry_env) (r : Z) :
  snd (wmain argc env) = Some r -> r <> -1 ->
  exit_code (main_utf8 (e_process env)) = Some r
  /\ exists before after,
       fst (wmain argc env)
       = before ++ [EnMain (main_utf8 (e_process env))] ++ after ++ [EnFreeArgv]
       /\ (forall i, 0 <= i < argc ->
             In (EnConvert i (utf8_of env i)) before
             /\ In (EnFreeArg i (utf8_of env i)) after)
       /\ (forall i p, In (EnFreeArg i p) after <-> In (EnConvert i p) before)
       /\ (forall i p, ~ In (EnFreeArg i p) before)
       /\ (forall e, In e after -> exists i p, e = EnFreeArg i p).
Proof.
  unfold wmain. destruct (calloc_argv env); cbn [negb];
    [|cbn [snd]; intros H; injection H as <-; congruence].
  destruct (exit_code (main_utf8 (e_process env))) as [r'|]; cbn [snd fst]; [|discriminate].
  intros H _. injection H as ->. split; [reflexivity|].
  exists ([EnSetConsoleOutputCP CP_UTF8; EnCalloc argc true]
          ++ convert_args env (Z.to_nat argc) 0), (free_args env (Z.to_nat argc) 0).
  split; [now rewrite <- !app_assoc|]. split; [|split; [|split]].
  - intros i Hi. split.
    + apply in_or_app. right. apply in_convert_args. split; [lia | reflexivity].
    + apply in_free_args. split; [lia | reflexivity].
  - intros i p. rewrite in_free_args. split.
    + intros H. apply in_or_app. right. now apply in_convert_args.
    + intros H. apply in_app_or in H as [H | H]; [cbn in H; intuition discriminate|].
      now apply in_convert_args.
  - intros i p H. apply in_app_or in H as [H | H]; [cbn in H; intuition discriminate|].
    apply convert_args_class in H as (i' & p' & H). discriminate H.
  - apply free_args_class.
Qed.

Lemma wmain_frees_what_it_converted_witness :
  let cenv := mkControlEnv true true true true (fun _ => 11) (fun _ => 12) (fun _ => 13)
                (fun _ => true) (fun _ => 0) (fun _ => true) (fun _ => true) WAIT_OBJECT_0 in
  let env := mkEntryEnv true (fun i => 100 + i)
               (mkProcessEnv (mkAffinityEnv (Some 1) true) 77 cenv WAIT_OBJECT_0) in
  exit_code (main_utf8 (e_process env)) = Some 0
  /\ exists before after,
       fst (wmain 2 env)
       = before ++ [EnMain (main_utf8 (e_process env))] ++ after ++ [EnFreeArgv]
       /\ (forall i, 0 <= i < 2 ->
             In (EnConvert i (utf8_of env i)) before
             /\ In (EnFreeArg i (utf8_of env i)) after)
       /\ (forall i p, In (EnFreeArg i p) after <-> In (EnConvert i p) before)
       /\ (forall i p, ~ In (EnFreeArg i p) before)
       /\ (forall e, In e after -> exists i p, e = EnFreeArg i p).
Proof.
  intros cenv env.
  refine (wmain_frees_what_it_converted 2 env 0 eq_refl _). discriminate.
Defined.

(** ** Order of calls *)

Lemma create_workers_start env affinity todo : forall i a pre post t h,
  fst (fst (create_workers env affinity todo i a)) = pre ++ EvCreateThread t h :: post ->
  exists pre' j,
    t = Worker j
    /\ pre = pre' ++ [EvCreateEvent DataReady j (create_data_ready env j);
                      EvCreateEvent ThreadReady j (create_thread_ready env j)]
    /\ create_data_ready env j <> NULL /\ create_thread_ready env j <> NULL
    /\ h = create_thread env j.
Proof.
  induction todo as [|todo IH]; intros i a pre post t h; cbn [create_workers].
  - destruct pre; discriminate.
  - destruct (create_data_ready env i =? NULL) eqn:Hd.
    { cbn [orb fst app]. intros E. do 4 (destruct pre as [|? pre]; try discriminate E). }
    destruct (create_thread_ready env i =? NULL) eqn:Hr.
    { cbn [orb fst app]. intros E. do 4 (destruct pre as [|? pre]; try discriminate E). }
    apply Z.eqb_neq in Hd, Hr. cbn [orb].
    destruct (create_thread env i =? NULL).
    { cbn [fst app]. intros E.
      do 2 (destruct pre as [|? pre]; [discriminate E|]).
      destruct pre as [|? pre].
      - injection E as <- <- <- <- _. exists [], i. auto.
      - do 2 (destruct pre as [|? pre]; try discriminate E). }
    match goal with |- context [create_workers env affinity todo ?j ?b] =>
      specialize (IH j b); destruct (create_workers env affinity todo j b) as [[tr a3] ok] end.
    cbn [fst] in *. rewrite <- !app_assoc. cbn [app]. intros E.
    do 2 (destruct pre as [|? pre]; [discriminate E|]).
    destruct pre as [|? pre].
    + injection E as <- <- <- <- _. exists [], i. auto.
    + destruct pre as [|? pre]; [discriminate E|].
      injection E as <- <- <- <- E.
      apply (occurs_after not_thread_start) in E as (pre1 & -> & E);
        [| destruct (negb (load affinity i =? 0)); repeat constructor | reflexivity].
      destruct (IH _ _ _ _ E) as (pre' & j & -> & -> & H1 & H2 & ->).
      match goal with |- exists p k, _ /\ ?a :: ?b :: ?c :: ?d :: ?I ++ _ = _ /\ _ =>
        exists (a :: b :: c :: d :: I ++ pre'), j end.
      split; [reflexivity|]. split; [|auto].
      cbn [app]. now rewrite <- app_assoc.
Qed.

Lemma middle_not_thread_start e : middle_event e = true -> not_thread_start e = true.
Proof. destruct e; try reflexivity. discriminate. Qed.

Lemma release_not_thread_start e : release_event e = true -> not_thread_start e = true.
Proof. destruct e; try reflexivity. discriminate. Qed.

(** X23. [ControlThread] starts a worker only once both of its events
    exist: each [CreateThread] call is for a worker [j], and the two calls
    just before it are the [CreateEvent] calls for [data_ready[j]] and
    [thread_ready[j]], neither of which returned [NULL]. *)
Theorem worker_starts_after_its_events
    (env : control_env) (g : globals) (pre post : trace) (t : thread_id) (h : Z) :
  fst (ControlThread env g) = pre ++ EvCreateThread t h :: post ->
  exists pre' j,
    t = Worker j
    /\ pre = pre' ++ [EvCreateEvent DataReady j (create_data_ready env j);
                      EvCreateEvent ThreadReady j (create_thread_ready env j)]
    /\ create_data_ready env j <> NULL /\ create_thread_ready env j <> NULL.
Proof.
  intros Hin.
  destruct (ControlThread_anatomy env g) as
    [(_ & Hcl & _) | (aff & tc & a1 & ok1 & mid & aF & r & _ & _ & Ec & E & Hmid & _)].
  - exfalso. revert Hin. now apply (class_excludes alloc_only_event).
  - rewrite E in Hin. cbn [fst] in Hin. rewrite out_arrays_frees in Hin. cbn [fst] in Hin.
    apply (occurs_after not_thread_start) in Hin as (pre1 & -> & Hin);
      [| unfold alloc_events; repeat constructor | reflexivity].
    apply (occurs_after not_thread_start) in Hin as (pre2 & -> & Hin);
      [| repeat constructor | reflexivity].
    apply (occurs_before not_thread_start) in Hin as (post' & _ & Hin); [| | reflexivity].
    + pose proof (create_workers_start env aff (Z.to_nat (num_threads g)) 0
                    (zero_arrays (num_threads g)) pre2 post' t h) as Hs.
      rewrite Ec in Hs. destruct (Hs Hin) as (pre' & j & -> & -> & H1 & H2 & _).
      exists (alloc_events env (num_threads g)
                ++ [EvPrintf Stdout (CreatingThreads (num_threads g))] ++ pre'), j.
      split; [reflexivity|]. split; [now rewrite <- !app_assoc | auto].
    + apply Forall_app. split.
      * eapply Forall_impl; [|exact Hmid]. apply middle_not_thread_start.
      * apply Forall_app. split; [|repeat constructor].
        eapply Forall_impl; [|apply cleanup_release]. apply release_not_thread_start.
Qed.

Lemma worker_starts_after_its_events_witness :
  let env := mkControlEnv true true true true (fun _ => 11) (fun _ => 12)
               (fun _ => 0) (fun _ => false) (fun _ => 0)
               (fun _ => true) (fun _ => true) WAIT_OBJECT_0 in
  exists pre' j,
    Worker 0 = Worker j
    /\ [EvCalloc TaskThread 1 true; EvCalloc DataReady 1 true; EvCalloc ThreadReady 1 true;
        EvCalloc ThreadData 1 true; EvPrintf Stdout (CreatingThreads 1);
        EvCreateEvent DataReady 0 11; EvCreateEvent ThreadReady 0 12]
       = pre' ++ [EvCreateEvent DataReady j (create_data_ready env j);
                  EvCreateEvent ThreadReady j (create_thread_ready env j)]
    /\ create_data_ready env j <> NULL /\ create_thread_ready env j <> NULL.
Proof.
  intros env.
  refine (worker_starts_after_its_events env (mkGlobals 1 (Some [1]) None None None)
            _ [EvPrintf Stdout (ThreadStartFailed 0); EvCloseHandle DataReady 0 11;
               EvCloseHandle ThreadReady 0 12; EvFree DataReady; EvFree ThreadReady;
               EvFree TaskThread; EvFree ThreadData] (Worker 0) 0 _).
  reflexivity.
Defined.

Lemma dummy_loop_no_wait todo : forall j cancel,
  Forall (fun x => not_wait_or_load x = true) (dummy_loop todo j cancel).
Proof.
  induction todo as [|todo IH]; intros j cancel; cbn [dummy_loop]; [constructor|].
  destruct (cancel j); repeat constructor. apply IH.
Qed.

Lemma worker_wait_order (i : Z) (turns : list worker_turn) : forall pre post a j tm res,
  fst (ParallelTaskThread i turns) = pre ++ EvWaitForSingleObject a j tm res :: post ->
  exists pre', pre = pre' ++ [EvSetEvent ThreadReady i true].
Proof.
  induction turns as [|t rest IH]; intros pre post a j tm res; cbn [ParallelTaskThread].
  - destruct pre; discriminate.
  - destruct (negb (ready_ok t)).
    { cbn [fst]. intros E. do 3 (destruct pre as [|? pre]; try discriminate E). }
    destruct (negb (data_wait t =? WAIT_OBJECT_0)).
    { cbn [fst]. intros E. destruct pre as [|? pre]; [discriminate E|].
      destruct pre as [|? pre]; [injection E as <- _; now exists []|].
      do 3 (destruct pre as [|? pre]; try discriminate E). }
    destruct (slot_test t =? 0).
    { cbn [fst]. intros E. destruct pre as [|? pre]; [discriminate E|].
      destruct pre as [|? pre]; [injection E as <- _; now exists []|].
      do 4 (destruct pre as [|? pre]; try discriminate E). }
    destruct (ParallelTaskThread i rest) as [tr r].
    pose proof (dummy_loop_no_wait 25 0 (cancel_in_work t)) as Hd.
    remember (dummy_loop 25 0 (cancel_in_work t)) as d eqn:Ed. clear Ed.
    cbn [fst app] in *. intros E.
    destruct pre as [|? pre]; [discriminate E|].
    destruct pre as [|? pre]; [injection E as <- _; now exists []|].
    do 3 (destruct pre as [|? pre]; [discriminate E|]).
    injection E as <- <- <- <- <- E.
    apply (occurs_after not_wait_or_load) in E as (pre1 & -> & E);
      [| exact Hd | reflexivity].
    destruct (IH _ _ _ _ _ _ E) as (pre' & ->).
    match goal with |- exists p, ?a :: ?b :: ?c :: ?e :: ?f :: _ = _ =>
      exists (a :: b :: c :: e :: f :: d ++ pre') end.
    cbn [app]. now rewrite <- app_assoc.
Qed.

Lemma worker_load_order (i : Z) (turns : list worker_turn) : forall pre post j v,
  fst (ParallelTaskThread i turns) = pre ++ EvLoadData j v :: post ->
  exists pre',
    pre = pre' ++ [EvWaitForSingleObject DataReady i WAIT_TIME WAIT_OBJECT_0]
    \/ exists v', v' <> 0
         /\ pre = pre' ++ [EvWaitForSingleObject DataReady i WAIT_TIME WAIT_OBJECT_0;
                          EvLoadData i v'].
Proof.
  induction turns as [|t rest IH]; intros pre post j v; cbn [ParallelTaskThread].
  - destruct pre; discriminate.
  - destruct (negb (ready_ok t)).
    { cbn [fst]. intros E. do 3 (destruct pre as [|? pre]; try discriminate E). }
    destruct (negb (data_wait t =? WAIT_OBJECT_0)) eqn:Hw.
    { cbn [fst]. intros E. do 4 (destruct pre as [|? pre]; try discriminate E). }
    apply negb_false_iff, Z.eqb_eq in Hw. rewrite Hw.
    destruct (slot_test t =? 0) eqn:Hs.
    { cbn [fst]. intros E. do 2 (destruct pre as [|? pre]; [discriminate E|]).
      destruct pre as [|? pre].
      - injection E as <- <- _. exists [EvSetEvent ThreadReady i true]. now left.
      - injection E as _ _ _ E. do 3 (destruct pre as [|? pre]; try discriminate E). }
    apply Z.eqb_neq in Hs.
    destruct (ParallelTaskThread i rest) as [tr r].
    pose proof (dummy_loop_no_wait 25 0 (cancel_in_work t)) as Hd.
    remember (dummy_loop 25 0 (cancel_in_work t)) as d eqn:Ed. clear Ed.
    cbn [fst app] in *. intros E.
    do 2 (destruct pre as [|? pre]; [discriminate E|]).
    destruct pre as [|? pre].
    { injection E as <- <- _. exists [EvSetEvent ThreadReady i true]. now left. }
    destruct pre as [|? pre].
    { injection E as <- <- <- _. exists [EvSetEvent ThreadReady i true]. right.
      exists (slot_test t). now split. }
    destruct pre as [|? pre]; [discriminate E|].
    injection E as <- <- <- <- <- E.
    apply (occurs_after not_wait_or_load) in E as (pre1 & -> & E);
      [| exact Hd | reflexivity].
    destruct (IH _ _ _ _ E) as (pre' & [-> | (v' & Hv & ->)]).
    + match goal with |- exists p, ?a :: ?b :: ?c :: ?e :: ?f :: _ = _ \/ _ =>
        exists (a :: b :: c :: e :: f :: d ++ pre') end.
      left. cbn [app]. now rewrite <- app_assoc.
    + match goal with |- exists p, ?a :: ?b :: ?c :: ?e :: ?f :: _ = _ \/ _ =>
        exists (a :: b :: c :: e :: f :: d ++ pre') end.
      right. exists v'. split; [exact Hv|].
      cbn [app]. now rewrite <- app_assoc.
Qed.

(** X24. The calls of a worker come in the order of its loop: a wait on
    [data_ready[i]] directly follows a readiness signal that succeeded, and
    a read of [thread_data[i]] directly follows a wait that returned
    [WAIT_OBJECT_0], or follows it after the one read of the exit test,
    which then saw a value other than 0. A worker never reads its slot
    without having been signalled. *)
Theorem worker_calls_in_order (i : Z) (turns : list worker_turn) :
  (forall pre post a j tm res,
      fst (ParallelTaskThread i turns) = pre ++ EvWaitForSingleObject a j tm res :: post ->
      exists pre', pre = pre' ++ [EvSetEvent ThreadReady i true])
  /\ (forall pre post j v,
        fst (ParallelTaskThread i turns) = pre ++ EvLoadData j v :: post ->
        exists pre',
          pre = pre' ++ [EvWaitForSingleObject DataReady i WAIT_TIME WAIT_OBJECT_0]
          \/ exists v', v' <> 0
               /\ pre = pre' ++ [EvWaitForSingleObject DataReady i WAIT_TIME WAIT_OBJECT_0;
                                EvLoadData i v']).
Proof.
  split; [apply worker_wait_order | apply worker_load_order].
Qed.

(** ** The sentinel reaches every worker *)

Lemma in_broadcast env todo : forall i j,
  i <= j < i + Z.of_nat todo ->
  In (EvSetEvent DataReady j (broadcast_ok env j)) (broadcast env todo i).
Proof.
  induction todo as [|todo IH]; intros i j Hj; cbn [broadcast]; [lia|].
  destruct (Z.eq_dec j i) as [->|Hne]; [now left | right]. apply IH. lia.
Qed.

Lemma sentinel_then_broadcast env n j (A rest : trace) :
  0 <= j < n ->
  exists pre post,
    A ++ shutdown_events env n ++ rest = pre ++ EvMemsetZero ThreadData :: post
    /\ In (EvSetEvent DataReady j (broadcast_ok env j)) post.
Proof.
  intros Hj. exists (A ++ [EvSleep 250]).
  exists (broadcast env (Z.to_nat n) 0
          ++ [EvWaitForMultipleObjects TaskThread n true WAIT_TIME (join_result env)] ++ rest).
  split.
  - unfold shutdown_events. rewrite <- !app_assoc. reflexivity.
  - apply in_or_app. left. apply in_broadcast. lia.
Qed.

(** X25. Whenever [ControlThread] clears the slots with the sentinel
    [memset], it then signals [data_ready[j]] of every worker [j], whether
    or not the earlier [SetEvent] calls of that loop succeeded: their result
    is not looked at. *)
Theorem sentinel_is_signalled_to_every_worker
    (env : control_env) (g : globals) (j : Z) :
  In (EvMemsetZero ThreadData) (fst (ControlThread env g)) ->
  0 <= j < num_threads g ->
  exists pre post,
    fst (ControlThread env g) = pre ++ EvMemsetZero ThreadData :: post
    /\ In (EvSetEvent DataReady j (broadcast_ok env j)) post.
Proof.
  intros Hin Hj.
  assert (Hno : forall tc td a rest,
             Forall (fun x => setup_event x = true) tc ->
             Forall (fun x => dispatch_event x = true) td ->
             ~ In (EvMemsetZero ThreadData)
                 (alloc_events env (num_threads g)
                  ++ [EvPrintf Stdout (CreatingThreads (num_threads g))]
                  ++ tc ++ td ++ fst (out_arrays (num_threads g) a rest))).
  { intros tc td a rest Hc Hd H.
    apply in_app_or in H as [H | H]; [cbn in H; intuition discriminate|].
    destruct H as [H | H]; [discriminate H|]. cbn [app] in H.
    apply in_app_or in H as [H | H];
      [exact (class_not_in setup_event _ (EvMemsetZero ThreadData) Hc eq_refl H)|].
    apply in_app_or in H as [H | H];
      [exact (class_not_in dispatch_event _ (EvMemsetZero ThreadData) Hd eq_refl H)|].
    exact (class_not_in cleanup_event _ (EvMemsetZero ThreadData)
             (proj1 (out_arrays_class _ _ _)) eq_refl H). }
  revert Hin.
  destruct (ControlThread_detail env g) as
    [Hcfg | aff Haff Hnz Hall | aff tc a1 Haff Hnz Hall Ec | aff tc a1 td a2 Haff Hnz Hall Ec Ed
     | aff tc a1 td a2 Haff Hnz Hall Ec Ed Ej | aff tc a1 td a2 Haff Hnz Hall Ec Ed Ej];
    cbn [fst snd]; intros Hin.
  - destruct Hin.
  - exfalso. unfold prepend in Hin. cbn [fst] in Hin.
    apply in_app_or in Hin as [Hin | Hin]; [cbn in Hin; intuition discriminate|].
    exact (class_not_in cleanup_event _ (EvMemsetZero ThreadData)
             (out_class _ _ _ _ _) eq_refl Hin).
  - exfalso. pose proof (create_workers_class env aff (Z.to_nat (num_threads g)) 0
                           (zero_arrays (num_threads g))) as Hc.
    rewrite Ec in Hc. exact (Hno tc [] a1 1 Hc (Forall_nil _) Hin).
  - exfalso. pose proof (create_workers_class env aff (Z.to_nat (num_threads g)) 0
                           (zero_arrays (num_threads g))) as Hc.
    rewrite Ec in Hc.
    exact (Hno tc td a2 1 Hc (dispatch_run_class _ _ _ _ _ _ Ed) Hin).
  - rewrite 3 app_assoc. apply sentinel_then_broadcast. exact Hj.
  - rewrite 3 app_assoc. apply sentinel_then_broadcast. exact Hj.
Qed.

Lemma sentinel_is_signalled_to_every_worker_witness :
  let env := mkControlEnv true true true true (fun _ => 11) (fun _ => 12) (fun _ => 13)
               (fun _ => true) (fun _ => 0) (fun _ => true) (fun i => i =? 0)
               WAIT_TIMEOUT in
  let g := mkGlobals 2 (Some [1; 2]) None None None in
  exists pre post,
    fst (ControlThread env g) = pre ++ EvMemsetZero ThreadData :: post
    /\ In (EvSetEvent DataReady 1 (broadcast_ok env 1)) post.
Proof.
  intros env g. apply (sentinel_is_signalled_to_every_worker env g 1).
  - vm_compute. tauto.
  - cbn. lia.
Defined.
